(** * ppt2pdf-web: the upload workflow and the client file list

    A shallow embedding of [src/server.js] (Express server that hands
    presentation files to LibreOffice and serves the results once) and of
    [src/public/script.js] (the browser-side list of selected files).

    Both source files hold two revisions of the program, one after the
    other.  The routes [POST /convert] and [GET /download/:id] and the
    function [removeFileAt] are the same text in both; [POST /preview-pdf]
    and [addFiles] exist in the first revision only, [POST /preview],
    [GET /preview/:id] and the inline [drop]/[change] handlers in the second
    only.  The model carries the union, and where the two revisions of one
    function differ it is indexed by [Rev]. *)

From Stdlib Require Import ZArith NArith Ascii String.
From stdpp Require Import gmap strings list fin_maps pretty sorting.

Open Scope string_scope.
Open Scope list_scope.

(** Which of the two revisions of a source file a definition follows. *)
Inductive Rev := Current | Earlier.

(** ** JavaScript and Node library functions used by the program *)
Module Js.

(** [String.prototype.toLowerCase] on the ASCII letters.  Strings are byte
    strings (UTF-8); bytes from 128 up are left alone.  No character
    outside ASCII lowercases to one of [. p t x d f n g], so every
    comparison the program makes on a lowercased string is decided as in
    JavaScript. *)
Definition lower_ascii (c : ascii) : ascii :=
  let n := nat_of_ascii c in
  if (65 <=? n)%nat && (n <=? 90)%nat then ascii_of_nat (n + 32) else c.

Fixpoint toLowerCase (s : string) : string :=
  match s with
  | EmptyString => EmptyString
  | String c rest => String (lower_ascii c) (toLowerCase rest)
  end.

(** [s.split(sep)] for a one-character separator: never the empty array. *)
Fixpoint split (sep : ascii) (s : string) : list string :=
  match s with
  | EmptyString => [EmptyString]
  | String c rest =>
      if Ascii.eqb c sep then EmptyString :: split sep rest
      else match split sep rest with
           | [] => [String c EmptyString]
           | seg :: segs => String c seg :: segs
           end
  end.

(** [arr.pop()] as used on the result of [split]: its last element. *)
Definition pop (l : list string) : string := List.last l EmptyString.

(** [s.endsWith(suffix)]. *)
Definition endsWith (s suffix : string) : bool :=
  let n := String.length s in
  let k := String.length suffix in
  (k <=? n)%nat && String.eqb (substring (n - k) k s) suffix.

(** State of the backwards scan of Node's [path.extname] (posix). *)
Record ExtScan := {
  startDot : Z;
  startPart : Z;
  end_ : Z;
  matchedSlash : bool;
  preDotState : Z;
  stopped : bool
}.

Definition ext_init : ExtScan :=
  {| startDot := -1; startPart := 0; end_ := -1;
     matchedSlash := true; preDotState := 0; stopped := false |}.

(** One iteration of the loop [for (i = path.length - 1; i >= 0; --i)]. *)
Definition ext_step (path : string) (s : ExtScan) (i : nat) : ExtScan :=
  if stopped s then s else
  match String.get i path with
  | None => s
  | Some c =>
      if Ascii.eqb c "/" then
        if negb (matchedSlash s)
        then {| startDot := startDot s; startPart := Z.of_nat i + 1;
                end_ := end_ s; matchedSlash := matchedSlash s;
                preDotState := preDotState s; stopped := true |}
        else s
      else
        let s1 :=
          if (end_ s =? -1)%Z
          then {| startDot := startDot s; startPart := startPart s;
                  end_ := Z.of_nat i + 1; matchedSlash := false;
                  preDotState := preDotState s; stopped := false |}
          else s in
        if Ascii.eqb c "." then
          if (startDot s1 =? -1)%Z
          then {| startDot := Z.of_nat i; startPart := startPart s1;
                  end_ := end_ s1; matchedSlash := matchedSlash s1;
                  preDotState := preDotState s1; stopped := false |}
          else if negb (preDotState s1 =? 1)%Z
          then {| startDot := startDot s1; startPart := startPart s1;
                  end_ := end_ s1; matchedSlash := matchedSlash s1;
                  preDotState := 1; stopped := false |}
          else s1
        else if negb (startDot s1 =? -1)%Z
        then {| startDot := startDot s1; startPart := startPart s1;
                end_ := end_ s1; matchedSlash := matchedSlash s1;
                preDotState := -1; stopped := false |}
        else s1
  end.

(** [path.extname(path)]: from the last dot of the last path segment to
    its end; empty when there is no dot, when the segment starts with its
    only dot, or when the segment is [..]. *)
Definition extname (path : string) : string :=
  let s := fold_left (ext_step path)
                     (rev (seq 0 (String.length path))) ext_init in
  if (startDot s =? -1)%Z || (end_ s =? -1)%Z || (preDotState s =? 0)%Z
     || ((preDotState s =? 1)%Z && (startDot s =? end_ s - 1)%Z
         && (startDot s =? startPart s + 1)%Z)
  then EmptyString
  else substring (Z.to_nat (startDot s))
                 (Z.to_nat (end_ s - startDot s)) path.

(** [s.includes(c)] for one character. *)
Fixpoint includes (c : ascii) (s : string) : bool :=
  match s with
  | EmptyString => false
  | String c' rest => Ascii.eqb c' c || includes c rest
  end.

(** What the scan remembers of the text to the left of the last dot. *)
Definition before_dot (a : string) : Z :=
  match a with
  | EmptyString => 0
  | String c _ => if Ascii.eqb c "." then 1 else -1
  end.

(** The scan after the characters of [suf], which start at position [k] and
    hold no slash. *)
Definition scanned (k : nat) (suf : string) (s : ExtScan) : Prop :=
  stopped s = false ∧ startPart s = 0%Z
  ∧ match suf with
    | EmptyString => s = ext_init
    | _ =>
        end_ s = Z.of_nat (k + String.length suf)
        ∧ ((includes "." suf = false ∧ startDot s = (-1)%Z ∧ preDotState s = 0%Z)
           ∨ ∃ a b, suf = a +:+ String "." b ∧ includes "." b = false
                    ∧ startDot s = Z.of_nat (k + String.length a)
                    ∧ preDotState s = before_dot a)
    end.

(** The text of a JavaScript string is a sequence of UTF-16 code units; the
    model keeps strings as the bytes of their UTF-8 form.  [code_units] reads
    the bytes as Node reads a file name: the UTF-8 decoder, which puts U+FFFD
    for every ill-formed sequence, and then one code unit for a code point
    below U+10000 and a surrogate pair for one above. *)
Record Utf8 := {
  needed : N;
  point : N;
  lower : N;
  upper : N
}.

Definition utf8_idle : Utf8 :=
  {| needed := 0; point := 0; lower := 128; upper := 191 |}.

(** A byte met between two characters. *)
Definition utf8_lead (b : N) : list N * Utf8 :=
  if (b <=? 127)%N then ([b], utf8_idle)
  else if (194 <=? b)%N && (b <=? 223)%N then
    ([], {| needed := 1; point := N.land b 31; lower := 128; upper := 191 |})
  else if (224 <=? b)%N && (b <=? 239)%N then
    ([], {| needed := 2; point := N.land b 15;
            lower := if (b =? 224)%N then 160 else 128;
            upper := if (b =? 237)%N then 159 else 191 |})
  else if (240 <=? b)%N && (b <=? 244)%N then
    ([], {| needed := 3; point := N.land b 7;
            lower := if (b =? 240)%N then 144 else 128;
            upper := if (b =? 244)%N then 143 else 191 |})
  else ([65533%N], utf8_idle).

(** One byte: the code points that are complete with it, and the decoder
    afterwards. *)
Definition utf8_byte (s : Utf8) (b : N) : list N * Utf8 :=
  if (needed s =? 0)%N then utf8_lead b
  else if (lower s <=? b)%N && (b <=? upper s)%N then
    let cp := N.lor (N.shiftl (point s) 6) (N.land b 63) in
    if (needed s =? 1)%N then ([cp], utf8_idle)
    else ([], {| needed := needed s - 1; point := cp; lower := 128; upper := 191 |})
  else (65533%N :: (utf8_lead b).1, (utf8_lead b).2).

Fixpoint utf8_decode (s : Utf8) (bytes : string) : list N :=
  match bytes with
  | EmptyString => if (needed s =? 0)%N then [] else [65533%N]
  | String c rest =>
      (utf8_byte s (N_of_ascii c)).1 ++ utf8_decode (utf8_byte s (N_of_ascii c)).2 rest
  end.

Definition utf16 (cp : N) : list N :=
  if (cp <? 65536)%N then [cp]
  else [(55296 + N.shiftr (cp - 65536) 10)%N; (56320 + N.land (cp - 65536) 1023)%N].

Definition code_units (s : string) : list N :=
  utf8_decode utf8_idle s ≫= utf16.

(** [a <= b] on strings, as [<] and the default order of [sort()] have it:
    code unit by code unit, a proper prefix first. *)
Fixpoint units_leb (a b : list N) : bool :=
  match a, b with
  | [], _ => true
  | _ :: _, [] => false
  | x :: a', y :: b' =>
      match (x ?= y)%N with
      | Lt => true
      | Gt => false
      | Eq => units_leb a' b'
      end
  end.

Definition code_unit_leb (a b : string) : bool :=
  units_leb (code_units a) (code_units b).

(** The UTF-8 form of a code point. *)
Definition utf8_encode (cp : N) : string :=
  if (cp <? 128)%N then String (ascii_of_N cp) ""
  else if (cp <? 2048)%N then
    String (ascii_of_N (192 + N.shiftr cp 6))
      (String (ascii_of_N (128 + N.land cp 63)) "")
  else if (cp <? 65536)%N then
    String (ascii_of_N (224 + N.shiftr cp 12))
      (String (ascii_of_N (128 + N.land (N.shiftr cp 6) 63))
         (String (ascii_of_N (128 + N.land cp 63)) ""))
  else
    String (ascii_of_N (240 + N.shiftr cp 18))
      (String (ascii_of_N (128 + N.land (N.shiftr cp 12) 63))
         (String (ascii_of_N (128 + N.land (N.shiftr cp 6) 63))
            (String (ascii_of_N (128 + N.land cp 63)) ""))).

(** [c.toLowerCase().toUpperCase()] for the character with code point [cp],
    where that text stays below U+0100; [None] where it does not.  Outside
    ASCII: the letters of Latin-1 come back as capitals, sharp s as SS; the
    micro sign and y with diaeresis leave Latin-1; and of the characters
    beyond Latin-1 only dotless i, long s, capital sharp s, the Kelvin and
    the Angstrom sign and the ligatures U+FB00 to U+FB06 come back into
    it. *)
Definition upper_of_lower (cp : N) : option (list N) :=
  if (cp <? 128)%N then
    Some [if (97 <=? cp)%N && (cp <=? 122)%N then (cp - 32)%N else cp]
  else if (cp =? 181)%N || (cp =? 255)%N then None
  else if (cp =? 223)%N then Some [83%N; 83%N]
  else if (cp <=? 255)%N then
    Some [if (224 <=? cp)%N && (cp <=? 254)%N && negb (cp =? 247)%N
          then (cp - 32)%N else cp]
  else if (cp =? 305)%N then Some [73%N]
  else if (cp =? 383)%N then Some [83%N]
  else if (cp =? 7838)%N then Some [83%N; 83%N]
  else if (cp =? 8490)%N then Some [75%N]
  else if (cp =? 8491)%N then Some [197%N]
  else if (cp =? 64256)%N then Some [70%N; 70%N]
  else if (cp =? 64257)%N then Some [70%N; 73%N]
  else if (cp =? 64258)%N then Some [70%N; 76%N]
  else if (cp =? 64259)%N then Some [70%N; 70%N; 73%N]
  else if (cp =? 64260)%N then Some [70%N; 70%N; 76%N]
  else if (cp =? 64261)%N || (cp =? 64262)%N then Some [83%N; 84%N]
  else None.

End Js.

(** ** The client file list: [src/public/script.js] *)
Module Client.

(** A browser [File]: the three fields the script reads, and [blob] for
    the object itself, so that two files with the same metadata are still
    two values. *)
Record File := {
  name : string;
  size : N;
  lastModified : Z;
  blob : nat
}.

(** One rendered tile of the preview grid built by [renderFileList]. *)
Record Tile := {
  removeLabel : string;   (* aria-label of the remove button *)
  removeIndex : nat;      (* the [idx] its click handler passes on *)
  imgAlt : string;
  imgPlaceholder : string;  (* label drawn by [makePlaceholder] *)
  filenameText : string
}.

(** The script's mutable variables and the part of the page it writes. *)
Record State := {
  currentFiles : list File;
  inputFiles : list File;       (* fileInput.files *)
  fileListEl : list Tile;       (* children of the grid in #fileList *)
  status : string;              (* status.textContent *)
  resetHidden : bool;           (* resetBtn.hidden *)
  dropCompact : bool;           (* drop has class compact, min-height 84px *)
  dropDrag : bool;              (* drop has class drag *)
  resultEl : option string;     (* the download link in #result, if any *)
  previewRequests : list File;  (* preview uploads started so far *)
  hasDataTransfer : bool        (* whether [new DataTransfer()] works *)
}.

(** How a call ends: it returns, or an exception leaves it.  Either way the
    page is what the statements that ran have made of it. *)
Inductive Completion :=
| Returns (st : State)
| Throws (st : State).

Definition page (c : Completion) : State :=
  match c with
  | Returns st | Throws st => st
  end.

Definition set_files (cur inp : list File) (st : State) : State :=
  {| currentFiles := cur; inputFiles := inp;
     fileListEl := fileListEl st; status := status st;
     resetHidden := resetHidden st; dropCompact := dropCompact st;
     dropDrag := dropDrag st; resultEl := resultEl st;
     previewRequests := previewRequests st;
     hasDataTransfer := hasDataTransfer st |}.

Definition set_drag (b : bool) (st : State) : State :=
  {| currentFiles := currentFiles st; inputFiles := inputFiles st;
     fileListEl := fileListEl st; status := status st;
     resetHidden := resetHidden st; dropCompact := dropCompact st;
     dropDrag := b; resultEl := resultEl st;
     previewRequests := previewRequests st;
     hasDataTransfer := hasDataTransfer st |}.

Definition set_status (text : string) (st : State) : State :=
  {| currentFiles := currentFiles st; inputFiles := inputFiles st;
     fileListEl := fileListEl st; status := text;
     resetHidden := resetHidden st; dropCompact := dropCompact st;
     dropDrag := dropDrag st; resultEl := resultEl st;
     previewRequests := previewRequests st;
     hasDataTransfer := hasDataTransfer st |}.

Definition set_result (link : option string) (st : State) : State :=
  {| currentFiles := currentFiles st; inputFiles := inputFiles st;
     fileListEl := fileListEl st; status := status st;
     resetHidden := resetHidden st; dropCompact := dropCompact st;
     dropDrag := dropDrag st; resultEl := link;
     previewRequests := previewRequests st;
     hasDataTransfer := hasDataTransfer st |}.

(** [getExt]: [(name || '').split('.').pop().toLowerCase()]. *)
Definition getExt (nm : string) : string :=
  Js.toLowerCase (Js.pop (Js.split "." nm)).

Definition is_ppt (ext : string) : bool :=
  String.eqb ext "ppt" || String.eqb ext "pptx".

(** [makePlaceholder] (lines 238-242 and 522-526): only the label
    [(ext || 'ppt').toUpperCase()] of the generated image is kept.  The
    image is made with [btoa], which throws where its argument has a
    character above U+00FF; the rest of the argument is ASCII, so it throws
    where the label has one: [None]. *)
Definition makePlaceholder (ext : string) : option string :=
  let label := if String.eqb ext "" then "ppt" else ext in
  points ← mapM Js.upper_of_lower (Js.utf8_decode Js.utf8_idle label);
  Some (foldr (λ cp s, Js.utf8_encode cp +:+ s) "" (concat points)).

(** The duplicate test of [addFiles] (line 39): all three keys. *)
Definition same3 (f existing : File) : bool :=
  String.eqb (name existing) (name f) && N.eqb (size existing) (size f)
  && Z.eqb (lastModified existing) (lastModified f).

(** The duplicate test of the earlier handlers (lines 315, 332). *)
Definition same2 (f existing : File) : bool :=
  String.eqb (name existing) (name f) && N.eqb (size existing) (size f).

(** [createFileList]: the list itself through a [DataTransfer], or the
    input's present files where that constructor throws. *)
Definition createFileList (files : list File) (st : State) : list File :=
  if hasDataTransfer st then files else inputFiles st.

(** The tile that one round of the [forEach] of [renderFileList] builds for
    the file at [idx]; none where [makePlaceholder] throws. *)
Definition tile (idx : nat) (f : File) : option Tile :=
  label ← makePlaceholder (getExt (name f));
  Some {| removeLabel := "Remove " +:+ name f; removeIndex := idx;
          imgAlt := name f; imgPlaceholder := label;
          filenameText := name f |}.

Definition status_selected (r : Rev) (cur : list File) : string :=
  match r with
  | Current => pretty (length cur) +:+ " file(s) selected"
  | Earlier =>
      match cur with
      | [f] => name f
      | _ => pretty (length cur) +:+ " files selected"
      end
  end.

Definition set_compact (b : bool) (st : State) : State :=
  {| currentFiles := currentFiles st; inputFiles := inputFiles st;
     fileListEl := fileListEl st; status := status st;
     resetHidden := resetHidden st; dropCompact := b;
     dropDrag := dropDrag st; resultEl := resultEl st;
     previewRequests := previewRequests st;
     hasDataTransfer := hasDataTransfer st |}.

(** [setDropCompact] and [restoreDropDefault] (lines 187-198).  The earlier
    revision calls both and defines neither: there the call is a
    [ReferenceError]. *)
Definition setDropCompact (r : Rev) (st : State) : Completion :=
  match r with
  | Current => Returns (set_compact true st)
  | Earlier => Throws st
  end.

Definition restoreDropDefault (r : Rev) (st : State) : Completion :=
  match r with
  | Current => Returns (set_compact false st)
  | Earlier => Throws st
  end.

(** The [forEach] of [renderFileList] from position [idx] on: the tiles put
    into the grid, the files whose preview upload has been started, and
    whether the end of the list was reached.  A round whose placeholder
    throws ends the loop before its tile is in the grid and before its upload
    starts. *)
Fixpoint render_tiles (idx : nat) (files : list File)
  : list Tile * list File * bool :=
  match files with
  | [] => ([], [], true)
  | f :: rest =>
      match tile idx f with
      | None => ([], [], false)
      | Some t =>
          let out := render_tiles (S idx) rest in
          (t :: out.1.1, f :: out.1.2, out.2)
      end
  end.

(** [renderFileList] (lines 125-185 and 417-488): empties [#fileList], then
    rebuilds the grid from [currentFiles], starting one preview upload per
    file, and attaches it when the loop is through; the call of
    [restoreDropDefault] or [setDropCompact] is its last statement. *)
Definition renderFileList (r : Rev) (st : State) : Completion :=
  match currentFiles st with
  | [] =>
      restoreDropDefault r
        {| currentFiles := currentFiles st; inputFiles := inputFiles st;
           fileListEl := []; status := "Ready"; resetHidden := true;
           dropCompact := dropCompact st; dropDrag := dropDrag st;
           resultEl := resultEl st; previewRequests := previewRequests st;
           hasDataTransfer := hasDataTransfer st |}
  | cur =>
      let out := render_tiles 0 cur in
      if out.2 then
        setDropCompact r
          {| currentFiles := cur; inputFiles := inputFiles st;
             fileListEl := out.1.1; status := status_selected r cur;
             resetHidden := false; dropCompact := dropCompact st;
             dropDrag := dropDrag st; resultEl := resultEl st;
             previewRequests := previewRequests st ++ out.1.2;
             hasDataTransfer := hasDataTransfer st |}
      else
        Throws
          {| currentFiles := cur; inputFiles := inputFiles st;
             fileListEl := []; status := status st;
             resetHidden := resetHidden st; dropCompact := dropCompact st;
             dropDrag := dropDrag st; resultEl := resultEl st;
             previewRequests := previewRequests st ++ out.1.2;
             hasDataTransfer := hasDataTransfer st |}
  end.

(** The loop of [addFiles] (lines 34-43): [cur] is [currentFiles] as the
    pushes go, [added] the counter. *)
Fixpoint addFiles_loop (filesArray cur : list File) (added : nat)
  : list File * nat :=
  match filesArray with
  | [] => (cur, added)
  | f :: rest =>
      if negb (is_ppt (getExt (name f))) then addFiles_loop rest cur added
      else if negb (existsb (same3 f) cur)
      then addFiles_loop rest (cur ++ [f]) (S added)
      else addFiles_loop rest cur added
  end.

(** [addFiles] (current revision, lines 31-47). *)
Definition addFiles (filesArray : list File) (st : State) : Completion :=
  match filesArray with
  | [] => Returns st
  | _ =>
      let '(cur, added) := addFiles_loop filesArray (currentFiles st) 0 in
      let st2 := set_files cur (createFileList cur st) st in
      match added with
      | O => Returns st2
      | S _ => renderFileList Current st2
      end
  end.

(** The loop of the earlier [drop] and [change] handlers. *)
Fixpoint append_loop (incoming cur : list File) : list File :=
  match incoming with
  | [] => cur
  | f :: rest =>
      if negb (existsb (same2 f) cur) then append_loop rest (cur ++ [f])
      else append_loop rest cur
  end.

Definition append_files (incoming : list File) (st : State) : Completion :=
  match incoming with
  | [] => Returns st
  | _ =>
      let cur := append_loop incoming (currentFiles st) in
      renderFileList Earlier (set_files cur (createFileList cur st) st)
  end.

(** The [drop] listener (lines 16-21 and 309-322): the page when it is
    over, by return or by an exception that nothing catches. *)
Definition on_drop (r : Rev) (dropped : list File) (st : State) : State :=
  let st := set_drag false st in
  match r with
  | Current => page (addFiles dropped st)
  | Earlier => page (append_files dropped st)
  end.

(** The [change] listener of the file input (lines 23-28 and 327-339).
    The browser has put the picked files into [fileInput.files] before the
    listener runs; the current revision ends with [fileInput.value = ''],
    which an exception out of [addFiles] skips. *)
Definition on_change (r : Rev) (picked : list File) (st : State) : State :=
  let st := set_files (currentFiles st) picked st in
  match r with
  | Current =>
      match addFiles picked st with
      | Returns st' => set_files (currentFiles st') [] st'
      | Throws st' => st'
      end
  | Earlier => page (append_files picked st)
  end.

(** [removeFileAt] (lines 200-206 and 490-496), which only the click
    listener of a remove button calls: the page when the call is over.
    [splice(index, 1)] on an index in range removes that one element. *)
Definition removeFileAt (r : Rev) (index : Z) (st : State) : State :=
  if (index <? 0)%Z || (index >=? Z.of_nat (length (currentFiles st)))%Z
  then st
  else
    let cur := delete (Z.to_nat index) (currentFiles st) in
    page (renderFileList r (set_files cur (createFileList cur st) st)).

(** [resetSelection] (lines 208-220 and 498-504), which only the click
    listener of the reset button calls: the page when the call is over.  In
    the earlier revision the statements behind [renderFileList()] run only
    if that call returns. *)
Definition resetSelection (r : Rev) (st : State) : State :=
  match r with
  | Current =>
      page (restoreDropDefault Current
              {| currentFiles := []; inputFiles := []; fileListEl := [];
                 status := "Ready"; resetHidden := true;
                 dropCompact := dropCompact st; dropDrag := dropDrag st;
                 resultEl := None; previewRequests := previewRequests st;
                 hasDataTransfer := hasDataTransfer st |})
  | Earlier =>
      match renderFileList Earlier (set_files [] [] st) with
      | Returns st1 => set_status "Ready" (set_result None st1)
      | Throws st1 => st1
      end
  end.

(** What the user can do to the page. *)
Inductive Event :=
| Dragover
| Dragleave
| Drop (dropped : list File)
| Change (picked : list File)
| RemoveClick (index : Z)
| ResetClick.

Definition handle (r : Rev) (st : State) (e : Event) : State :=
  match e with
  | Dragover => set_drag true st
  | Dragleave => set_drag false st
  | Drop dropped => on_drop r dropped st
  | Change picked => on_change r picked st
  | RemoveClick index => removeFileAt r index st
  | ResetClick => resetSelection r st
  end.

(** The page after the script has loaded: empty list, one initial
    [renderFileList()] as the last statement of the script, behind the
    registration of every listener. *)
Definition initial (r : Rev) (dt : bool) : State :=
  page (renderFileList r
          {| currentFiles := []; inputFiles := []; fileListEl := [];
             status := ""; resetHidden := false; dropCompact := false;
             dropDrag := false; resultEl := None; previewRequests := [];
             hasDataTransfer := dt |}).

Definition run (r : Rev) (dt : bool) (events : list Event) : State :=
  fold_left (handle r) events (initial r dt).

(** The three keys of the de-duplication. *)
Definition key3 (f : File) : string * N * Z :=
  (name f, size f, lastModified f).

Definition key2 (f : File) : string * N := (name f, size f).

(** The list an add operation leaves, whatever the revision and the way in
    (picker or drop). *)
Definition added (r : Rev) (incoming cur : list File) : list File :=
  match r with
  | Current => (addFiles_loop incoming cur 0).1
  | Earlier => append_loop incoming cur
  end.

(** The invariant of each revision: the current one compares three keys, the
    earlier one two. *)
Definition distinct (r : Rev) (l : list File) : Prop :=
  match r with
  | Current => NoDup (key3 <$> l)
  | Earlier => NoDup (key2 <$> l)
  end.

(** How many entries of [l] carry the three keys [k]. *)
Definition occurrences (k : string * N * Z) (l : list File) : nat :=
  length (filter (λ f, key3 f = k) l).

(** Two selections of the same file on disk, as two [File] objects, and
    another file. *)
Definition deck : File :=
  {| name := "deck.pptx"; size := 2048; lastModified := 1700000000000;
     blob := 1 |}.

Definition deck_again : File :=
  {| name := "deck.pptx"; size := 2048; lastModified := 1700000000000;
     blob := 2 |}.

Definition notes : File :=
  {| name := "notes.ppt"; size := 512; lastModified := 1700000000500;
     blob := 3 |}.

(** The tile of [notes] as the second of the grid. *)
Definition notes_tile : Tile :=
  {| removeLabel := "Remove notes.ppt"; removeIndex := 1;
     imgAlt := "notes.ppt"; imgPlaceholder := "PPT";
     filenameText := "notes.ppt" |}.

(** A file that only the earlier revision takes into the list, and whose
    placeholder cannot be made. *)
Definition memo : File :=
  {| name := "notes.日本語"; size := 64; lastModified := 1700000001000;
     blob := 4 |}.

(** *** Words for further statements *)

(** No file is selected. *)
Definition no_files (st : State) : bool :=
  match currentFiles st with
  | [] => true
  | _ :: _ => false
  end.

(** The extension test of [addFiles] (lines 36-37) and of the convert button
    (lines 60-61) on one file. *)
Definition valid (f : File) : bool := is_ppt (getExt (name f)).

(** The placeholder of the file's tile can be made. *)
Definition fits (f : File) : bool :=
  match makePlaceholder (getExt (name f)) with
  | Some _ => true
  | None => false
  end.

(** What a tile shows of its file: the index its remove button passes on,
    and the name under the image. *)
Definition views (st : State) : list (nat * string) :=
  (λ t, (removeIndex t, filenameText t)) <$> fileListEl st.

(** The page reflects the list: one tile per file, in list order, with the
    file's name and its position, and the reset button is hidden exactly
    when there is no file. *)
Definition reflects (st : State) : Prop :=
  views st = imap (λ k f, (k, name f)) (currentFiles st)
  ∧ resetHidden st = no_files st.

(** What holds of the page at every event.  In the current revision the
    list holds presentations only and the page reflects it, drop area
    included; in the earlier one the drop area is never compact.  In both the
    grid is empty or has a tile for every file, and the page reflects the
    list where every placeholder can be made. *)
Definition sound (r : Rev) (st : State) : Prop :=
  match r with
  | Current =>
      Forall (λ f, valid f = true) (currentFiles st) ∧ reflects st
      ∧ dropCompact st = negb (no_files st)
  | Earlier => dropCompact st = false
  end
  ∧ (fileListEl st = []
     ∨ views st = imap (λ k f, (k, name f)) (currentFiles st))
  ∧ (Forall (λ f, fits f = true) (currentFiles st) → reflects st).

(** The files dropped one after the other, each in a drop of its own. *)
Definition one_by_one (files : list File) : list Event :=
  (λ f, Drop [f]) <$> files.

(** The add operation of the revision lets the file's name through. *)
Definition accepts (r : Rev) (f : File) : bool :=
  match r with
  | Current => valid f
  | Earlier => true
  end.

(** The list has an entry that the revision's duplicate test takes for
    [f]. *)
Definition listed (r : Rev) (f : File) (l : list File) : Prop :=
  match r with
  | Current => key3 f ∈ key3 <$> l
  | Earlier => key2 f ∈ key2 <$> l
  end.

(** *** The convert button (lines 54-122) *)

(** What the click handler and the request's callbacks write besides
    [status] and [#result]. *)
Record Controls := {
  convertDisabled : bool;     (* convertBtn.disabled *)
  progressHidden : bool;      (* progressWrap.hidden *)
  progressWidth : string      (* progressBar.style.width *)
}.

(** The anchor that [xhr.onload] appends to [#result]. *)
Record Link := {
  href : string;
  linkText : string;
  download : option string
}.

(** The click on the convert button up to [xhr.send(form)]: the page, the
    controls, and the files of the form that is sent, in the order of the
    [form.append] calls, if one is sent. *)
Definition convert_click (st : State) (ctl : Controls)
  : State * Controls * option (list File) :=
  let st := set_result None st in
  match currentFiles st with
  | [] => (set_status "Pick one or more .ppt or .pptx files." st, ctl, None)
  | cur =>
      if existsb (λ f, negb (valid f)) cur
      then (set_status "Only .ppt/.pptx allowed." st, ctl, None)
      else (set_status "Uploading..." st,
            {| convertDisabled := true; progressHidden := false;
               progressWidth := "0%" |},
            Some cur)
  end.

(** [xhr.responseText] as [JSON.parse] sees it: an object with the string
    fields the handler reads (empty where the object has none), or text that
    is no JSON. *)
Inductive ResponseText :=
| JsonText (error downloadUrl filename : string)
| OtherText (text : string).

(** [xhr.onload] (lines 83-113) for a response with this status and text. *)
Definition onload (code : nat) (text : ResponseText) (st : State)
  : State * Controls * option Link :=
  let ctl := {| convertDisabled := false; progressHidden := true;
                progressWidth := "0%" |} in
  match code with
  | 200 =>
      match text with
      | JsonText _ downloadUrl filename =>
          if String.eqb downloadUrl ""
          then (set_status "Conversion succeeded but no download link returned." st,
                ctl, None)
          else
            let a :=
              {| href := downloadUrl;
                 linkText :=
                   if negb (String.eqb filename "")
                      && Js.endsWith (Js.toLowerCase filename) ".zip"
                   then "Download ZIP" else "Download PDF";
                 download :=
                   if String.eqb filename "" then None else Some filename |} in
            (set_status "Conversion ready. Click the download button."
                        (set_result (Some downloadUrl) st),
             ctl, Some a)
      | OtherText _ =>
          (set_status "Conversion succeeded but response could not be read." st,
           ctl, None)
      end
  | _ =>
      match text with
      | JsonText error _ _ =>
          (set_status (if String.eqb error "" then "Conversion failed." else error) st,
           ctl, None)
      | OtherText text =>
          (set_status (if String.eqb text "" then "Conversion failed."
                       else "Conversion failed (server error).") st,
           ctl, None)
      end
  end.

(** [xhr.onerror] (lines 115-119); the width of the progress bar is left as
    it is. *)
Definition onerror (st : State) (ctl : Controls) : State * Controls :=
  (set_status "Upload failed." st,
   {| convertDisabled := false; progressHidden := true;
      progressWidth := progressWidth ctl |}).

End Client.

(** ** The file system under [os.tmpdir()] *)
Module Fs.

(** What a file holds.  The program never looks inside a file; contents are
    kept apart so that copies and archive entries can be traced. *)
#[warnings="-register-all"] Inductive Content :=
| Blob (n : nat)
| ZipArchive (entries : list (string * Content)).

(** [path.join(dir, base)], with [dir] itself [path.join(os.tmpdir(), d)]:
    a directory directly under the temporary directory and a file name in
    it.  File names are base names (multer hands over the base name of the
    client's file name; [readdirSync] lists base names). *)
Record Path := { dir : string; base : string }.

Definition join (d b : string) : Path := {| dir := d; base := b |}.

Definition path_string (p : Path) : string := dir p +:+ "/" +:+ base p.

(** Directories under the temporary directory and the regular files in
    each.  A call that throws in Node returns [None]. *)
Abbreviation Disk := (gmap string (gmap string Content)).

Definition readFileSync (p : Path) (fs : Disk) : option Content :=
  fs !! dir p ≫= λ d, d !! base p.

Definition existsSync (p : Path) (fs : Disk) : bool :=
  match readFileSync p fs with Some _ => true | None => false end.

(** No file at [p]. *)
Definition absent (p : Path) (fs : Disk) : Prop := readFileSync p fs = None.

Definition existsSync_dir (d : string) (fs : Disk) : bool :=
  match fs !! d with Some _ => true | None => false end.

(** [fs.mkdirSync(d, { recursive: true })]: nothing to do when it exists. *)
Definition mkdirSync (d : string) (fs : Disk) : Disk :=
  match fs !! d with
  | Some _ => fs
  | None => <[d := ∅]> fs
  end.

Definition readdirSync (d : string) (fs : Disk) : option (list string) :=
  (λ entries, (map_to_list entries).*1) <$> fs !! d.

(** Creates or replaces the file, as a write or a copy does; throws when
    the directory is missing. *)
Definition writeFileSync (p : Path) (c : Content) (fs : Disk) : option Disk :=
  match fs !! dir p with
  | Some d => Some (<[dir p := <[base p := c]> d]> fs)
  | None => None
  end.

Definition unlinkSync (p : Path) (fs : Disk) : option Disk :=
  match fs !! dir p with
  | Some d =>
      match d !! base p with
      | Some _ => Some (<[dir p := delete (base p) d]> fs)
      | None => None
      end
  | None => None
  end.

Definition rmdirSync (d : string) (fs : Disk) : option Disk :=
  match fs !! d with
  | Some entries =>
      match map_to_list entries with
      | [] => Some (delete d fs)
      | _ :: _ => None
      end
  | None => None
  end.

Definition copyFileSync (src dst : Path) (fs : Disk) : option Disk :=
  match readFileSync src fs with
  | Some c => writeFileSync dst c fs
  | None => None
  end.

Definition renameSync (src dst : Path) (fs : Disk) : option Disk :=
  match readFileSync src fs with
  | Some c =>
      match fs !! dir dst with
      | Some _ => unlinkSync src fs ≫= writeFileSync dst c
      | None => None
      end
  | None => None
  end.

End Fs.

(** ** The server: [src/server.js] *)
Module Server.
Import Fs.

(** *** Identifiers, registries, timers *)

Definition is_hex_or_dash (c : ascii) : bool :=
  let n := nat_of_ascii c in
  ((48 <=? n)%nat && (n <=? 57)%nat) || ((97 <=? n)%nat && (n <=? 102)%nat)
  || (n =? 45)%nat.

Definition is_uuid (s : string) : bool :=
  (String.length s =? 36)%nat && forallb is_hex_or_dash (list_ascii_of_string s).

(** A result of [uuidv4()]: 36 characters, lowercase hexadecimal digits and
    dashes. *)
Record Uuid := { uuid_str : string; uuid_ok : is_uuid uuid_str = true }.

(** An entry of [generatedFiles] (lines 137, 152). *)
Record FileInfo := { path : Path; downloadName : string }.

(** The two closures the program hands to [setTimeout] (lines 139, 153 and
    492), with the variables they capture. *)
Inductive TimerCallback :=
| ExpireGenerated (destPath : Path) (id : string)
| ExpirePreview (destPath : Path) (id : string).

Record Timer := { due : Z; callback : TimerCallback }.

(** The process: the two registries, the disk, the pending timers with the
    clock in milliseconds, and the [res.download] transfers whose completion
    callback has not run yet. *)
Record State := {
  generatedFiles : gmap string FileInfo;
  previewFiles : gmap string Path;
  disk : Disk;
  timers : list Timer;
  clock : Z;
  transfers : list (string * FileInfo)
}.

Definition set_disk (fs : Disk) (st : State) : State :=
  {| generatedFiles := generatedFiles st; previewFiles := previewFiles st;
     disk := fs; timers := timers st; clock := clock st;
     transfers := transfers st |}.

Definition set_generatedFiles (g : gmap string FileInfo) (st : State) : State :=
  {| generatedFiles := g; previewFiles := previewFiles st;
     disk := disk st; timers := timers st; clock := clock st;
     transfers := transfers st |}.

Definition set_previewFiles (p : gmap string Path) (st : State) : State :=
  {| generatedFiles := generatedFiles st; previewFiles := p;
     disk := disk st; timers := timers st; clock := clock st;
     transfers := transfers st |}.

Definition set_timers (ts : list Timer) (st : State) : State :=
  {| generatedFiles := generatedFiles st; previewFiles := previewFiles st;
     disk := disk st; timers := ts; clock := clock st;
     transfers := transfers st |}.

Definition set_clock (t : Z) (st : State) : State :=
  {| generatedFiles := generatedFiles st; previewFiles := previewFiles st;
     disk := disk st; timers := timers st; clock := t;
     transfers := transfers st |}.

Definition set_transfers (tr : list (string * FileInfo)) (st : State) : State :=
  {| generatedFiles := generatedFiles st; previewFiles := previewFiles st;
     disk := disk st; timers := timers st; clock := clock st;
     transfers := tr |}.

(** [setTimeout(cb, ms)]. *)
Definition setTimeout (cb : TimerCallback) (ms : Z) (st : State) : State :=
  set_timers (timers st ++ [{| due := clock st + ms; callback := cb |}]) st.

(** The expiry window, [10 * 60 * 1000]. *)
Definition TTL : Z := 10 * 60 * 1000.

(** [try { fs.unlinkSync(p); } catch (e) {}]. *)
Definition try_unlink (p : Path) (fs : Disk) : Disk :=
  default fs (unlinkSync p fs).

(** Body of a timer closure. *)
Definition fire (cb : TimerCallback) (st : State) : State :=
  match cb with
  | ExpireGenerated destPath id =>
      set_generatedFiles (delete id (generatedFiles st))
        (set_disk (try_unlink destPath (disk st)) st)
  | ExpirePreview destPath id =>
      set_previewFiles (delete id (previewFiles st))
        (set_disk (try_unlink destPath (disk st)) st)
  end.

(** Time passes: the clock moves on by [ms] and the timers that are due by
    then run, in the order they were set.  All timers of the two registries
    are set with the same delay, so that is also the order of their due
    times. *)
Definition elapse (ms : N) (st : State) : State :=
  let t := (clock st + Z.of_N ms)%Z in
  let expired := filter (λ tm, due tm ≤ t)%Z (timers st) in
  let pending := filter (λ tm, ¬ (due tm ≤ t)%Z) (timers st) in
  foldl (λ acc tm, fire (callback tm) acc)
        (set_timers pending (set_clock t st)) expired.

(** Names every object inherits from [Object.prototype]. *)
Definition Object_prototype : list string :=
  [ "constructor"; "__proto__"; "hasOwnProperty"; "isPrototypeOf";
    "propertyIsEnumerable"; "toLocaleString"; "toString"; "valueOf";
    "__defineGetter__"; "__defineSetter__"; "__lookupGetter__";
    "__lookupSetter__" ].

(** What [obj[key]] evaluates to on one of the registries, both plain
    objects created by [{}]: an own entry, something inherited (truthy, and
    neither a path nor an object with a [path]), or [undefined]. *)
Inductive Property (A : Type) :=
| Own (a : A)
| Inherited
| Undefined.
Arguments Own {A} a.
Arguments Inherited {A}.
Arguments Undefined {A}.

Definition js_get {A} (obj : gmap string A) (key : string) : Property A :=
  match obj !! key with
  | Some a => Own a
  | None => if bool_decide (key ∈ Object_prototype) then Inherited else Undefined
  end.

(** *** Responses *)

Inductive Body :=
| JsonError (error : string) (detail : option string)
| JsonDownload (downloadUrl filename : string)
| JsonPreview (previewUrl : string)
| JsonHealth
| Text (message : string)
| Attachment (file : Path) (filename : string)   (* res.download *)
| SentFile (file : Path)                         (* res.sendFile *)
| PdfBytes (buf : Content)                       (* res.send(buf) *)
| ErrorPage (message : string).                  (* Express error handler *)

Record Response := { statusCode : nat; body : Body }.

(** What a request leaves behind: its response, the process as it is when
    the response is sent, the argument lists of the [spawn] calls made for
    it, and whether an exception that nothing catches then ends the
    process. *)
Record Outcome := {
  response : Response;
  after : State;
  spawned : list (list string);
  exits : bool
}.

Definition respond (code : nat) (b : Body) (st : State)
  (log : list (list string)) : Outcome :=
  {| response := {| statusCode := code; body := b |}; after := st;
     spawned := log; exits := false |}.

(** A response after which a listener of the same request answers once
    more: [res.status(500).json(...)] on a response that has been sent throws
    [ERR_HTTP_HEADERS_SENT], outside every [try], and Node ends the
    process. *)
Definition respond_and_exit (code : nat) (b : Body) (st : State)
  (log : list (list string)) : Outcome :=
  {| response := {| statusCode := code; body := b |}; after := st;
     spawned := log; exits := true |}.

(** *** The conversion tool *)

(** How one run of [soffice] ends for the server: it is still running when
    the server's timer goes off, it cannot be started (the [error] event), or
    it closes with an exit code ([null] when a signal ended it). *)
Inductive Ending :=
| Timeout
| SpawnError (message : string)
| Close (code : option Z).

(** One run of the tool: the files it has put into [--outdir] by the time
    the server looks, what it printed on standard error, how it ended. *)
Record ToolRun := {
  written : list (string * Content);
  stderr : string;
  ending : Ending
}.

Definition tool_writes (outdir : string) (files : list (string * Content))
  (fs : Disk) : Disk :=
  match fs !! outdir with
  | Some d => <[outdir := foldl (λ acc nc, <[nc.1 := nc.2]> acc) d files]> fs
  | None => fs
  end.

Definition soffice_args (format workdir : string) (inPath : Path) : list string :=
  [ "--headless"; "--invisible"; "--convert-to"; format; "--outdir"; workdir;
    path_string inPath ].

(** [convertWithSoffice] (lines 70-91): the promise is rejected with the
    error's message on timeout and on [error], and resolved with the exit
    code on [close], whatever the code. *)
Definition convertWithSoffice (run : ToolRun) : string + option Z :=
  match ending run with
  | Timeout => inl "Conversion timeout"
  | SpawnError message => inl message
  | Close code => inr code
  end.

(** [cleanup] (lines 255-266). *)
Definition cleanup (d : string) (fs : Disk) : Disk :=
  if existsSync_dir d fs then
    match readdirSync d fs with
    | Some names =>
        let fs1 := foldl (λ acc file, try_unlink (join d file) acc) fs names in
        default fs1 (rmdirSync d fs1)
    | None => fs
    end
  else fs.

(** *** Uploads *)

(** A file part of a multipart request as multer sees it, and as the handler
    finds it in [req.files]: [filename] is the random name multer stores it
    under in its [dest] directory.  Parts without a file name are no files to
    multer and are not listed. *)
Record UploadedFile := {
  fieldname : string;
  originalname : string;
  filename : string;
  data : Content
}.

Definition uploads : string := "ppt_uploads".

Definition upload_path (f : UploadedFile) : Path := join uploads (filename f).

(** [fileFilter] (lines 28-33): [None] for [cb(null, true)], the error's
    message for [cb(new Error(...), false)]. *)
Definition fileFilter (f : UploadedFile) : option string :=
  let ext := Js.toLowerCase (Js.extname (originalname f)) in
  if String.eqb ext ".ppt" || String.eqb ext ".pptx" then None
  else Some "Only .ppt and .pptx files allowed".

(** multer's pass over the file parts of a request for [upload.array('file',
    n)] and [upload.single('file')]: a part in another field or beyond the
    count, or one the filter refuses, aborts the request with an error. *)
Fixpoint multer (filesLeft : nat) (parts : list UploadedFile) {struct parts}
  : string + list UploadedFile :=
  match parts with
  | [] => inr []
  | f :: rest =>
      if negb (String.eqb (fieldname f) "file") then inl "Unexpected field"
      else match filesLeft with
           | O => inl "Unexpected field"
           | S n =>
               match fileFilter f with
               | Some message => inl message
               | None =>
                   match multer n rest with
                   | inl message => inl message
                   | inr files => inr (f :: files)
                   end
               end
           end
  end.

(** The accepted files on disk in multer's [dest]. *)
Definition store_uploads (files : list UploadedFile) (fs : Disk) : Disk :=
  foldl (λ acc f,
           <[uploads := <[filename f := data f]> (default ∅ (acc !! uploads))]> acc)
        fs files.

(** Express's default error handler, where multer's error ends up. *)
Definition express_error (message : string) (st : State) : Outcome :=
  respond 500 (ErrorPage message) st [].

(** The runs whose promise [convertWithSoffice] rejects. *)
Definition rejected (run : ToolRun) : bool :=
  match ending run with
  | Timeout | SpawnError _ => true
  | Close _ => false
  end.

(** *** [POST /convert] (lines 94-176) *)

(** Result of a stretch of code inside a [try]: it ran through, or it threw
    with the disk as it was then. *)
Inductive Try (A : Type) :=
| Done (a : A)
| Threw (fs : Disk).
Arguments Done {A} a.
Arguments Threw {A} fs.

Definition workdir_of (wid : Uuid) : string := "ppt2pdf_" +:+ uuid_str wid.

Definition filesDir : string := "ppt2pdf_files".

(** Lines 103-106: move the uploaded files into the scratch directory. *)
Fixpoint move_uploads (workdir : string) (files : list UploadedFile)
  (fs : Disk) : Try Disk :=
  match files with
  | [] => Done fs
  | f :: rest =>
      match renameSync (upload_path f) (join workdir (originalname f)) fs with
      | Some fs' => move_uploads workdir rest fs'
      | None => Threw fs
      end
  end.

(** Lines 109-117: one run of the tool per file, in order, stopping at the
    first rejected promise.  [tool i] is the run for the file at position
    [i].  Returns the disk, the [spawn] calls so far, and the name and error
    message of the file whose conversion was rejected, if any. *)
Fixpoint convert_loop (workdir : string) (files : list UploadedFile)
  (i : nat) (tool : nat → ToolRun) (fs : Disk) (log : list (list string))
  : Disk * list (list string) * option (string * string) :=
  match files with
  | [] => (fs, log, None)
  | f :: rest =>
      let inPath := join workdir (originalname f) in
      let log' := log ++ [soffice_args "pdf" workdir inPath] in
      let fs' := tool_writes workdir (written (tool i)) fs in
      match convertWithSoffice (tool i) with
      | inl message => (fs', log', Some (originalname f, message))
      | inr _ => convert_loop workdir rest (S i) tool fs' log'
      end
  end.

(** [fn => fn.toLowerCase().endsWith('.pdf')] (line 120). *)
Definition is_pdf (fn : string) : bool :=
  Js.endsWith (Js.toLowerCase fn) ".pdf".

(** The outer [catch] (lines 170-175). *)
Definition server_error (files : list UploadedFile) (workdir : string)
  (fs : Disk) (st : State) (log : list (list string)) : Outcome :=
  let fs1 := foldl (λ acc f, try_unlink (upload_path f) acc) fs files in
  respond 500 (JsonError "Server error." None)
          (set_disk (cleanup workdir fs1) st) log.

(** Lines 137-139 and 152-153: the registry entry and its expiry timer. *)
Definition register (id : string) (info : FileInfo) (st : State) : State :=
  setTimeout (ExpireGenerated (path info) id) TTL
    (set_generatedFiles (<[id := info]> (generatedFiles st)) st).

(** [fs.createWriteStream(p)] and what is piped into it: the file is there
    from the start and holds the archive once the stream closes.  Nothing is
    thrown where the stream is made. *)
Definition create_file (p : Path) (c : Content) (fs : Disk) : Disk :=
  default fs (writeFileSync p c fs).

(** The entries the archive gets from lines 164-167. *)
Definition zip_entries (workdir : string) (pdfFiles : list string)
  (fs : Disk) : list (string * Content) :=
  omap (λ pdf, (λ c, (pdf, c)) <$> readFileSync (join workdir pdf) fs) pdfFiles.

(** The scratch directory's PDFs once all conversions went through (line
    120), and the disk then; [None] when the request does not get there. *)
Definition produced_pdfs (files : list UploadedFile) (wid : Uuid)
  (tool : nat → ToolRun) (st : State) : option (list string * Disk) :=
  let workdir := workdir_of wid in
  match files with
  | [] => None
  | _ =>
    match move_uploads workdir files (mkdirSync workdir (disk st)) with
    | Threw _ => None
    | Done fs1 =>
        match convert_loop workdir files 0 tool fs1 [] with
        | (fs2, _, None) =>
            (λ names, (filter (λ fn, is_pdf fn = true) names, fs2))
              <$> readdirSync workdir fs2
        | (_, _, Some _) => None
        end
    end
  end.

(** The handler.  [wid] and [id] are the two results of [uuidv4()] (lines 98
    and 129), [tool] the runs of the conversion tool, [zipError] the message
    of the archiver's [error] event if it has one, instead of the output
    stream's [close].  The handler's [await]s are taken in one step: the
    scratch directory is its own, and the registry is written once at the
    end. *)
Definition convert_handler (files : list UploadedFile) (wid id : Uuid)
  (tool : nat → ToolRun) (zipError : option string) (st : State) : Outcome :=
  match files with
  | [] => respond 400 (JsonError "No files uploaded." None) st []
  | _ =>
    let workdir := workdir_of wid in
    match move_uploads workdir files (mkdirSync workdir (disk st)) with
    | Threw fs => server_error files workdir fs st []
    | Done fs1 =>
      match convert_loop workdir files 0 tool fs1 [] with
      | (fs2, log, Some (nm, message)) =>
          respond 500
            (JsonError ("Conversion failed for: " +:+ nm +:+ ". " +:+ message) None)
            (set_disk (cleanup workdir fs2) st) log
      | (fs2, log, None) =>
        match readdirSync workdir fs2 with
        | None => server_error files workdir fs2 st log
        | Some names =>
          match filter (λ fn, is_pdf fn = true) names with
          | [] =>
              respond 500 (JsonError "Conversion failed: no PDF produced." None)
                      (set_disk (cleanup workdir fs2) st) log
          | [pdf] =>
              let fs3 := mkdirSync filesDir fs2 in
              let pdfPath := join workdir pdf in
              let destName := uuid_str id +:+ Js.extname (path_string pdfPath) in
              let destPath := join filesDir destName in
              match copyFileSync pdfPath destPath fs3 with
              | None => server_error files workdir fs3 st log
              | Some fs4 =>
                  let st1 := register (uuid_str id)
                               {| path := destPath; downloadName := pdf |}
                               (set_disk fs4 st) in
                  respond 200
                    (JsonDownload ("/download/" +:+ uuid_str id) pdf)
                    (set_disk (cleanup workdir (disk st1)) st1) log
              end
          | pdfFiles =>
              let fs3 := mkdirSync filesDir fs2 in
              let zipPath := join filesDir (uuid_str id +:+ ".zip") in
              let fs4 := create_file zipPath (ZipArchive []) fs3 in
              match zipError with
              | Some message =>
                  respond 500 (JsonError ("Failed creating ZIP: " +:+ message) None)
                          (set_disk (cleanup workdir fs4) st) log
              | None =>
                  let archive := ZipArchive (zip_entries workdir pdfFiles fs4) in
                  let fs5 := create_file zipPath archive fs4 in
                  let st1 := register (uuid_str id)
                               {| path := zipPath;
                                  downloadName := "converted-pdfs.zip" |}
                               (set_disk fs5 st) in
                  respond 200
                    (JsonDownload ("/download/" +:+ uuid_str id)
                                  "converted-pdfs.zip")
                    (set_disk (cleanup workdir (disk st1)) st1) log
              end
          end
        end
      end
    end
  end.

(** The route: [upload.array('file', 50)], then the handler on the stored
    files. *)
Definition post_convert (parts : list UploadedFile) (wid id : Uuid)
  (tool : nat → ToolRun) (zipError : option string) (st : State) : Outcome :=
  match multer 50 parts with
  | inl message => express_error message st
  | inr files =>
      convert_handler files wid id tool zipError
                      (set_disk (store_uploads files (disk st)) st)
  end.

(** *** [POST /preview-pdf] (lines 179-239) and [POST /preview] (445-506) *)

(** [f => /\.png$/i.test(f)] (line 473); [/\.pdf$/i] of line 213 is
    [is_pdf]. *)
Definition is_png (fn : string) : bool :=
  Js.endsWith (Js.toLowerCase fn) ".png".

(** The [catch] at the end of both preview handlers. *)
Definition preview_server_error (f : UploadedFile) (workdir : string)
  (fs : Disk) (st : State) (log : list (list string)) : Outcome :=
  respond 500 (JsonError "Server error." None)
          (set_disk (cleanup workdir (try_unlink (upload_path f) fs)) st) log.

(** [POST /preview-pdf].  The handler's own timer kills the tool after
    120000 ms and rejects nothing: a run that ends in [Timeout] reaches the
    [close] listener like any other.  So does a run that could not be
    started, after its [error] listener (lines 199-204) has removed the
    scratch directory and answered: [close] follows [error], [readdirSync]
    throws on the directory that is gone, and the [catch] of the [close]
    listener (lines 227-231) answers a second time, which ends the
    process. *)
Definition preview_pdf_handler (file : option UploadedFile) (wid : Uuid)
  (run : ToolRun) (st : State) : Outcome :=
  match file with
  | None => respond 400 (JsonError "No file uploaded." None) st []
  | Some f =>
    let workdir := "ppt_preview_pdf_" +:+ uuid_str wid in
    let fs0 := mkdirSync workdir (disk st) in
    let inPath := join workdir (originalname f) in
    match renameSync (upload_path f) inPath fs0 with
    | None => preview_server_error f workdir fs0 st []
    | Some fs1 =>
      let log := [soffice_args "pdf" workdir inPath] in
      let fs2 := tool_writes workdir (written run) fs1 in
      match ending run with
      | SpawnError message =>
          respond_and_exit 500
            (JsonError "Failed to start LibreOffice (soffice)." (Some message))
            (set_disk (cleanup workdir fs2) st) log
      | Timeout | Close _ =>
        let failed :=
          respond 500
            (JsonError "Server error during preview-pdf generation." None)
            (set_disk (cleanup workdir fs2) st) log in
        match readdirSync workdir fs2 with
        | None => failed
        | Some names =>
          match filter (λ fn, is_pdf fn = true) names with
          | [] =>
              respond 500
                (JsonError "Preview PDF generation failed: no PDF produced."
                           (Some (stderr run)))
                (set_disk (cleanup workdir fs2) st) log
          | pdf :: _ =>
              match readFileSync (join workdir pdf) fs2 with
              | None => failed
              | Some buf =>
                  respond 200 (PdfBytes buf)
                          (set_disk (cleanup workdir fs2) st) log
              end
          end
        end
      end
    end
  end.

Definition previewDir : string := "ppt2pdf_preview_files".

(** [images.sort()] (line 479): ascending by UTF-16 code units. *)
Definition js_sort (l : list string) : list string :=
  merge_sort (λ a b, Is_true (Js.code_unit_leb a b)) l.

(** [POST /preview] (earlier revision): first slide as PNG, kept in
    [previewFiles] under the fresh [id].  A run that could not be started
    ends the process as in [POST /preview-pdf] (lines 464-468 and
    496-499). *)
Definition preview_handler (file : option UploadedFile) (wid id : Uuid)
  (run : ToolRun) (st : State) : Outcome :=
  match file with
  | None => respond 400 (JsonError "No file uploaded." None) st []
  | Some f =>
    let workdir := "ppt_preview_" +:+ uuid_str wid in
    let fs0 := mkdirSync workdir (disk st) in
    let inPath := join workdir (originalname f) in
    match renameSync (upload_path f) inPath fs0 with
    | None => preview_server_error f workdir fs0 st []
    | Some fs1 =>
      let log := [soffice_args "png" workdir inPath] in
      let fs2 := tool_writes workdir (written run) fs1 in
      match ending run with
      | SpawnError message =>
          respond_and_exit 500
            (JsonError "Failed to start LibreOffice (soffice)." (Some message))
            (set_disk (cleanup workdir fs2) st) log
      | Timeout | Close _ =>
        match readdirSync workdir fs2 with
        | None =>
            respond 500 (JsonError "Server error during preview generation." None)
                    (set_disk (cleanup workdir fs2) st) log
        | Some names =>
          match js_sort (filter (λ fn, is_png fn = true) names) with
          | [] =>
              respond 500
                (JsonError "Preview generation failed: no image produced."
                           (Some (stderr run)))
                (set_disk (cleanup workdir fs2) st) log
          | image :: _ =>
              let imgPath := join workdir image in
              let fs3 := mkdirSync previewDir fs2 in
              let destName := uuid_str id +:+ Js.extname (path_string imgPath) in
              let destPath := join previewDir destName in
              match copyFileSync imgPath destPath fs3 with
              | None =>
                  respond 500
                    (JsonError "Server error during preview generation." None)
                    (set_disk (cleanup workdir fs3) st) log
              | Some fs4 =>
                  let st1 :=
                    setTimeout (ExpirePreview destPath (uuid_str id)) TTL
                      (set_previewFiles
                         (<[uuid_str id := destPath]> (previewFiles st))
                         (set_disk fs4 st)) in
                  respond 200 (JsonPreview ("/preview/" +:+ uuid_str id))
                          (set_disk (cleanup workdir (disk st1)) st1) log
              end
          end
        end
      end
    end
  end.

(** The two routes behind [upload.single('file')]. *)
Definition post_preview_pdf (parts : list UploadedFile) (wid : Uuid)
  (run : ToolRun) (st : State) : Outcome :=
  match multer 1 parts with
  | inl message => express_error message st
  | inr files =>
      preview_pdf_handler (head files) wid run
                          (set_disk (store_uploads files (disk st)) st)
  end.

Definition post_preview (parts : list UploadedFile) (wid id : Uuid)
  (run : ToolRun) (st : State) : Outcome :=
  match multer 1 parts with
  | inl message => express_error message st
  | inr files =>
      preview_handler (head files) wid id run
                      (set_disk (store_uploads files (disk st)) st)
  end.

(** *** Retrieval *)

Definition not_found (message : string) : Response :=
  {| statusCode := 404; body := Text message |}.

(** [GET /health] (line 241). *)
Definition get_health : Response := {| statusCode := 200; body := JsonHealth |}.

(** [GET /preview/:id] (lines 509-514), a route of the second revision. *)
Definition get_preview (id : string) (st : State) : Response :=
  match js_get (previewFiles st) id with
  | Own p =>
      if existsSync p (disk st)
      then {| statusCode := 200; body := SentFile p |}
      else not_found "Preview not found or expired."
  | Inherited | Undefined => not_found "Preview not found or expired."
  end.

(** [GET /download/:id] (lines 242-251) up to the call of [res.download]:
    the response, and the transfer now under way with the [info] and [id]
    its callback has captured. *)
Definition get_download (id : string) (st : State) : Response * State :=
  match js_get (generatedFiles st) id with
  | Own info =>
      if existsSync (path info) (disk st)
      then
        let name :=
          if String.eqb (downloadName info) "" then base (path info)
          else downloadName info in
        ({| statusCode := 200; body := Attachment (path info) name |},
         set_transfers (transfers st ++ [(id, info)]) st)
      else (not_found "File not found or expired.", st)
  | Inherited | Undefined => (not_found "File not found or expired.", st)
  end.

(** The callback given to [res.download] (lines 247-250), run when the
    transfer is over. *)
Definition download_callback (id : string) (info : FileInfo) (st : State) : State :=
  set_generatedFiles (delete id (generatedFiles st))
    (set_disk (try_unlink (path info) (disk st)) st).

(** The transfer at position [k] of the pending ones completes. *)
Definition download_done (k : nat) (st : State) : State :=
  match transfers st !! k with
  | Some (id, info) =>
      download_callback id info (set_transfers (delete k (transfers st)) st)
  | None => st
  end.

(** A whole download: the request and, with nothing in between, the end of
    its transfer. *)
Definition download (id : string) (st : State) : Response * State :=
  let '(r, st1) := get_download id st in
  match statusCode r with
  | 200 => (r, download_done (length (transfers st)) st1)
  | _ => (r, st1)
  end.

(** *** The process as a transition system *)

Inductive Event :=
| PostConvert (parts : list UploadedFile) (wid id : Uuid)
              (tool : nat → ToolRun) (zipError : option string)
| PostPreviewPdf (parts : list UploadedFile) (wid : Uuid) (run : ToolRun)
| PostPreview (parts : list UploadedFile) (wid id : Uuid) (run : ToolRun)
| GetPreview (id : string)
| GetDownload (id : string)
| DownloadDone (k : nat)
| Elapse (ms : N).

(** The process after an event: running, in the state the event has left,
    or ended by an uncaught exception, with the state it had then.  A
    process that has ended fires no timer and takes no request. *)
Inductive Process :=
| Running (st : State)
| Exited (st : State).

Definition state_of (p : Process) : State :=
  match p with
  | Running st | Exited st => st
  end.

Definition proceed (o : Outcome) : Process :=
  if exits o then Exited (after o) else Running (after o).

Definition step (st : State) (e : Event) : Process :=
  match e with
  | PostConvert parts wid id tool zipError =>
      proceed (post_convert parts wid id tool zipError st)
  | PostPreviewPdf parts wid run => proceed (post_preview_pdf parts wid run st)
  | PostPreview parts wid id run => proceed (post_preview parts wid id run st)
  | GetPreview _ => Running st
  | GetDownload id => Running (get_download id st).2
  | DownloadDone k => Running (download_done k st)
  | Elapse ms => Running (elapse ms st)
  end.

(** The state of the process when the events are over, or when one of them
    ended it: the rest of the events then finds no process. *)
Fixpoint exec (st : State) (events : list Event) : State :=
  match events with
  | [] => st
  | e :: rest =>
      match step st e with
      | Running st' => exec st' rest
      | Exited st' => st'
      end
  end.

(** The process is still running when the events are over. *)
Fixpoint alive (st : State) (events : list Event) : bool :=
  match events with
  | [] => true
  | e :: rest =>
      match step st e with
      | Running st' => alive st' rest
      | Exited _ => false
      end
  end.

(** A preview request whose tool cannot be started. *)
Definition unstarted (e : Event) : bool :=
  match e with
  | PostPreviewPdf _ _ run | PostPreview _ _ _ run =>
      match ending run with
      | SpawnError _ => true
      | _ => false
      end
  | _ => false
  end.

(** The identifier an event registers an artifact under, if it does. *)
Definition artifact_id (e : Event) : option string :=
  match e with
  | PostConvert _ _ id _ _ => Some (uuid_str id)
  | _ => None
  end.

(** A process that has just started. *)
Definition boot : State :=
  {| generatedFiles := ∅; previewFiles := ∅; disk := {[ uploads := ∅ ]};
     timers := []; clock := 0; transfers := [] |}.

(** *** Words for the statements *)

(** A run with its exit code replaced by 0, where it has one. *)
Definition exit_zero (run : ToolRun) : ToolRun :=
  {| written := written run; stderr := stderr run;
     ending := match ending run with
               | Close _ => Close (Some 0%Z)
               | e => e
               end |}.

(** The bodies that report an error to the client. *)
Definition is_error (b : Body) : bool :=
  match b with
  | JsonError _ _ | ErrorPage _ | Text _ => true
  | _ => false
  end.

(** The file name's extension is one the upload filter lets through. *)
Definition allowed_extension (f : UploadedFile) : bool :=
  let ext := Js.toLowerCase (Js.extname (originalname f)) in
  String.eqb ext ".ppt" || String.eqb ext ".pptx".

(** The request was turned away before its handler ran: an error response,
    no [spawn], and the process as it was. *)
Definition refused (st : State) (o : Outcome) : Prop :=
  statusCode (response o) = 500
  ∧ (∃ message, body (response o) = ErrorPage message)
  ∧ spawned o = [] ∧ after o = st.

(** *** Sample requests *)

Definition uuid_a : Uuid :=
  {| uuid_str := "00000000-0000-4000-8000-00000000000a"; uuid_ok := eq_refl |}.

Definition uuid_b : Uuid :=
  {| uuid_str := "00000000-0000-4000-8000-00000000000b"; uuid_ok := eq_refl |}.

Definition uuid_c : Uuid :=
  {| uuid_str := "00000000-0000-4000-8000-00000000000c"; uuid_ok := eq_refl |}.

Definition uuid_d : Uuid :=
  {| uuid_str := "00000000-0000-4000-8000-00000000000d"; uuid_ok := eq_refl |}.

Definition slides : UploadedFile :=
  {| fieldname := "file"; originalname := "slides.pptx";
     filename := "3f9a"; data := Blob 1 |}.

Definition talk : UploadedFile :=
  {| fieldname := "file"; originalname := "talk.ppt";
     filename := "77c0"; data := Blob 2 |}.

Definition report : UploadedFile :=
  {| fieldname := "file"; originalname := "report.docx";
     filename := "b1e4"; data := Blob 3 |}.

(** The tool converts every file it is given. *)
Definition tool_ok (i : nat) : ToolRun :=
  match i with
  | O => {| written := [("slides.pdf", Blob 11)]; stderr := "";
            ending := Close (Some 0%Z) |}
  | _ => {| written := [("talk.pdf", Blob 12)]; stderr := "";
            ending := Close (Some 0%Z) |}
  end.

(** The tool converts the first file and gives up on the second with exit
    code 1, writing nothing. *)
Definition tool_second_exits_1 (i : nat) : ToolRun :=
  match i with
  | O => {| written := [("slides.pdf", Blob 11)]; stderr := "";
            ending := Close (Some 0%Z) |}
  | _ => {| written := []; stderr := "Error: source file could not be loaded";
            ending := Close (Some 1%Z) |}
  end.

(** The tool hangs on the first file. *)
Definition tool_hangs (i : nat) : ToolRun :=
  {| written := []; stderr := ""; ending := Timeout |}.

(** One run that renders the first slide as an image. *)
Definition run_png : ToolRun :=
  {| written := [("slides.png", Blob 21)]; stderr := "";
     ending := Close (Some 0%Z) |}.

(** One run that cannot be started: the system is out of processes. *)
Definition run_unstarted : ToolRun :=
  {| written := []; stderr := ""; ending := SpawnError "spawn soffice EAGAIN" |}.

(** *** Sample processes *)

(** One presentation converted; its PDF is registered under [uuid_b]. *)
Definition converted : State :=
  after (post_convert [slides] uuid_a uuid_b tool_ok None boot).

Definition converted_pdf : Path :=
  join filesDir "00000000-0000-4000-8000-00000000000b.pdf".

Definition converted_info : FileInfo :=
  {| path := converted_pdf; downloadName := "slides.pdf" |}.

(** The same, after something else has removed the file from the temporary
    directory. *)
Definition swept : State :=
  set_disk (try_unlink converted_pdf (disk converted)) converted.

(** One preview rendered; its image is registered under [uuid_d]. *)
Definition previewed : State :=
  after (post_preview [slides] uuid_c uuid_d run_png boot).

(** *** Words for further statements *)

(** The arguments of the run that [POST /convert] starts for a file. *)
Definition convert_args (wid : Uuid) (f : UploadedFile) : list string :=
  soffice_args "pdf" (workdir_of wid) (join (workdir_of wid) (originalname f)).

(** Each entry of the two registries has its expiry timer pending, due after
    now and within the expiry window. *)
Definition expiring (st : State) : Prop :=
  (∀ id info, generatedFiles st !! id = Some info →
     ∃ d, (clock st < d ≤ clock st + TTL)%Z
          ∧ {| due := d; callback := ExpireGenerated (path info) id |} ∈ timers st)
  ∧ (∀ id p, previewFiles st !! id = Some p →
       ∃ d, (clock st < d ≤ clock st + TTL)%Z
            ∧ {| due := d; callback := ExpirePreview p id |} ∈ timers st).

(** The scratch directory of a preview request ([prefix] is [ppt_preview_]
    or [ppt_preview_pdf_]) and the disk once the tool has run; [None] when the
    upload could not be moved. *)
Definition preview_scratch (prefix : string) (f : UploadedFile) (wid : Uuid)
  (run : ToolRun) (st : State) : option Disk :=
  let workdir := prefix +:+ uuid_str wid in
  tool_writes workdir (written run)
    <$> renameSync (upload_path f) (join workdir (originalname f))
                   (mkdirSync workdir (disk st)).

(** The identifier an event registers a preview under, if it does. *)
Definition preview_id (e : Event) : option string :=
  match e with
  | PostPreview _ _ id _ => Some (uuid_str id)
  | _ => None
  end.

(** *** The conversion binary (lines 43-66) *)

(** [SOFFICE_CANDIDATES]: the value of [SOFFICE_PATH], unless it is not set
    or empty ([filter(Boolean)]), then the fixed places, then the bare
    command. *)
Definition SOFFICE_CANDIDATES (env : option string) : list string :=
  (match env with
   | Some p => if String.eqb p "" then [] else [p]
   | None => []
   end)
  ++ [ "C:\Program Files\LibreOffice\program\soffice.exe";
       "C:\Program Files (x86)\LibreOffice\program\soffice.exe";
       "/usr/bin/soffice";
       "/usr/bin/libreoffice";
       "/Applications/LibreOffice.app/Contents/MacOS/soffice";
       "soffice" ].

(** The loop of [findSoffice]; [present] is [fs.existsSync] on the machine's
    file system. *)
Fixpoint findSoffice_loop (present : string → bool) (candidates : list string)
  : option string :=
  match candidates with
  | [] => None
  | p :: rest =>
      if String.eqb p "soffice" then Some "soffice"
      else if present p then Some p
      else findSoffice_loop present rest
  end.

Definition findSoffice (env : option string) (present : string → bool) : string :=
  default "soffice" (findSoffice_loop present (SOFFICE_CANDIDATES env)).

(** *** What stays on disk *)

(** The file a timer's closure unlinks. *)
Definition unlinks (cb : TimerCallback) : Path :=
  match cb with
  | ExpireGenerated destPath _ | ExpirePreview destPath _ => destPath
  end.

(** A pending timer unlinks [p], later than now and within the expiry
    window. *)
Definition doomed (p : Path) (st : State) : Prop :=
  ∃ tm, tm ∈ timers st ∧ unlinks (callback tm) = p
        ∧ (clock st < due tm ≤ clock st + TTL)%Z.

(** Every file on disk is an artifact or a preview image that a pending
    timer unlinks. *)
Definition transient (st : State) : Prop :=
  ∀ p, existsSync p (disk st) = true →
       (dir p = filesDir ∨ dir p = previewDir) ∧ doomed p st.

(** The archiver's error in a conversion request, if it has one. *)
Definition zip_error (e : Event) : option string :=
  match e with
  | PostConvert _ _ _ _ zipError => zipError
  | _ => None
  end.

(** *** Words for availability *)

(** [p] is a file of the artifact directory named after [id], an identifier
    as long as a uuid. *)
Definition artifact_path (id : string) (p : Path) : Prop :=
  String.length id = 36 ∧ ∃ ext, p = join filesDir (id +:+ ext).

(** The same for a preview image and the preview directory. *)
Definition preview_path (id : string) (p : Path) : Prop :=
  String.length id = 36 ∧ ∃ ext, p = join previewDir (id +:+ ext).

(** The registry, the timers and the transfers speak of artifacts under
    their own identifiers, and the preview timers of preview images under
    theirs. *)
Definition shaped (st : State) : Prop :=
  (∀ id info, generatedFiles st !! id = Some info → artifact_path id (path info))
  ∧ (∀ tm, tm ∈ timers st →
       match callback tm with
       | ExpireGenerated p id => artifact_path id p
       | ExpirePreview p id => preview_path id p
       end)
  ∧ (∀ id info, (id, info) ∈ transfers st → artifact_path id (path info)).

(** The preview image [p] is registered under [id] with its file on disk,
    and no timer of [id] is due before [T]. *)
Definition shown_preview (id : string) (p : Path) (T : Z) (st : State) : Prop :=
  previewFiles st !! id = Some p
  ∧ existsSync p (disk st) = true
  ∧ (∀ tm q, tm ∈ timers st → callback tm = ExpirePreview q id → (T ≤ due tm)%Z).

(** Nothing in the process goes by the identifier [id]. *)
Definition unused (id : string) (st : State) : Prop :=
  generatedFiles st !! id = None
  ∧ (∀ tm p, tm ∈ timers st → callback tm ≠ ExpireGenerated p id)
  ∧ (∀ info, (id, info) ∉ transfers st).

(** The artifact [info] is registered under [id] with its file on disk, no
    timer of [id] is due before [T], and no transfer of it is under way. *)
Definition held (id : string) (info : FileInfo) (T : Z) (st : State) : Prop :=
  generatedFiles st !! id = Some info
  ∧ existsSync (path info) (disk st) = true
  ∧ (∀ tm p, tm ∈ timers st → callback tm = ExpireGenerated p id → (T ≤ due tm)%Z)
  ∧ (∀ info', (id, info') ∉ transfers st).

(** The identifier an event asks to download, if it does. *)
Definition download_id (e : Event) : option string :=
  match e with
  | GetDownload id => Some id
  | _ => None
  end.

End Server.

(** ** The page and the server together *)
Module Session.
Import Fs Server.

(** [xhr.status] and [xhr.responseText] as the page gets them for a response
    of the server: [res.json(obj)] arrives as the JSON text of the object,
    with the fields the page reads; everything else is text that
    [JSON.parse] refuses, Express's error page an HTML document. *)
Definition received (r : Response) : nat * Client.ResponseText :=
  (statusCode r,
   match body r with
   | JsonError error _ => Client.JsonText error "" ""
   | JsonDownload downloadUrl filename => Client.JsonText "" downloadUrl filename
   | JsonPreview _ | JsonHealth => Client.JsonText "" "" ""
   | Text message => Client.OtherText message
   | ErrorPage message => Client.OtherText ("<!DOCTYPE html>" +:+ message)
   | Attachment _ _ | SentFile _ | PdfBytes _ => Client.OtherText "%PDF"
   end).

(** The page once [xhr.onload] has run on the server's response. *)
Definition shown (r : Response) (page : Client.State)
  : Client.State * Client.Controls * option Client.Link :=
  Client.onload (received r).1 (received r).2 page.

End Session.

(** * Properties *)

(** ** Library functions on concrete inputs *)
Module JsFacts.
Import Js.

Example extname_plain : extname "deck.pptx" = ".pptx".
Proof. reflexivity. Qed.

Example extname_two_dots : extname "q3.final.PPT" = ".PPT".
Proof. reflexivity. Qed.

Example extname_dotfile : extname ".ppt" = "".
Proof. reflexivity. Qed.

Example extname_none : extname "slides" = "".
Proof. reflexivity. Qed.

Example extname_trailing_dot : extname "slides." = ".".
Proof. reflexivity. Qed.

Example extname_dotdot : extname ".." = "".
Proof. reflexivity. Qed.

Example extname_segment : extname "a.b/c" = "".
Proof. reflexivity. Qed.

Example split_pop_dotfile : toLowerCase (pop (split "." ".PPT")) = "ppt".
Proof. reflexivity. Qed.

Example endsWith_pdf : endsWith (toLowerCase "Deck.PDF") ".pdf" = true.
Proof. reflexivity. Qed.

(** *** [path.extname] on a file name *)

Lemma app_string_assoc (a b c : string) : (a +:+ b) +:+ c = a +:+ (b +:+ c).
Proof.
  induction a as [|x a IH]; [done|].
  change (String x ((a +:+ b) +:+ c) = String x (a +:+ (b +:+ c))). by rewrite IH.
Qed.

Lemma length_app_snoc (pre : string) (c : ascii) :
  String.length (pre +:+ String c "") = S (String.length pre).
Proof.
  induction pre as [|x pre IH]; [done|].
  change (S (String.length (pre +:+ String c "")) = S (S (String.length pre))).
  by rewrite IH.
Qed.

Lemma get_app_length (pre : string) (c : ascii) (suf : string) :
  String.get (String.length pre) (pre +:+ String c suf) = Some c.
Proof. induction pre as [|x pre IH]; [done|exact IH]. Qed.

Lemma substring_all (x : string) : substring 0 (String.length x) x = x.
Proof. induction x as [|c x IH]; simpl; [done|]. by rewrite IH. Qed.

Lemma substring_app_length (a x : string) :
  substring (String.length a) (String.length x) (a +:+ x) = x.
Proof. induction a as [|c a IH]; [apply substring_all|exact IH]. Qed.

Local Ltac scan_fields := simpl.

Lemma ext_step_scanned (pre : string) (c : ascii) (suf : string) (s : ExtScan) :
  Ascii.eqb c "/" = false →
  scanned (S (String.length pre)) suf s →
  scanned (String.length pre) (String c suf)
          (ext_step (pre +:+ String c suf) s (String.length pre)).
Proof.
  intros Hc (Hstop & Hpart & Hs). unfold scanned, ext_step.
  rewrite Hstop, get_app_length, Hc.
  destruct suf as [|c' suf'].
  - subst s. simpl.
    destruct (Ascii.eqb c ".") eqn:Hdot; scan_fields.
    + split; [done|]. split; [done|]. split; [lia|].
      right. exists "", "". apply Ascii.eqb_eq in Hdot as ->.
      split; [done|]. split; [done|]. scan_fields. split; [lia|done].
    + split; [done|]. split; [done|]. split; [lia|].
      left. by rewrite ?Hdot.
  - destruct Hs as [Hend Hs]. cbn [String.length] in Hend.
    assert ((end_ s =? -1)%Z = false) as -> by (apply Z.eqb_neq; lia).
    destruct Hs as [(Hfree & Hstart & Hpre)|(a & b & Hsuf & Hfree & Hstart & Hpre)].
    + rewrite Hstart. cbn [Z.eqb negb].
      destruct (Ascii.eqb c ".") eqn:Hdot; scan_fields.
      * split; [done|]. split; [done|]. split; [lia|].
        right. exists "", (String c' suf'). apply Ascii.eqb_eq in Hdot as ->.
        split; [done|]. split; [done|]. scan_fields. split; [lia|done].
      * split; [done|]. split; [done|]. split; [lia|].
        left. split; [|done]. by rewrite ?Hdot.
    + assert ((startDot s =? -1)%Z = false) as -> by (apply Z.eqb_neq; lia).
      cbn [negb].
      destruct (Ascii.eqb c ".") eqn:Hdot.
      * assert (∃ s', (if negb (preDotState s =? 1)%Z
                       then {| startDot := startDot s; startPart := startPart s;
                               end_ := end_ s; matchedSlash := matchedSlash s;
                               preDotState := 1; stopped := false |}
                       else s) = s'
                      ∧ stopped s' = false ∧ startPart s' = 0%Z
                      ∧ end_ s' = end_ s ∧ startDot s' = startDot s
                      ∧ preDotState s' = 1%Z) as (s' & -> & H1 & H2 & H3 & H4 & H5).
        { destruct (preDotState s =? 1)%Z eqn:H1; cbn [negb].
          - exists s. apply Z.eqb_eq in H1. done.
          - eexists. split; [reflexivity|]. done. }
        split; [done|]. split; [done|]. scan_fields.
        split; [lia|].
        right. exists (String c a), b. rewrite Hsuf.
        split; [done|]. split; [done|]. scan_fields.
        split; [lia|]. by rewrite ?H5, ?Hdot.
      * scan_fields.
        split; [done|]. split; [done|]. split; [lia|].
        right. exists (String c a), b. rewrite Hsuf.
        split; [done|]. split; [done|]. scan_fields.
        split; [lia|]. by rewrite ?Hdot.
Qed.

Lemma scan_scanned (suf : string) : ∀ pre,
  includes "/" suf = false →
  scanned (String.length pre) suf
    (fold_left (ext_step (pre +:+ suf))
               (rev (seq (String.length pre) (String.length suf))) ext_init).
Proof.
  induction suf as [|c suf IH]; intros pre Hslash; [done|].
  cbn [includes] in Hslash. apply orb_false_iff in Hslash as [Hc Hslash].
  cbn [String.length seq rev]. rewrite fold_left_app. cbn [fold_left].
  apply ext_step_scanned; [done|].
  specialize (IH (pre +:+ String c "") Hslash).
  by rewrite app_string_assoc, length_app_snoc in IH.
Qed.

(** On a name without a slash [path.extname] is the text from the last dot
    on, unless that dot is the first character or the name is [..]; without
    a dot it is empty. *)
Lemma extname_file_name (nm : string) :
  includes "/" nm = false →
  (includes "." nm = false ∧ extname nm = "")
  ∨ ∃ a b, nm = a +:+ String "." b ∧ includes "." b = false
           ∧ ((a = "" ∨ nm = "..") ∧ extname nm = ""
              ∨ (a ≠ "" ∧ nm ≠ ".." ∧ extname nm = String "." b)).
Proof.
  intros Hslash. pose proof (scan_scanned nm "" Hslash) as (Hstop & Hpart & Hs).
  change ("" +:+ nm) with nm in *. change (String.length "") with 0 in *.
  unfold extname.
  set (s := fold_left (ext_step nm) (rev (seq 0 (String.length nm))) ext_init) in *.
  clearbody s. destruct nm as [|c nm']; [left; by subst s|].
  destruct Hs as [Hend [(Hfree & Hstart & Hpre)|(a & b & Hnm & Hfree & Hstart & Hpre)]].
  { left. split; [done|]. by rewrite Hstart. }
  right. exists a, b. split; [done|]. split; [done|].
  remember (String c nm') as nm eqn:Hcons. clear c nm' Hcons.
  assert (String.length nm = String.length a + S (String.length b)) as Hlen.
  { rewrite Hnm. clear. induction a as [|x a IH]; [done|].
    change (S (String.length (a +:+ String "." b))
            = S (String.length a + S (String.length b))). by rewrite IH. }
  assert ((startDot s =? -1)%Z = false) as -> by (apply Z.eqb_neq; lia).
  assert ((end_ s =? -1)%Z = false) as -> by (apply Z.eqb_neq; lia).
  cbn [orb].
  destruct a as [|x a'].
  { left. split; [by left|]. rewrite Hpre. done. }
  assert ((preDotState s =? 0)%Z = false) as ->.
  { rewrite Hpre. simpl. by destruct (Ascii.eqb x "."). }
  cbn [orb].
  destruct ((preDotState s =? 1)%Z && (startDot s =? end_ s - 1)%Z
            && (startDot s =? startPart s + 1)%Z) eqn:Hdots.
  - left. split; [|done]. right.
    apply andb_true_iff in Hdots as [[H1 H2]%andb_true_iff H3].
    apply Z.eqb_eq in H1, H2, H3. rewrite Hpre in H1. simpl in H1.
    destruct (Ascii.eqb x ".") eqn:Hx; [|done]. apply Ascii.eqb_eq in Hx as ->.
    rewrite Hstart, Hend, Hpart in *. simpl in H2, H3, Hlen.
    destruct a' as [|y a'']; [|simpl in H3; lia].
    destruct b as [|y b']; [|simpl in H2, Hlen; lia].
    exact Hnm.
  - right. split; [done|]. split.
    + intros ->.
      destruct a' as [|y a'']; [|destruct a''; done].
      change (String x "" +:+ String "." b) with (String x (String "." b)) in Hnm.
      injection Hnm as <- <-.
      rewrite Hpre, Hstart, Hend, Hpart in Hdots. by vm_compute in Hdots.
    + rewrite Hstart, Hend, Hlen, Nat2Z.id.
      replace (Z.to_nat (Z.of_nat (0 + (String.length (String x a') + S (String.length b)))
                         - Z.of_nat (0 + String.length (String x a'))))
        with (String.length (String "." b)) by (simpl; lia).
      rewrite Hnm. apply substring_app_length.
Qed.

(** *** [split('.').pop()] on a file name *)

Lemma split_no_dot (b : string) : includes "." b = false → split "." b = [b].
Proof.
  induction b as [|c b IH]; [done|]. cbn [includes split].
  intros [Hc Hb]%orb_false_iff. rewrite Hc, (IH Hb). done.
Qed.

Lemma split_last_dot (a b : string) :
  includes "." b = false →
  ∃ front, front ≠ [] ∧ split "." (a +:+ String "." b) = front ++ [b].
Proof.
  intros Hb. induction a as [|c a (front & Hfront & IH)].
  - exists [""]. split; [done|].
    change (split "." (String "." b) = [""; b]). cbn [split].
    by rewrite (split_no_dot b Hb).
  - change (String c a +:+ String "." b) with (String c (a +:+ String "." b)).
    cbn [split]. rewrite IH. destruct (Ascii.eqb c ".").
    + exists ("" :: front). done.
    + destruct front as [|seg segs]; [done|]. exists (String c seg :: segs). done.
Qed.

Lemma pop_split_last_dot (a b : string) :
  includes "." b = false → pop (split "." (a +:+ String "." b)) = b.
Proof.
  intros Hb. destruct (split_last_dot a b Hb) as (front & _ & ->).
  unfold pop. apply last_last.
Qed.

Lemma lower_ascii_dot (c : ascii) :
  Ascii.eqb (lower_ascii c) "." = Ascii.eqb c ".".
Proof. destruct c as [[] [] [] [] [] [] [] []]; reflexivity. Qed.

Lemma includes_dot_toLowerCase (s : string) :
  includes "." (toLowerCase s) = includes "." s.
Proof.
  induction s as [|c s IH]; [done|]. cbn [toLowerCase includes].
  by rewrite lower_ascii_dot, IH.
Qed.

End JsFacts.

(** ** The client file list *)
Module ClientFacts.
Import Client.

Lemma same3_true f e : same3 f e = true ↔ key3 e = key3 f.
Proof.
  unfold same3, key3. rewrite !andb_true_iff, String.eqb_eq, N.eqb_eq, Z.eqb_eq.
  split; [intros [[-> ->] ->]; reflexivity | intros [= -> -> ->]; auto].
Qed.

Lemma same2_true f e : same2 f e = true ↔ key2 e = key2 f.
Proof.
  unfold same2, key2. rewrite andb_true_iff, String.eqb_eq, N.eqb_eq.
  split; [intros [-> ->]; reflexivity | intros [= -> ->]; auto].
Qed.

Lemma existsb_same3_false f cur :
  existsb (same3 f) cur = false → key3 f ∉ key3 <$> cur.
Proof.
  intros Hnone [e [Hk He]]%list_elem_of_fmap.
  assert (existsb (same3 f) cur = true) as Hsome; [|congruence].
  apply existsb_exists. exists e. split; [by apply list_elem_of_In|].
  by apply same3_true.
Qed.

Lemma existsb_same2_false f cur :
  existsb (same2 f) cur = false → key2 f ∉ key2 <$> cur.
Proof.
  intros Hnone [e [Hk He]]%list_elem_of_fmap.
  assert (existsb (same2 f) cur = true) as Hsome; [|congruence].
  apply existsb_exists. exists e. split; [by apply list_elem_of_In|].
  by apply same2_true.
Qed.

Lemma NoDup_fmap_snoc {A B} (k : A → B) (l : list A) (x : A) :
  NoDup (k <$> l) → k x ∉ k <$> l → NoDup (k <$> (l ++ [x])).
Proof.
  intros Hl Hx. rewrite fmap_app. apply NoDup_app. split; [done|]. split.
  - intros y Hy [->|[]%elem_of_nil]%elem_of_cons. done.
  - apply NoDup_singleton.
Qed.

(** The loop of [addFiles] keeps the three keys pairwise different. *)
Lemma addFiles_loop_NoDup filesArray : ∀ cur added,
  NoDup (key3 <$> cur) →
  NoDup (key3 <$> (addFiles_loop filesArray cur added).1).
Proof.
  induction filesArray as [|f rest IH]; intros cur added Hcur; simpl; [done|].
  destruct (is_ppt (getExt (name f))); simpl; [|by apply IH].
  destruct (existsb (same3 f) cur) eqn:Hdup; simpl; [by apply IH|].
  apply IH, NoDup_fmap_snoc; [done|]. by apply existsb_same3_false.
Qed.

(** The loop of the earlier handlers keeps name and size pairwise
    different. *)
Lemma append_loop_NoDup incoming : ∀ cur,
  NoDup (key2 <$> cur) → NoDup (key2 <$> append_loop incoming cur).
Proof.
  induction incoming as [|f rest IH]; intros cur Hcur; simpl; [done|].
  destruct (existsb (same2 f) cur) eqn:Hdup; simpl; [by apply IH|].
  apply IH, NoDup_fmap_snoc; [done|]. by apply existsb_same2_false.
Qed.

Lemma key2_NoDup_key3 (l : list File) : NoDup (key2 <$> l) → NoDup (key3 <$> l).
Proof.
  intros H. apply (NoDup_fmap_1 (λ k : string * N * Z, k.1)).
  by rewrite <- list_fmap_compose.
Qed.

(** Rendering leaves the list alone, however it ends. *)
Lemma renderFileList_currentFiles r st :
  currentFiles (page (renderFileList r st)) = currentFiles st.
Proof.
  unfold renderFileList. destruct (currentFiles st) as [|f cur] eqn:Hcur.
  - by destruct r.
  - destruct (render_tiles 0 (f :: cur)).2; [by destruct r|done].
Qed.

Lemma addFiles_currentFiles filesArray st :
  currentFiles (page (addFiles filesArray st))
  = (addFiles_loop filesArray (currentFiles st) 0).1.
Proof.
  unfold addFiles. destruct filesArray as [|f rest]; [done|].
  destruct (addFiles_loop (f :: rest) (currentFiles st) 0) as [cur [|n]];
    [done|]. by rewrite renderFileList_currentFiles.
Qed.

Lemma append_files_currentFiles incoming st :
  currentFiles (page (append_files incoming st))
  = append_loop incoming (currentFiles st).
Proof.
  unfold append_files. destruct incoming as [|f rest]; [done|].
  by rewrite renderFileList_currentFiles.
Qed.

(** What the current [change] listener does behind [addFiles] does not touch
    the list. *)
Lemma on_change_tail (c : Completion) :
  currentFiles match c with
               | Returns st' => set_files (currentFiles st') [] st'
               | Throws st' => st'
               end
  = currentFiles (page c).
Proof. by destruct c. Qed.

Lemma on_drop_currentFiles r dropped st :
  currentFiles (on_drop r dropped st) = added r dropped (currentFiles st).
Proof.
  destruct r; simpl.
  - by rewrite addFiles_currentFiles.
  - by rewrite append_files_currentFiles.
Qed.

Lemma on_change_currentFiles r picked st :
  currentFiles (on_change r picked st) = added r picked (currentFiles st).
Proof.
  destruct r; unfold on_change.
  - by rewrite on_change_tail, addFiles_currentFiles.
  - by rewrite append_files_currentFiles.
Qed.

Lemma distinct_key3 r l : distinct r l → NoDup (key3 <$> l).
Proof. destruct r; [done | apply key2_NoDup_key3]. Qed.

Lemma distinct_added r incoming cur : distinct r cur → distinct r (added r incoming cur).
Proof.
  destruct r; simpl.
  - apply addFiles_loop_NoDup.
  - apply append_loop_NoDup.
Qed.

Lemma distinct_delete r i l : distinct r l → distinct r (delete i l).
Proof.
  assert (∀ {B} (k : File → B), NoDup (k <$> l) → NoDup (k <$> delete i l)) as H.
  { intros B k Hl. apply (sublist_NoDup _ (k <$> l)); [exact Hl|].
    apply fmap_sublist, sublist_delete. }
  destruct r; apply H.
Qed.

Lemma distinct_handle r st e :
  distinct r (currentFiles st) → distinct r (currentFiles (handle r st e)).
Proof.
  intros Hst. destruct e as [| |dropped|picked|index|]; simpl; try done.
  - rewrite on_drop_currentFiles. by apply distinct_added.
  - rewrite on_change_currentFiles. by apply distinct_added.
  - unfold removeFileAt.
    destruct ((index <? 0)%Z || (index >=? Z.of_nat (length (currentFiles st)))%Z); [done|].
    rewrite renderFileList_currentFiles. simpl. by apply distinct_delete.
  - destruct r; simpl; apply NoDup_nil_2.
Qed.

Lemma initial_currentFiles r dt : currentFiles (initial r dt) = [].
Proof. unfold initial. by rewrite renderFileList_currentFiles. Qed.

Lemma distinct_run r dt events : distinct r (currentFiles (run r dt events)).
Proof.
  unfold run.
  assert (distinct r (currentFiles (initial r dt))) as Hinit.
  { rewrite initial_currentFiles. destruct r; simpl; apply NoDup_nil_2. }
  revert Hinit. generalize (initial r dt).
  induction events as [|e events IH]; intros st Hst; simpl; [done|].
  by apply IH, distinct_handle.
Qed.

Lemma occurrences_snoc_ne k l f :
  key3 f ≠ k → occurrences k (l ++ [f]) = occurrences k l.
Proof.
  intros Hne. unfold occurrences. rewrite filter_app, length_app.
  rewrite filter_cons_False, filter_nil by done. simpl. lia.
Qed.

Lemma addFiles_loop_occurrences k filesArray : ∀ cur n,
  k ∈ key3 <$> cur →
  occurrences k (addFiles_loop filesArray cur n).1 = occurrences k cur.
Proof.
  induction filesArray as [|f rest IH]; intros cur n Hk; simpl; [done|].
  destruct (is_ppt (getExt (name f))); simpl; [|by apply IH].
  destruct (existsb (same3 f) cur) eqn:Hdup; simpl; [by apply IH|].
  apply existsb_same3_false in Hdup.
  rewrite IH; [|rewrite fmap_app; apply elem_of_app; by left].
  apply occurrences_snoc_ne. by intros <-.
Qed.

Lemma append_loop_occurrences k incoming : ∀ cur,
  k ∈ key3 <$> cur →
  occurrences k (append_loop incoming cur) = occurrences k cur.
Proof.
  induction incoming as [|f rest IH]; intros cur Hk; simpl; [done|].
  destruct (existsb (same2 f) cur) eqn:Hdup; simpl; [by apply IH|].
  apply existsb_same2_false in Hdup.
  rewrite IH; [|rewrite fmap_app; apply elem_of_app; by left].
  apply occurrences_snoc_ne. intros <-.
  apply Hdup. apply list_elem_of_fmap in Hk as [e [He Hin]].
  apply list_elem_of_fmap. exists e. split; [|done].
  unfold key3, key2 in *. by injection He as -> -> _.
Qed.

Lemma added_occurrences r k incoming cur :
  k ∈ key3 <$> cur → occurrences k (added r incoming cur) = occurrences k cur.
Proof.
  destruct r; [apply addFiles_loop_occurrences | apply append_loop_occurrences].
Qed.

(** C8.  Whatever the user does (drops, picks, removals, resets, in any
    order, in either revision of the script), no two entries of the file
    list agree on name, size and modification time; and an add operation,
    by drop or by the picker, on any list leaves the number of entries with
    a given triple of keys as it was when an entry with these keys was
    there already: the incoming file with the same three keys is not
    added. *)
Theorem file_list_never_holds_duplicates (r : Rev) (dt : bool) (events : list Event) :
  NoDup (key3 <$> currentFiles (run r dt events))
  ∧ ∀ (st : State) (incoming : list File) (k : string * N * Z),
      k ∈ key3 <$> currentFiles st →
      occurrences k (currentFiles (handle r st (Drop incoming)))
        = occurrences k (currentFiles st)
      ∧ occurrences k (currentFiles (handle r st (Change incoming)))
        = occurrences k (currentFiles st).
Proof.
  split.
  - apply (distinct_key3 r), distinct_run.
  - intros st incoming k Hk. simpl.
    rewrite on_drop_currentFiles, on_change_currentFiles.
    split; by apply added_occurrences.
Qed.

(** C10.  [removeFileAt] with an index below zero or not below the length
    of the list returns at once: the list, the file input and everything
    rendered stay as they are. *)
Theorem removeFileAt_out_of_range (r : Rev) (index : Z) (st : State) :
  (index < 0 ∨ index >= Z.of_nat (length (currentFiles st)))%Z →
  removeFileAt r index st = st.
Proof.
  intros Hout. unfold removeFileAt.
  destruct (index <? 0)%Z eqn:Hneg; [done|].
  destruct (index >=? Z.of_nat (length (currentFiles st)))%Z eqn:Hge; [done|].
  apply Z.ltb_ge in Hneg. rewrite Z.geb_leb in Hge. apply Z.leb_gt in Hge. lia.
Qed.

(** An index in range does remove: the list is then one shorter. *)
Lemma removeFileAt_in_range (r : Rev) (index : Z) (st : State) :
  (0 <= index < Z.of_nat (length (currentFiles st)))%Z →
  currentFiles (removeFileAt r index st)
  = delete (Z.to_nat index) (currentFiles st).
Proof.
  intros Hin. unfold removeFileAt.
  destruct (index <? 0)%Z eqn:Hneg; [apply Z.ltb_lt in Hneg; lia|].
  destruct (index >=? Z.of_nat (length (currentFiles st)))%Z eqn:Hge.
  { rewrite Z.geb_leb in Hge. apply Z.leb_le in Hge. lia. }
  simpl. by rewrite renderFileList_currentFiles.
Qed.

Lemma file_list_never_holds_duplicates_witness :
  occurrences (key3 deck)
    (currentFiles (handle Earlier (run Earlier true [Drop [deck; notes]])
                          (Drop [deck_again])))
  = occurrences (key3 deck) (currentFiles (run Earlier true [Drop [deck; notes]]))
  ∧ occurrences (key3 deck)
      (currentFiles (handle Earlier (run Earlier true [Drop [deck; notes]])
                            (Change [deck_again])))
    = occurrences (key3 deck) (currentFiles (run Earlier true [Drop [deck; notes]])).
Proof.
  apply (proj2 (file_list_never_holds_duplicates Earlier true [])
               (run Earlier true [Drop [deck; notes]]) [deck_again] (key3 deck)).
  vm_compute. apply list_elem_of_here.
Defined.

Lemma removeFileAt_out_of_range_witness :
  removeFileAt Current 2 (run Current true [Drop [deck; notes]])
  = run Current true [Drop [deck; notes]].
Proof.
  apply (removeFileAt_out_of_range Current 2 (run Current true [Drop [deck; notes]])).
  right. vm_compute. discriminate.
Defined.

(** *** More on the list and the page *)


(** What the loop of [addFiles] returns: the list it started from, then some
    of the incoming files that pass the extension test, in their order, as
    many as the counter has gone up. *)
Lemma addFiles_loop_appends filesArray : ∀ cur n,
  ∃ extra,
    (addFiles_loop filesArray cur n).1 = cur ++ extra
    ∧ (addFiles_loop filesArray cur n).2 = n + length extra
    ∧ extra `sublist_of` filter (λ f, valid f = true) filesArray.
Proof.
  induction filesArray as [|f rest IH]; intros cur n; simpl.
  - exists []. by rewrite app_nil_r, Nat.add_0_r.
  - unfold valid at 1.
    destruct (is_ppt (getExt (name f))) eqn:Hext; simpl.
    + rewrite filter_cons_True by done.
      destruct (existsb (same3 f) cur); simpl.
      * destruct (IH cur n) as (extra & H1 & H2 & H3).
        exists extra. split; [done|]. split; [done|]. by apply sublist_cons.
      * destruct (IH (cur ++ [f]) (S n)) as (extra & H1 & H2 & H3).
        exists (f :: extra). rewrite H1, H2, <- app_assoc. simpl.
        split; [done|]. split; [lia|]. by apply sublist_skip.
    + rewrite filter_cons_False by (unfold valid; congruence).
      apply IH.
Qed.

Lemma append_loop_appends incoming : ∀ cur,
  ∃ extra, append_loop incoming cur = cur ++ extra ∧ extra `sublist_of` incoming.
Proof.
  induction incoming as [|f rest IH]; intros cur; simpl.
  - exists []. by rewrite app_nil_r.
  - destruct (existsb (same2 f) cur); simpl.
    + destruct (IH cur) as (extra & H1 & H2).
      exists extra. split; [done|]. by apply sublist_cons.
    + destruct (IH (cur ++ [f])) as (extra & H1 & H2).
      exists (f :: extra). rewrite H1, <- app_assoc. split; [done|].
      by apply sublist_skip.
Qed.

Lemma added_appends r incoming cur :
  ∃ extra, added r incoming cur = cur ++ extra ∧ extra `sublist_of` incoming.
Proof.
  destruct r; simpl.
  - destruct (addFiles_loop_appends incoming cur 0) as (extra & H1 & _ & H3).
    exists extra. split; [done|]. etrans; [exact H3|]. apply sublist_filter.
  - apply append_loop_appends.
Qed.

(** X1.  An add operation, by drop or by the picker, in either revision,
    leaves the entries that are there where they are and puts some of the
    incoming files behind them, in the order they came in: nothing is
    removed, replaced or moved. *)
Theorem add_appends_in_order (r : Rev) (st : State) (incoming : list File) :
  ∃ dropped picked,
    currentFiles (handle r st (Drop incoming)) = currentFiles st ++ dropped
    ∧ dropped `sublist_of` incoming
    ∧ currentFiles (handle r st (Change incoming)) = currentFiles st ++ picked
    ∧ picked `sublist_of` incoming.
Proof.
  simpl. rewrite on_drop_currentFiles, on_change_currentFiles.
  destruct (added_appends r incoming (currentFiles st)) as (extra & H1 & H2).
  by exists extra, extra.
Qed.

(** *** The page and the list *)

(** The label of a placeholder: the extension in capitals, and none where
    a character of it is beyond Latin-1 in capitals. *)
Example makePlaceholder_labels :
  makePlaceholder (getExt "deck.pptx") = Some "PPTX"
  ∧ makePlaceholder (getExt "deck") = Some "DECK"
  ∧ makePlaceholder (getExt "deck.") = Some "PPT"
  ∧ makePlaceholder (getExt "menu.café") = Some "CAFÉ"
  ∧ makePlaceholder (getExt "plan.straße") = Some "STRASSE"
  ∧ makePlaceholder (getExt "notes.日本語") = None
  ∧ makePlaceholder (getExt "scale.µm") = None.
Proof. vm_compute. done. Qed.

Lemma valid_fits f : valid f = true → fits f = true.
Proof.
  unfold valid, fits, is_ppt.
  intros [->%String.eqb_eq| ->%String.eqb_eq]%orb_true_iff; reflexivity.
Qed.

Lemma fits_tile idx f : fits f = true → ∃ t, tile idx f = Some t
  ∧ removeIndex t = idx ∧ filenameText t = name f.
Proof.
  unfold fits, tile. destruct (makePlaceholder (getExt (name f))) as [label|]; [|done].
  intros _. by eexists.
Qed.

Lemma tile_fits idx f t : tile idx f = Some t → fits f = true.
Proof.
  unfold fits, tile. by destruct (makePlaceholder (getExt (name f))).
Qed.

(** The loop over files whose placeholders can all be made gets to the end:
    one tile per file, one upload per file. *)
Lemma render_tiles_fits files : ∀ idx,
  Forall (λ f, fits f = true) files →
  (λ t, (removeIndex t, filenameText t)) <$> (render_tiles idx files).1.1
  = imap (λ k f, (idx + k, name f)) files
  ∧ (render_tiles idx files).1.2 = files
  ∧ (render_tiles idx files).2 = true.
Proof.
  induction files as [|f files IH]; intros idx Hfits; simpl; [done|].
  apply Forall_cons in Hfits as [Hf Hfits].
  destruct (fits_tile idx f Hf) as (t & -> & Hidx & Hname).
  destruct (IH (S idx) Hfits) as (H1 & H2 & H3).
  cbn [fst snd]. rewrite fmap_cons, H1, H2, H3.
  split; [|done]. rewrite Hidx, Hname, Nat.add_0_r. f_equal.
  apply imap_ext. intros k g _. simpl. f_equal. lia.
Qed.

(** And it gets to the end only then. *)
Lemma render_tiles_completed files : ∀ idx,
  (render_tiles idx files).2 = true → Forall (λ f, fits f = true) files.
Proof.
  induction files as [|f files IH]; intros idx; simpl; [done|].
  destruct (tile idx f) as [t|] eqn:Ht; [|done]. simpl. intros H.
  apply Forall_cons. split; [by eapply tile_fits|by eapply IH].
Qed.

(** The uploads started are those of the files in front of the first whose
    placeholder cannot be made. *)
Lemma render_tiles_started files : ∀ idx,
  (render_tiles idx files).1.2 `prefix_of` files
  ∧ Forall (λ f, fits f = true) (render_tiles idx files).1.2.
Proof.
  induction files as [|f files IH]; intros idx; simpl; [done|].
  destruct (tile idx f) as [t|] eqn:Ht; simpl.
  - destruct (IH (S idx)) as [Hpre Hall]. split.
    + by apply prefix_cons.
    + apply Forall_cons. split; [by eapply tile_fits|done].
  - split; [apply prefix_nil|done].
Qed.

Lemma sound_agree r st st' :
  currentFiles st' = currentFiles st → fileListEl st' = fileListEl st →
  resetHidden st' = resetHidden st → dropCompact st' = dropCompact st →
  sound r st → sound r st'.
Proof.
  unfold sound, reflects, views, no_files. intros -> -> -> ->. done.
Qed.

(** Whatever the page was, a rendering makes it sound. *)
Lemma renderFileList_sound r st :
  (r = Current → Forall (λ f, valid f = true) (currentFiles st)) →
  (r = Earlier → dropCompact st = false) →
  sound r (page (renderFileList r st)).
Proof.
  intros Hvalid Hdrop. unfold renderFileList.
  destruct (currentFiles st) as [|f cur] eqn:Hcur.
  - destruct r; simpl.
    + repeat split; auto.
    + split; [by apply Hdrop|]. split; [by left|]. by intros _.
  - destruct (render_tiles 0 (f :: cur)).2 eqn:Hdone.
    + pose proof (render_tiles_completed _ _ Hdone) as Hfits.
      destruct (render_tiles_fits (f :: cur) 0 Hfits) as (Hviews & Hstarted & _).
      destruct r; simpl.
      * split; [split; [by apply Hvalid|split; [by split|done]]|].
        split; [by right|]. intros _. by split.
      * split; [by apply Hdrop|]. split; [by right|]. intros _. by split.
    + assert (¬ Forall (λ f, fits f = true) (f :: cur)) as Hnot.
      { intros Hfits.
        destruct (render_tiles_fits (f :: cur) 0 Hfits) as (_ & _ & Hyes).
        congruence. }
      destruct r; simpl.
      * destruct Hnot. eapply Forall_impl; [by apply Hvalid|].
        intros g. apply valid_fits.
      * split; [by apply Hdrop|]. split; [by left|]. intros Hfits. by destruct Hnot.
Qed.

Lemma sound_dropCompact r st : sound r st → r = Earlier → dropCompact st = false.
Proof. intros [H _] ->. exact H. Qed.

Lemma sound_valid r st :
  sound r st → r = Current → Forall (λ f, valid f = true) (currentFiles st).
Proof. intros [H _] ->. by destruct H. Qed.

Lemma handle_sound r st e : sound r st → sound r (handle r st e).
Proof.
  intros Hst.
  destruct e as [| |dropped|picked|index|]; simpl.
  - by apply (sound_agree r st).
  - by apply (sound_agree r st).
  - unfold on_drop. destruct r.
    + unfold addFiles. destruct dropped as [|f rest]; [by apply (sound_agree Current st)|].
      destruct (addFiles_loop_appends (f :: rest) (currentFiles (set_drag false st)) 0)
        as (extra & Hcur & Hadded & Hsub).
      destruct (addFiles_loop (f :: rest) (currentFiles (set_drag false st)) 0)
        as [cur added].
      simpl in Hcur, Hadded. subst cur added.
      destruct extra as [|x extra]; simpl.
      * apply (sound_agree Current st); try done. simpl. by rewrite app_nil_r.
      * apply renderFileList_sound; [|done]. intros _. simpl.
        apply Forall_app. split; [by apply (sound_valid Current)|].
        apply Forall_forall. intros g Hg.
        apply (elem_of_sublist _ _ _ Hg) in Hsub.
        by apply list_elem_of_filter in Hsub as [? _].
    + unfold append_files. destruct dropped as [|f rest]; [by apply (sound_agree Earlier st)|].
      apply renderFileList_sound; [done|]. intros _. simpl.
      by apply (sound_dropCompact Earlier).
  - unfold on_change. destruct r.
    + unfold addFiles. destruct picked as [|f rest]; [by apply (sound_agree Current st)|].
      destruct (addFiles_loop_appends (f :: rest)
                  (currentFiles (set_files (currentFiles st) (f :: rest) st)) 0)
        as (extra & Hcur & Hadded & Hsub).
      destruct (addFiles_loop (f :: rest)
                  (currentFiles (set_files (currentFiles st) (f :: rest) st)) 0)
        as [cur added].
      simpl in Hcur, Hadded. subst cur added.
      destruct extra as [|x extra]; simpl.
      * apply (sound_agree Current st); try done. simpl. by rewrite app_nil_r.
      * assert (sound Current
                  (page (renderFileList Current
                     (set_files (currentFiles st ++ x :: extra)
                        (createFileList (currentFiles st ++ x :: extra)
                           (set_files (currentFiles st) (f :: rest) st))
                        (set_files (currentFiles st) (f :: rest) st))))) as Hsound.
        { apply renderFileList_sound; [|done]. intros _. simpl.
          apply Forall_app. split; [by apply (sound_valid Current)|].
          apply Forall_forall. intros g Hg.
          apply (elem_of_sublist _ _ _ Hg) in Hsub.
          by apply list_elem_of_filter in Hsub as [? _]. }
        revert Hsound.
        generalize (renderFileList Current
                     (set_files (currentFiles st ++ x :: extra)
                        (createFileList (currentFiles st ++ x :: extra)
                           (set_files (currentFiles st) (f :: rest) st))
                        (set_files (currentFiles st) (f :: rest) st))).
        intros [s|s] Hs; [|done]. by apply (sound_agree Current s).
    + unfold append_files. destruct picked as [|f rest]; [by apply (sound_agree Earlier st)|].
      apply renderFileList_sound; [done|]. intros _. simpl.
      by apply (sound_dropCompact Earlier).
  - unfold removeFileAt.
    destruct ((index <? 0)%Z || (index >=? Z.of_nat (length (currentFiles st)))%Z);
      [done|].
    apply renderFileList_sound.
    + intros Hr. simpl. apply Forall_delete. by apply (sound_valid r).
    + intros Hr. simpl. by apply (sound_dropCompact r).
  - destruct r; [simpl; repeat split; auto|]. unfold resetSelection.
    + assert (sound Earlier (page (renderFileList Earlier (set_files [] [] st)))) as Hsound.
      { apply renderFileList_sound; [done|]. intros _. simpl.
        by apply (sound_dropCompact Earlier). }
      revert Hsound. generalize (renderFileList Earlier (set_files [] [] st)).
      intros [s|s] Hs; [|done]. by apply (sound_agree Earlier s).
Qed.

Lemma run_sound r dt events : sound r (run r dt events).
Proof.
  unfold run.
  assert (sound r (initial r dt)) as Hinit.
  { apply renderFileList_sound; [by intros _|by intros _]. }
  revert Hinit. generalize (initial r dt).
  induction events as [|e events IH]; intros st Hst; simpl; [done|].
  by apply IH, handle_sound.
Qed.

(** X2.  After any sequence of events the grid is empty or has one tile per
    listed file, in list order, each with the file's name and its own
    position as the index of its remove button.  Where the placeholder of
    every listed file can be made, it is the second, and the reset button is
    hidden exactly when the list is empty.  In the current revision that is
    always so, and the drop area is large exactly when the list is empty; in
    the earlier one the drop area is never compact. *)
Theorem page_shows_the_list (r : Rev) (dt : bool) (events : list Event) :
  (fileListEl (run r dt events) = []
   ∨ (λ t, (removeIndex t, filenameText t)) <$> fileListEl (run r dt events)
     = imap (λ k f, (k, name f)) (currentFiles (run r dt events)))
  ∧ (Forall (λ f, fits f = true) (currentFiles (run r dt events)) →
     (λ t, (removeIndex t, filenameText t)) <$> fileListEl (run r dt events)
     = imap (λ k f, (k, name f)) (currentFiles (run r dt events))
     ∧ resetHidden (run r dt events) = no_files (run r dt events))
  ∧ match r with
    | Current =>
        (λ t, (removeIndex t, filenameText t)) <$> fileListEl (run r dt events)
        = imap (λ k f, (k, name f)) (currentFiles (run r dt events))
        ∧ resetHidden (run r dt events) = no_files (run r dt events)
        ∧ dropCompact (run r dt events) = negb (no_files (run r dt events))
    | Earlier => dropCompact (run r dt events) = false
    end.
Proof.
  destruct (run_sound r dt events) as (Hrev & Hgrid & Hfits).
  split; [exact Hgrid|]. split; [exact Hfits|].
  destruct r; [|exact Hrev]. by destruct Hrev as (_ & [? ?] & ?).
Qed.

Lemma page_shows_the_list_witness :
  (λ t, (removeIndex t, filenameText t))
    <$> fileListEl (run Earlier true [Drop [deck; notes]; RemoveClick 0])
  = [(0, "notes.ppt")]
  ∧ resetHidden (run Earlier true [Drop [deck; notes]; RemoveClick 0]) = false.
Proof.
  apply (proj1 (proj2 (page_shows_the_list Earlier true
                         [Drop [deck; notes]; RemoveClick 0]))).
  vm_compute. by repeat constructor.
Defined.

(** In the earlier revision a file whose extension cannot be drawn stops the
    rendering: no tile is shown, not even for the files in front of it, the
    status line still names the file that was alone before, and the upload of
    the preview has started for the files in front of it only. *)
Example earlier_placeholder_stops_the_rendering :
  let st := run Earlier true [Drop [deck]; Drop [memo]] in
  currentFiles st = [deck; memo]
  ∧ fileListEl st = []
  ∧ status st = "deck.pptx"
  ∧ previewRequests st = [deck; deck].
Proof. vm_compute. done. Qed.

(** There the reset button leaves the download link where it is. *)
Example earlier_reset_keeps_the_link :
  let st := set_result (Some "/download/1") (run Earlier true [Drop [deck]]) in
  resultEl (handle Earlier st ResetClick) = Some "/download/1"
  ∧ resultEl (handle Current st ResetClick) = None.
Proof. vm_compute. done. Qed.

(** X3.  In any page the script can reach, the remove button of the tile at
    position [k] removes the file at position [k], which is the file whose
    name the tile shows, and no other. *)
Theorem remove_button_removes_its_file
  (r : Rev) (dt : bool) (events : list Event) (k : nat) (t : Tile) :
  fileListEl (run r dt events) !! k = Some t →
  ∃ f, currentFiles (run r dt events) !! k = Some f
       ∧ filenameText t = name f
       ∧ removeIndex t = k
       ∧ currentFiles (handle r (run r dt events)
                              (RemoveClick (Z.of_nat (removeIndex t))))
         = delete k (currentFiles (run r dt events)).
Proof.
  destruct (run_sound r dt events) as (_ & [Hgrid|Hgrid] & _); intros Ht.
  { by rewrite Hgrid in Ht. }
  assert (views (run r dt events) !! k = Some (removeIndex t, filenameText t)) as Hv.
  { unfold views. by rewrite list_lookup_fmap, Ht. }
  rewrite Hgrid in Hv.
  apply list_lookup_imap_Some in Hv as (f & Hf & [= -> ->]).
  exists f. split; [done|]. split; [done|]. split; [done|]. simpl.
  rewrite removeFileAt_in_range; [by rewrite Nat2Z.id|].
  apply lookup_lt_Some in Hf. lia.
Qed.

Lemma same3_existsb f cur : key3 f ∉ key3 <$> cur → existsb (same3 f) cur = false.
Proof.
  intros Hnot. destruct (existsb (same3 f) cur) eqn:H; [|done].
  apply existsb_exists in H as (e & He & Hsame). destruct Hnot.
  apply same3_true in Hsame. rewrite <- Hsame.
  apply list_elem_of_fmap. exists e. split; [done|]. by apply list_elem_of_In.
Qed.

Lemma same2_existsb f cur : key2 f ∉ key2 <$> cur → existsb (same2 f) cur = false.
Proof.
  intros Hnot. destruct (existsb (same2 f) cur) eqn:H; [|done].
  apply existsb_exists in H as (e & He & Hsame). destruct Hnot.
  apply same2_true in Hsame. rewrite <- Hsame.
  apply list_elem_of_fmap. exists e. split; [done|]. by apply list_elem_of_In.
Qed.

(** Only files that pass the extension test get into the list of the
    current revision. *)
Lemma handle_valid st e :
  Forall (λ f, valid f = true) (currentFiles st) →
  Forall (λ f, valid f = true) (currentFiles (handle Current st e)).
Proof.
  intros Hst.
  assert (∀ incoming, Forall (λ f, valid f = true)
                             (added Current incoming (currentFiles st))) as Hadd.
  { intros incoming. simpl.
    destruct (addFiles_loop_appends incoming (currentFiles st) 0)
      as (extra & -> & _ & Hsub).
    apply Forall_app. split; [done|].
    apply Forall_forall. intros f Hf.
    apply (elem_of_sublist _ _ _ Hf) in Hsub.
    by apply list_elem_of_filter in Hsub as [? _]. }
  destruct e as [| |dropped|picked|index|]; unfold handle; try done.
  - rewrite (on_drop_currentFiles Current). apply Hadd.
  - rewrite (on_change_currentFiles Current). apply Hadd.
  - unfold removeFileAt.
    destruct ((index <? 0)%Z || (index >=? Z.of_nat (length (currentFiles st)))%Z);
      [done|].
    rewrite renderFileList_currentFiles. simpl. by apply Forall_delete.
Qed.

Lemma run_valid dt events :
  Forall (λ f, valid f = true) (currentFiles (run Current dt events)).
Proof.
  unfold run.
  assert (Forall (λ f, valid f = true) (currentFiles (initial Current dt))) as Hinit
    by apply Forall_nil_2.
  revert Hinit. generalize (initial Current dt).
  induction events as [|e events IH]; intros st Hst; simpl; [done|].
  by apply IH, handle_valid.
Qed.

(** X4.  In the current revision, whatever the user does, every file of
    the list has [ppt] or [pptx] after the last dot of its name, in any
    case of letters. *)
Theorem current_list_holds_presentations_only (dt : bool) (events : list Event) :
  Forall (λ f, getExt (name f) = "ppt" ∨ getExt (name f) = "pptx")
         (currentFiles (run Current dt events)).
Proof.
  eapply Forall_impl; [apply run_valid|]. intros f. unfold valid, is_ppt.
  intros [?%String.eqb_eq|?%String.eqb_eq]%orb_true_iff; auto.
Qed.

Lemma addFiles_loop_listed f filesArray : ∀ cur n,
  (key3 f ∈ key3 <$> cur ∨ (f ∈ filesArray ∧ valid f = true)) →
  key3 f ∈ key3 <$> (addFiles_loop filesArray cur n).1.
Proof.
  induction filesArray as [|g rest IH]; intros cur n H; simpl.
  - destruct H as [H|[H _]]; [done|by apply elem_of_nil in H].
  - assert (key3 f ∈ key3 <$> cur ∨ f = g ∧ valid f = true
            ∨ f ∈ rest ∧ valid f = true) as Hcases.
    { destruct H as [H|[H Hv]]; [by left|].
      apply elem_of_cons in H as [->|H]; auto. }
    clear H. destruct Hcases as [H|[[-> Hv]|H]].
    + destruct (is_ppt (getExt (name g))); simpl; [|apply IH; by left].
      destruct (existsb (same3 g) cur); simpl; apply IH; left; [done|].
      rewrite fmap_app. apply elem_of_app. by left.
    + unfold valid in Hv. rewrite Hv. simpl.
      destruct (existsb (same3 g) cur) eqn:Hdup; simpl; apply IH; left.
      * apply existsb_exists in Hdup as (e & He & Hsame).
        apply same3_true in Hsame. rewrite <- Hsame.
        apply list_elem_of_fmap. exists e. split; [done|]. by apply list_elem_of_In.
      * rewrite fmap_app. apply elem_of_app. right. apply list_elem_of_here.
    + destruct (is_ppt (getExt (name g))); simpl; [|apply IH; by right].
      destruct (existsb (same3 g) cur); simpl; apply IH; by right.
Qed.

Lemma append_loop_listed f incoming : ∀ cur,
  (key2 f ∈ key2 <$> cur ∨ f ∈ incoming) →
  key2 f ∈ key2 <$> append_loop incoming cur.
Proof.
  induction incoming as [|g rest IH]; intros cur H; simpl.
  - destruct H as [H|H]; [done|by apply elem_of_nil in H].
  - assert (key2 f ∈ key2 <$> cur ∨ f = g ∨ f ∈ rest) as Hcases.
    { destruct H as [H|H]; [by left|].
      apply elem_of_cons in H as [->|H]; auto. }
    clear H. destruct Hcases as [H|[->|H]].
    + destruct (existsb (same2 g) cur); simpl; apply IH; left; [done|].
      rewrite fmap_app. apply elem_of_app. by left.
    + destruct (existsb (same2 g) cur) eqn:Hdup; simpl; apply IH; left.
      * apply existsb_exists in Hdup as (e & He & Hsame).
        apply same2_true in Hsame. rewrite <- Hsame.
        apply list_elem_of_fmap. exists e. split; [done|]. by apply list_elem_of_In.
      * rewrite fmap_app. apply elem_of_app. right. apply list_elem_of_here.
    + destruct (existsb (same2 g) cur); simpl; apply IH; by right.
Qed.

(** X5.  After an add operation every incoming file that the revision lets
    through (in the current one, a file with extension ppt or pptx) has an
    entry in the list: itself, or the entry that the duplicate test took it
    for. *)
Theorem every_accepted_file_is_listed
  (r : Rev) (st : State) (incoming : list File) (f : File) :
  f ∈ incoming → accepts r f = true →
  listed r f (currentFiles (handle r st (Drop incoming)))
  ∧ listed r f (currentFiles (handle r st (Change incoming))).
Proof.
  intros Hin Hacc. simpl. rewrite on_drop_currentFiles, on_change_currentFiles.
  assert (listed r f (added r incoming (currentFiles st))) as H; [|done].
  destruct r; simpl in *.
  - apply addFiles_loop_listed. by right.
  - apply append_loop_listed. by right.
Qed.

(** A rendering that gets through the list starts an upload for every
    file. *)
Lemma renderFileList_requests r st :
  Forall (λ f, fits f = true) (currentFiles st) →
  previewRequests (page (renderFileList r st))
  = previewRequests st ++ currentFiles st.
Proof.
  intros Hfits. unfold renderFileList.
  destruct (currentFiles st) as [|f cur] eqn:Hcur.
  - destruct r; simpl; by rewrite app_nil_r.
  - destruct (render_tiles_fits (f :: cur) 0 Hfits) as (_ & Hstarted & ->).
    rewrite Hstarted. by destruct r.
Qed.

(** One accepted file that is not listed yet, dropped alone, goes to the end
    of the list, and the page is rendered anew: a preview upload starts for
    every file of the list. *)
Lemma drop_one r st f :
  accepts r f = true → ¬ listed r f (currentFiles st) →
  Forall (λ f, fits f = true) (currentFiles st ++ [f]) →
  currentFiles (handle r st (Drop [f])) = currentFiles st ++ [f]
  ∧ previewRequests (handle r st (Drop [f]))
    = previewRequests st ++ (currentFiles st ++ [f]).
Proof.
  intros Hacc Hnew Hfits. destruct r; simpl in *; unfold on_drop.
  - unfold addFiles. simpl. unfold valid in Hacc. rewrite Hacc. simpl.
    rewrite same3_existsb by done. simpl.
    by rewrite renderFileList_currentFiles, renderFileList_requests.
  - unfold append_files. simpl. rewrite same2_existsb by done. simpl.
    by rewrite renderFileList_currentFiles, renderFileList_requests.
Qed.

Lemma drops_one_by_one r files : ∀ st,
  Forall (λ f, accepts r f = true) files →
  Forall (λ f, fits f = true) (currentFiles st ++ files) →
  distinct r (currentFiles st ++ files) →
  currentFiles (fold_left (handle r) (one_by_one files) st) = currentFiles st ++ files
  ∧ length (previewRequests (fold_left (handle r) (one_by_one files) st)) * 2
    = length (previewRequests st) * 2
      + length files * (length (currentFiles st) * 2 + length files + 1).
Proof.
  induction files as [|f files IH]; intros st Hacc Hfits Hdist; simpl.
  - rewrite app_nil_r. split; [done|lia].
  - apply Forall_cons in Hacc as [Hf Hacc].
    assert (Forall (λ f, fits f = true) (currentFiles st ++ [f])) as Hfits'.
    { rewrite (cons_middle f), app_assoc in Hfits.
      by apply Forall_app in Hfits as [? _]. }
    assert (¬ listed r f (currentFiles st)) as Hnew.
    { destruct r; simpl in *; rewrite fmap_app in Hdist;
        apply NoDup_app in Hdist as (_ & Hdisj & _); intros Hin;
        apply (Hdisj _ Hin); rewrite fmap_cons; apply list_elem_of_here. }
    destruct (drop_one r st f Hf Hnew Hfits') as [Hcur Hreq].
    change (on_drop r [f] st) with (handle r st (Drop [f])).
    destruct (IH (handle r st (Drop [f])) Hacc) as [Hcur' Hreq'].
    { rewrite Hcur, <- app_assoc. exact Hfits. }
    { rewrite Hcur, <- app_assoc. exact Hdist. }
    rewrite Hcur'. rewrite Hcur, <- app_assoc. split; [done|].
    rewrite Hreq', Hreq, Hcur. rewrite !length_app. simpl. lia.
Qed.

(** X6.  Every rendering that gets through the list starts a preview upload
    for every listed file, not only for the new ones: [n] different files
    whose placeholders can be made, dropped one at a time, make
    [n (n + 1) / 2] preview uploads. *)
Theorem previews_are_requested_again_on_every_add
  (r : Rev) (dt : bool) (files : list File) :
  Forall (λ f, accepts r f = true) files →
  Forall (λ f, fits f = true) files → distinct r files →
  currentFiles (run r dt (one_by_one files)) = files
  ∧ length (previewRequests (run r dt (one_by_one files))) * 2
    = length files * (length files + 1).
Proof.
  intros Hacc Hfits Hdist. unfold run.
  destruct (drops_one_by_one r files (initial r dt) Hacc) as [Hcur Hreq].
  { by rewrite initial_currentFiles. }
  { by rewrite initial_currentFiles. }
  split; [by rewrite Hcur, initial_currentFiles|].
  rewrite Hreq, initial_currentFiles. destruct r; simpl; lia.
Qed.

(** A file whose placeholder cannot be made stops the uploads behind it:
    three files dropped one at a time in the earlier revision, the second
    such a file, make three uploads and not six. *)
Example fewer_previews_behind_a_placeholder_that_throws :
  let st := run Earlier true (one_by_one [deck; memo; notes]) in
  currentFiles st = [deck; memo; notes]
  ∧ previewRequests st = [deck; deck; deck].
Proof. vm_compute. done. Qed.

Lemma remove_button_removes_its_file_witness :
  ∃ f, currentFiles (run Current true [Drop [deck; notes]]) !! 1 = Some f
       ∧ filenameText notes_tile = name f
       ∧ removeIndex notes_tile = 1
       ∧ currentFiles (handle Current (run Current true [Drop [deck; notes]])
                              (RemoveClick (Z.of_nat (removeIndex notes_tile))))
         = delete 1 (currentFiles (run Current true [Drop [deck; notes]])).
Proof.
  apply (remove_button_removes_its_file Current true [Drop [deck; notes]] 1
           notes_tile).
  vm_compute. reflexivity.
Defined.

Lemma every_accepted_file_is_listed_witness :
  listed Current notes
    (currentFiles (handle Current (initial Current true) (Drop [deck; notes])))
  ∧ listed Current notes
      (currentFiles (handle Current (initial Current true) (Change [deck; notes]))).
Proof.
  apply (every_accepted_file_is_listed Current (initial Current true)
           [deck; notes] notes).
  - apply list_elem_of_further, list_elem_of_here.
  - reflexivity.
Defined.

Lemma previews_are_requested_again_on_every_add_witness :
  currentFiles (run Earlier true (one_by_one [deck; notes])) = [deck; notes]
  ∧ length (previewRequests (run Earlier true (one_by_one [deck; notes]))) * 2
    = length [deck; notes] * (length [deck; notes] + 1).
Proof.
  apply (previews_are_requested_again_on_every_add Earlier true [deck; notes]).
  - by repeat constructor.
  - by repeat constructor.
  - apply (bool_decide_unpack _). vm_compute. exact I.
Defined.

Lemma convert_click_form st ctl :
  (convert_click st ctl).2
  = if no_files st || existsb (λ f, negb (valid f)) (currentFiles st)
    then None else Some (currentFiles st).
Proof.
  unfold convert_click, no_files. cbn [currentFiles set_result].
  destruct (currentFiles st) as [|f cur]; [done|].
  by destruct (existsb (λ f, negb (valid f)) (f :: cur)).
Qed.

(** X7.  In the current revision, in any page the script can reach with a
    list that is not empty, the convert button sends a form with exactly the
    listed files in list order: its own extension check never stops the
    upload. *)
Theorem convert_click_uploads_the_list
  (dt : bool) (events : list Event) (ctl : Controls) :
  currentFiles (run Current dt events) ≠ [] →
  (convert_click (run Current dt events) ctl).2
  = Some (currentFiles (run Current dt events)).
Proof.
  intros Hsome. rewrite convert_click_form.
  pose proof (run_valid dt events) as Hall. unfold no_files.
  destruct (currentFiles (run Current dt events)) as [|f cur];
    [by destruct Hsome|].
  destruct (existsb (λ f, negb (valid f)) (f :: cur)) eqn:Hbad; [|done].
  apply existsb_exists in Hbad as (g & Hg & Hinvalid).
  apply list_elem_of_In in Hg. rewrite Forall_forall in Hall.
  by rewrite (Hall g Hg) in Hinvalid.
Qed.

Lemma convert_click_uploads_the_list_witness :
  (convert_click (run Current true [Drop [deck; notes]])
                 {| convertDisabled := false; progressHidden := true;
                    progressWidth := "0%" |}).2
  = Some (currentFiles (run Current true [Drop [deck; notes]])).
Proof.
  apply (convert_click_uploads_the_list true [Drop [deck; notes]]).
  vm_compute. discriminate.
Defined.

(** In the earlier revision a file of another kind can be dropped into the
    list, and then the button uploads nothing. *)
Example earlier_list_can_block_the_upload :
  let other := {| name := "notes.txt"; size := 7; lastModified := 1; blob := 4 |} in
  let st := run Earlier true [Drop [deck; other]] in
  currentFiles st = [deck; other]
  ∧ ∀ ctl, (convert_click st ctl).2 = None.
Proof. split; [reflexivity|]. intros ctl. by rewrite convert_click_form. Qed.

End ClientFacts.

(** ** The file system *)
Module FsFacts.
Import Fs.

Lemma existsSync_unlinked p fs fs' : unlinkSync p fs = Some fs' → existsSync p fs' = false.
Proof.
  unfold unlinkSync, existsSync, readFileSync.
  destruct (fs !! dir p) as [d|] eqn:Hd; [|done].
  destruct (d !! base p); [|done]. intros [= <-].
  rewrite lookup_insert_eq. simpl. by rewrite lookup_delete_eq.
Qed.

Lemma unlinkSync_None p fs : unlinkSync p fs = None → existsSync p fs = false.
Proof.
  unfold unlinkSync, existsSync, readFileSync.
  destruct (fs !! dir p) as [d|]; [|done]. simpl. by destruct (d !! base p).
Qed.

Lemma unlinkSync_lookup_dir p fs fs' d :
  unlinkSync p fs = Some fs' → fs !! dir p = Some d →
  fs' !! dir p = Some (delete (base p) d).
Proof.
  unfold unlinkSync. intros H Hd. rewrite Hd in H.
  destruct (d !! base p); [|done]. injection H as <-. apply lookup_insert_eq.
Qed.

Lemma unlinkSync_lookup_ne p fs fs' d :
  unlinkSync p fs = Some fs' → d ≠ dir p → fs' !! d = fs !! d.
Proof.
  unfold unlinkSync. intros H Hd.
  destruct (fs !! dir p) as [e|]; [|done].
  destruct (e !! base p); [|done]. injection H as <-.
  by apply lookup_insert_ne.
Qed.

Lemma writeFileSync_read p c fs fs' :
  writeFileSync p c fs = Some fs' → readFileSync p fs' = Some c.
Proof.
  unfold writeFileSync, readFileSync.
  destruct (fs !! dir p); [|done]. intros [= <-].
  rewrite lookup_insert_eq. simpl. apply lookup_insert_eq.
Qed.

Lemma writeFileSync_lookup_ne p c fs fs' d :
  writeFileSync p c fs = Some fs' → d ≠ dir p → fs' !! d = fs !! d.
Proof.
  unfold writeFileSync. destruct (fs !! dir p); [|done]. intros [= <-] Hd.
  by apply lookup_insert_ne.
Qed.

Lemma mkdirSync_is_Some d fs : is_Some (mkdirSync d fs !! d).
Proof.
  unfold mkdirSync. destruct (fs !! d) eqn:Hd; [by rewrite Hd|].
  rewrite lookup_insert_eq. by eexists.
Qed.

Lemma mkdirSync_lookup_ne d d' fs : d' ≠ d → mkdirSync d fs !! d' = fs !! d'.
Proof.
  intros Hne. unfold mkdirSync. destruct (fs !! d); [done|].
  by apply lookup_insert_ne.
Qed.

Lemma mkdirSync_existing d e fs : fs !! d = Some e → mkdirSync d fs = fs.
Proof. unfold mkdirSync. by intros ->. Qed.

Lemma readFileSync_dir_eq p fs fs' :
  fs' !! dir p = fs !! dir p → readFileSync p fs' = readFileSync p fs.
Proof. unfold readFileSync. by intros ->. Qed.

Lemma readdirSync_elem d fs names nm :
  readdirSync d fs = Some names → nm ∈ names →
  is_Some (readFileSync (join d nm) fs).
Proof.
  unfold readdirSync, readFileSync. simpl.
  destruct (fs !! d) as [e|]; [|done]. simpl. intros [= <-] Hin.
  apply list_elem_of_fmap in Hin as [[k c] [-> Hin]].
  apply elem_of_map_to_list in Hin. simpl. by eexists.
Qed.

Lemma readdirSync_NoDup d fs names : readdirSync d fs = Some names → NoDup names.
Proof.
  unfold readdirSync. destruct (fs !! d) as [e|]; [|done]. intros [= <-].
  apply NoDup_fst_map_to_list.
Qed.

(** Calls that put no file at [p]. *)

Lemma absent_exists p fs : absent p fs ↔ existsSync p fs = false.
Proof. unfold absent, existsSync. by destruct (readFileSync p fs). Qed.

Lemma absent_mkdirSync p d fs : absent p fs → absent p (mkdirSync d fs).
Proof.
  unfold absent, mkdirSync, readFileSync. intros H.
  destruct (fs !! d) eqn:Hd; [done|].
  destruct (decide (dir p = d)) as [->|Hne].
  - by rewrite lookup_insert_eq.
  - by rewrite lookup_insert_ne.
Qed.

Lemma absent_writeFileSync p q c fs fs' :
  writeFileSync q c fs = Some fs' → q ≠ p → absent p fs → absent p fs'.
Proof.
  unfold absent, writeFileSync, readFileSync. intros Hw Hne H.
  destruct (fs !! dir q) as [e|] eqn:He; [|done]. simplify_eq.
  destruct (decide (dir p = dir q)) as [Hd|Hd].
  - rewrite Hd, lookup_insert_eq. simpl. rewrite Hd, He in H. simpl in H.
    rewrite lookup_insert_ne; [done|]. intros Hb. apply Hne.
    destruct p, q; simpl in *; congruence.
  - by rewrite lookup_insert_ne.
Qed.

Lemma absent_unlinkSync p q fs fs' :
  unlinkSync q fs = Some fs' → absent p fs → absent p fs'.
Proof.
  unfold absent, unlinkSync, readFileSync. intros Hu H.
  destruct (fs !! dir q) as [e|] eqn:He; [|done].
  destruct (e !! base q); [|done]. simplify_eq.
  destruct (decide (dir p = dir q)) as [Hd|Hd].
  - rewrite Hd, lookup_insert_eq. simpl. rewrite Hd, He in H. simpl in H.
    apply lookup_delete_None. by right.
  - by rewrite lookup_insert_ne.
Qed.

Lemma absent_copyFileSync p src dst fs fs' :
  copyFileSync src dst fs = Some fs' → dst ≠ p → absent p fs → absent p fs'.
Proof.
  unfold copyFileSync. destruct (readFileSync src fs); [|done].
  apply absent_writeFileSync.
Qed.

Lemma absent_renameSync p src dst fs fs' :
  renameSync src dst fs = Some fs' → dst ≠ p → absent p fs → absent p fs'.
Proof.
  unfold renameSync. destruct (readFileSync src fs); [|done].
  destruct (fs !! dir dst); [|done].
  destruct (unlinkSync src fs) as [fs1|] eqn:Hu; [|done]. simpl.
  intros Hw Hne H. eapply absent_writeFileSync; [done..|].
  by eapply absent_unlinkSync.
Qed.

Lemma absent_other_dir p d fs fs' :
  (∀ d', d' ≠ d → fs' !! d' = fs !! d') → dir p ≠ d → absent p fs → absent p fs'.
Proof. unfold absent, readFileSync. intros Hframe Hne. by rewrite Hframe. Qed.

(** Calls that leave the file at [p] as it is. *)

Lemma read_mkdirSync p d fs : readFileSync p (mkdirSync d fs) = readFileSync p fs.
Proof.
  unfold mkdirSync, readFileSync. destruct (fs !! d) eqn:Hd; [done|].
  destruct (decide (dir p = d)) as [->|Hne].
  - by rewrite lookup_insert_eq, Hd.
  - by rewrite lookup_insert_ne.
Qed.

Lemma read_writeFileSync p q c fs fs' :
  writeFileSync q c fs = Some fs' → q ≠ p → readFileSync p fs' = readFileSync p fs.
Proof.
  unfold writeFileSync, readFileSync. intros Hw Hne.
  destruct (fs !! dir q) as [e|] eqn:He; [|done]. simplify_eq.
  destruct (decide (dir p = dir q)) as [Hd|Hd].
  - rewrite Hd, lookup_insert_eq, He. simpl.
    rewrite lookup_insert_ne; [done|]. intros Hb. apply Hne.
    destruct p, q; simpl in *; congruence.
  - by rewrite lookup_insert_ne.
Qed.

Lemma read_unlinkSync p q fs fs' :
  unlinkSync q fs = Some fs' → q ≠ p → readFileSync p fs' = readFileSync p fs.
Proof.
  unfold unlinkSync, readFileSync. intros Hu Hne.
  destruct (fs !! dir q) as [e|] eqn:He; [|done].
  destruct (e !! base q); [|done]. simplify_eq.
  destruct (decide (dir p = dir q)) as [Hd|Hd].
  - rewrite Hd, lookup_insert_eq, He. simpl.
    rewrite lookup_delete_ne; [done|]. intros Hb. apply Hne.
    destruct p, q; simpl in *; congruence.
  - by rewrite lookup_insert_ne.
Qed.

Lemma read_copyFileSync p src dst fs fs' :
  copyFileSync src dst fs = Some fs' → dst ≠ p → readFileSync p fs' = readFileSync p fs.
Proof.
  unfold copyFileSync. destruct (readFileSync src fs); [|done].
  apply read_writeFileSync.
Qed.

Lemma read_renameSync p src dst fs fs' :
  renameSync src dst fs = Some fs' → src ≠ p → dst ≠ p →
  readFileSync p fs' = readFileSync p fs.
Proof.
  unfold renameSync. destruct (readFileSync src fs); [|done].
  destruct (fs !! dir dst); [|done].
  destruct (unlinkSync src fs) as [fs1|] eqn:Hu; [|done]. simpl.
  intros Hw Hsrc Hdst. rewrite (read_writeFileSync _ _ _ _ _ Hw) by done.
  by eapply read_unlinkSync.
Qed.

(** A file that has been moved elsewhere is not where it was. *)
Lemma renameSync_source_absent src dst fs fs' :
  renameSync src dst fs = Some fs' → src ≠ dst → absent src fs'.
Proof.
  unfold renameSync. destruct (readFileSync src fs); [|done].
  destruct (fs !! dir dst); [|done].
  destruct (unlinkSync src fs) as [fs1|] eqn:Hu; [|done]. simpl.
  intros Hw Hne. eapply absent_writeFileSync; [exact Hw|congruence|].
  apply absent_exists. by eapply existsSync_unlinked.
Qed.

Lemma Path_eq_or_ne (p q : Path) : p = q ∨ p ≠ q.
Proof.
  destruct p as [d b], q as [d' b'].
  destruct (decide (d = d')) as [->|Hd]; [|right; congruence].
  destruct (decide (b = b')) as [->|Hb]; [by left|right; congruence].
Qed.

End FsFacts.

(** ** The server *)
Module ServerFacts.
Import Fs FsFacts Server.

(** *** [cleanup] *)

Lemma try_unlink_gone p fs : existsSync p (try_unlink p fs) = false.
Proof.
  unfold try_unlink. destruct (unlinkSync p fs) as [fs'|] eqn:H; simpl.
  - by eapply existsSync_unlinked.
  - by apply unlinkSync_None.
Qed.

Lemma try_unlink_lookup_ne p fs d : d ≠ dir p → try_unlink p fs !! d = fs !! d.
Proof.
  intros Hne. unfold try_unlink.
  destruct (unlinkSync p fs) as [fs'|] eqn:H; simpl; [|done].
  by eapply unlinkSync_lookup_ne.
Qed.

Lemma try_unlink_lookup_dir d nm fs e :
  fs !! d = Some e → try_unlink (join d nm) fs !! d = Some (delete nm e).
Proof.
  intros He. unfold try_unlink.
  destruct (unlinkSync (join d nm) fs) as [fs'|] eqn:H; simpl.
  - by apply (unlinkSync_lookup_dir (join d nm) fs fs' e).
  - rewrite He. f_equal. symmetry. apply delete_id.
    unfold unlinkSync in H. simpl in H. rewrite He in H.
    by destruct (e !! nm).
Qed.

Lemma unlink_each_lookup_dir d names : ∀ fs e,
  fs !! d = Some e →
  foldl (λ acc file, try_unlink (join d file) acc) fs names !! d
  = Some (foldl (λ m nm, delete nm m) e names).
Proof.
  induction names as [|nm names IH]; intros fs e He; simpl; [done|].
  apply IH. by apply try_unlink_lookup_dir.
Qed.

Lemma unlink_each_lookup_ne d d' names : ∀ fs,
  d' ≠ d →
  foldl (λ acc file, try_unlink (join d file) acc) fs names !! d' = fs !! d'.
Proof.
  induction names as [|nm names IH]; intros fs Hne; simpl; [done|].
  rewrite IH by done. by apply try_unlink_lookup_ne.
Qed.

Lemma delete_each_empty (names : list string) : ∀ e : gmap string Content,
  dom e ⊆ list_to_set names → foldl (λ m nm, delete nm m) e names = ∅.
Proof.
  induction names as [|nm names IH]; intros e Hdom; simpl.
  - apply dom_empty_iff_L, elem_of_equiv_empty_L. intros k Hk.
    apply Hdom in Hk. simpl in Hk. by apply not_elem_of_empty in Hk.
  - apply IH. rewrite dom_delete_L. intros k [Hk Hne]%elem_of_difference.
    apply Hdom in Hk. simpl in Hk.
    apply elem_of_union in Hk as [Hk|Hk]; [by destruct Hne|done].
Qed.

Lemma dom_listed (e : gmap string Content) :
  dom e ⊆ list_to_set (map_to_list e).*1.
Proof.
  intros k [c Hc]%elem_of_dom. apply elem_of_list_to_set.
  apply list_elem_of_fmap. exists (k, c). split; [done|].
  by apply elem_of_map_to_list.
Qed.

(** [cleanup] leaves no directory of that name. *)
Lemma cleanup_removes d fs : cleanup d fs !! d = None.
Proof.
  unfold cleanup, existsSync_dir, readdirSync.
  destruct (fs !! d) as [e|] eqn:He; simpl; [|done].
  pose proof (unlink_each_lookup_dir d (map_to_list e).*1 fs e He) as Hfold.
  rewrite (delete_each_empty _ e (dom_listed e)) in Hfold.
  unfold rmdirSync. rewrite Hfold, map_to_list_empty. simpl.
  apply lookup_delete_eq.
Qed.

(** [cleanup] touches no other directory. *)
Lemma cleanup_lookup_ne d d' fs : d' ≠ d → cleanup d fs !! d' = fs !! d'.
Proof.
  intros Hne. unfold cleanup, existsSync_dir, readdirSync.
  destruct (fs !! d) as [e|] eqn:He; simpl; [|done].
  pose proof (unlink_each_lookup_dir d (map_to_list e).*1 fs e He) as Hfold.
  rewrite (delete_each_empty _ e (dom_listed e)) in Hfold.
  unfold rmdirSync. rewrite Hfold, map_to_list_empty. simpl.
  rewrite lookup_delete_ne by done. by apply unlink_each_lookup_ne.
Qed.

(** *** Names of directories *)

Lemma uuid_length (u : Uuid) : String.length (uuid_str u) = 36.
Proof.
  destruct u as [s Hs]. simpl. unfold is_uuid in Hs.
  apply andb_true_iff in Hs as [Hlen _]. by apply Nat.eqb_eq in Hlen.
Qed.

Lemma length_app_string (a b : string) :
  String.length (a +:+ b) = String.length a + String.length b.
Proof. induction a as [|c a IH]; simpl; [done|]. by rewrite IH. Qed.

Lemma workdir_not_filesDir wid : workdir_of wid ≠ filesDir.
Proof.
  intros H. apply (f_equal String.length) in H. unfold workdir_of in H.
  rewrite length_app_string, uuid_length in H. simpl in H. lia.
Qed.

(** *** What a request puts on disk *)

Lemma prefixed_uuid_not_filesDir (prefix : string) (wid : Uuid) :
  String.length prefix + 36 ≠ 13 → prefix +:+ uuid_str wid ≠ filesDir.
Proof.
  intros Hlen H. apply (f_equal String.length) in H.
  rewrite length_app_string, uuid_length in H. simpl in H. lia.
Qed.

Lemma string_app_inj_prefix (a a' b b' : string) :
  String.length a = String.length a' → a +:+ b = a' +:+ b' → a = a'.
Proof.
  revert a'. induction a as [|c a IH]; intros [|c' a'] Hlen Heq; simpl in *;
    try done.
  injection Heq as -> Heq. f_equal. apply IH; [lia|done].
Qed.

Lemma absent_try_unlink p q fs : absent p fs → absent p (try_unlink q fs).
Proof.
  intros H. unfold try_unlink. destruct (unlinkSync q fs) eqn:Hu; simpl; [|done].
  by eapply absent_unlinkSync.
Qed.

Lemma absent_create_file p q c fs : q ≠ p → absent p fs → absent p (create_file q c fs).
Proof.
  intros Hne H. unfold create_file.
  destruct (writeFileSync q c fs) eqn:Hw; simpl; [|done].
  by eapply absent_writeFileSync.
Qed.

Lemma absent_tool_writes p outdir files fs :
  dir p ≠ outdir → absent p fs → absent p (tool_writes outdir files fs).
Proof.
  intros Hne. apply (absent_other_dir p outdir). 2: done.
  intros d' Hd'. unfold tool_writes. destruct (fs !! outdir); [|done].
  by rewrite lookup_insert_ne.
Qed.

Lemma absent_cleanup p d fs : absent p fs → absent p (cleanup d fs).
Proof.
  intros H. destruct (decide (dir p = d)) as [<-|Hne].
  - unfold absent, readFileSync. by rewrite cleanup_removes.
  - eapply (absent_other_dir p d); [|done..]. intros d' Hd'. by apply cleanup_lookup_ne.
Qed.

Lemma absent_store_uploads p files : ∀ fs,
  dir p ≠ uploads → absent p fs → absent p (store_uploads files fs).
Proof.
  unfold store_uploads.
  induction files as [|f rest IH]; intros fs Hne H; simpl; [done|].
  apply IH; [done|]. eapply (absent_other_dir p uploads); [|done..].
  intros d' Hd'. by rewrite lookup_insert_ne.
Qed.

Lemma absent_move_uploads p workdir files : ∀ fs fs',
  dir p ≠ workdir → absent p fs →
  (move_uploads workdir files fs = Done fs' ∨ move_uploads workdir files fs = Threw fs') →
  absent p fs'.
Proof.
  induction files as [|f rest IH]; intros fs fs' Hne H; simpl.
  - intros [?|?]; by simplify_eq.
  - destruct (renameSync _ _ fs) as [fs1|] eqn:Hr.
    + apply IH; [done|]. eapply absent_renameSync; [done| |done].
      intros <-. by apply Hne.
    + intros [?|?]; by simplify_eq.
Qed.

Lemma absent_convert_loop p workdir tool files : ∀ i fs log,
  dir p ≠ workdir → absent p fs →
  absent p (convert_loop workdir files i tool fs log).1.1.
Proof.
  induction files as [|f rest IH]; intros i fs log Hne H; simpl; [done|].
  destruct (convertWithSoffice (tool i)); simpl.
  - by apply absent_tool_writes.
  - apply IH; [done|]. by apply absent_tool_writes.
Qed.

Lemma absent_unlink_uploads p (files : list UploadedFile) : ∀ fs,
  absent p fs → absent p (foldl (λ acc f, try_unlink (upload_path f) acc) fs files).
Proof.
  induction files as [|f rest IH]; intros fs H; simpl; [done|].
  by apply IH, absent_try_unlink.
Qed.

Lemma absent_convert_handler p files wid id tool zipError st :
  dir p = filesDir → (∀ ext, base p ≠ uuid_str id +:+ ext) →
  absent p (disk st) →
  absent p (disk (after (convert_handler files wid id tool zipError st))).
Proof.
  intros Hdir Hbase H.
  pose proof (workdir_not_filesDir wid) as Hwd.
  assert (dir p ≠ workdir_of wid) as Hne by (rewrite Hdir; congruence).
  assert (∀ ext, join filesDir (uuid_str id +:+ ext) ≠ p) as Hdest.
  { intros ext <-. by apply (Hbase ext). }
  unfold convert_handler, server_error.
  destruct files as [|f rest] eqn:Hfiles; [done|]. rewrite <- Hfiles. clear Hfiles.
  destruct (move_uploads _ _ _) as [fs1|fs1] eqn:Hmove.
  2:{ simpl. apply absent_cleanup, absent_unlink_uploads.
      eapply absent_move_uploads; [exact Hne| |right; exact Hmove].
      by apply absent_mkdirSync. }
  assert (absent p fs1) as H1.
  { eapply absent_move_uploads; [exact Hne| |left; exact Hmove].
    by apply absent_mkdirSync. }
  pose proof (absent_convert_loop p (workdir_of wid) tool files 0 fs1 [] Hne H1) as H2.
  destruct (convert_loop _ _ _ _ _ _) as [[fs2 log] failure]. simpl in H2.
  destruct failure as [[nm message]|]; [simpl; by apply absent_cleanup|].
  destruct (readdirSync _ _) as [names|];
    [|simpl; by apply absent_cleanup, absent_unlink_uploads].
  destruct (filter _ names) as [|pdf [|pdf2 more]]; simpl.
  - by apply absent_cleanup.
  - destruct (copyFileSync _ _ _) as [fs4|] eqn:Hcopy; simpl.
    + apply absent_cleanup. eapply absent_copyFileSync; [done|apply Hdest|].
      by apply absent_mkdirSync.
    + by apply absent_cleanup, absent_unlink_uploads, absent_mkdirSync.
  - destruct zipError; simpl; apply absent_cleanup;
      repeat (apply absent_create_file; [apply Hdest|]); by apply absent_mkdirSync.
Qed.

Lemma absent_preview_pdf_handler p file wid run st :
  dir p = filesDir → absent p (disk st) →
  absent p (disk (after (preview_pdf_handler file wid run st))).
Proof.
  intros Hdir H.
  assert (dir p ≠ "ppt_preview_pdf_" +:+ uuid_str wid) as Hne.
  { rewrite Hdir. intros Heq. symmetry in Heq. revert Heq.
    by apply prefixed_uuid_not_filesDir. }
  unfold preview_pdf_handler, preview_server_error.
  destruct file as [f|]; [|done].
  destruct (renameSync _ _ _) as [fs1|] eqn:Hr; simpl.
  2:{ by apply absent_cleanup, absent_try_unlink, absent_mkdirSync. }
  assert (absent p (tool_writes ("ppt_preview_pdf_" +:+ uuid_str wid)
                                (written run) fs1)) as H2.
  { apply absent_tool_writes; [done|].
    eapply absent_renameSync; [done| |by apply absent_mkdirSync].
    intros <-. by apply Hne. }
  repeat case_match; simpl; by apply absent_cleanup.
Qed.

Lemma absent_preview_handler p file wid id run st :
  dir p = filesDir → absent p (disk st) →
  absent p (disk (after (preview_handler file wid id run st))).
Proof.
  intros Hdir H.
  assert (dir p ≠ "ppt_preview_" +:+ uuid_str wid) as Hne.
  { rewrite Hdir. intros Heq. symmetry in Heq. revert Heq.
    by apply prefixed_uuid_not_filesDir. }
  assert (∀ b, join previewDir b ≠ p) as Hdest.
  { intros b <-. simpl in Hdir. done. }
  unfold preview_handler, preview_server_error.
  destruct file as [f|]; [|done].
  destruct (renameSync _ _ _) as [fs1|] eqn:Hr; simpl.
  2:{ by apply absent_cleanup, absent_try_unlink, absent_mkdirSync. }
  assert (absent p (tool_writes ("ppt_preview_" +:+ uuid_str wid)
                                (written run) fs1)) as H2.
  { apply absent_tool_writes; [done|].
    eapply absent_renameSync; [done| |by apply absent_mkdirSync].
    intros <-. by apply Hne. }
  repeat case_match; simpl; apply absent_cleanup;
    first [ done
          | by apply absent_mkdirSync
          | eapply absent_copyFileSync; [eassumption|apply Hdest|];
            by apply absent_mkdirSync ].
Qed.

(** *** What a request does to the process *)

Lemma multer_accepts n parts files : multer n parts = inr files → files = parts.
Proof.
  revert n files. induction parts as [|f rest IH]; intros n files; simpl.
  - intros H. by simplify_eq.
  - destruct (negb (String.eqb (fieldname f) "file")); [done|].
    destruct n as [|n]; [done|]. destruct (fileFilter f); [done|].
    destruct (multer n rest) as [|files'] eqn:Hrest; [done|].
    intros H. simplify_eq. f_equal. by eapply IH.
Qed.

Lemma multer_filtered n parts files f :
  multer n parts = inr files → f ∈ parts → fileFilter f = None.
Proof.
  revert n files. induction parts as [|g rest IH]; intros n files; simpl.
  - by intros _ ?%elem_of_nil.
  - destruct (negb (String.eqb (fieldname g) "file")); [done|].
    destruct n as [|n]; [done|]. destruct (fileFilter g) eqn:Hg; [done|].
    destruct (multer n rest) as [|files'] eqn:Hrest; [done|].
    intros _ [->|Hin]%elem_of_cons; [done|]. by eapply IH.
Qed.

(** A request to [POST /convert] changes the disk and nothing else, unless
    it answers 200: then it has also made one registry entry, under its
    [id], with its timer, for a file in [filesDir] named by the [id]. *)
Lemma convert_handler_after files wid id tool zipError st :
  let o := convert_handler files wid id tool zipError st in
  (statusCode (response o) ≠ 200 ∧ ∃ fs, after o = set_disk fs st)
  ∨ (statusCode (response o) = 200
     ∧ ∃ fs info, after o = set_disk fs (register (uuid_str id) info st)
                  ∧ ∃ ext, path info = join filesDir (uuid_str id +:+ ext)).
Proof.
  unfold convert_handler, server_error.
  repeat case_match; simpl;
    first [ left; split; [discriminate | eexists; reflexivity]
          | left; split; [discriminate | exists (disk st); by destruct st]
          | right; split;
            [reflexivity
            | do 2 eexists; split; [reflexivity | eexists; reflexivity]] ].
Qed.

(** *** The conversion loop *)

Lemma convert_loop_rejected workdir tool files : ∀ i fs log j,
  j < length files → rejected (tool (i + j)) = true →
  ∃ nm message,
    (convert_loop workdir files i tool fs log).2 = Some (nm, message).
Proof.
  induction files as [|f rest IH]; intros i fs log j Hj Hrej; simpl in *; [lia|].
  unfold convertWithSoffice.
  destruct j as [|j].
  - rewrite Nat.add_0_r in Hrej. unfold rejected in Hrej.
    destruct (ending (tool i)); simpl; eauto. done.
  - destruct (ending (tool i)); simpl; eauto.
    apply (IH (S i) _ _ j); [lia|]. by replace (S i + j) with (i + S j) by lia.
Qed.

Lemma convert_loop_closed workdir tool files : ∀ i fs log,
  (∀ j, j < length files → rejected (tool (i + j)) = false) →
  (convert_loop workdir files i tool fs log).2 = None.
Proof.
  induction files as [|f rest IH]; intros i fs log Hall; simpl in *; [done|].
  unfold convertWithSoffice.
  pose proof (Hall 0 ltac:(lia)) as H0. rewrite Nat.add_0_r in H0.
  unfold rejected in H0. destruct (ending (tool i)); try done.
  apply IH. intros j Hj. replace (S i + j) with (i + S j) by lia.
  apply Hall. lia.
Qed.

Lemma convert_loop_exit_zero workdir tool files : ∀ i fs log,
  convert_loop workdir files i (λ k, exit_zero (tool k)) fs log
  = convert_loop workdir files i tool fs log.
Proof.
  induction files as [|f rest IH]; intros i fs log; simpl; [done|].
  unfold convertWithSoffice. simpl.
  destruct (ending (tool i)); simpl; [done|done|]. apply IH.
Qed.

(** The handler never looks at an exit code. *)
Lemma convert_handler_exit_zero files wid id tool zipError st :
  convert_handler files wid id (λ k, exit_zero (tool k)) zipError st
  = convert_handler files wid id tool zipError st.
Proof.
  unfold convert_handler. destruct files as [|f rest]; [done|].
  destruct (move_uploads _ _ _) as [fs1|fs]; [|done].
  by rewrite convert_loop_exit_zero.
Qed.

(** Whatever way the handler takes once it has files, its scratch directory
    is gone when it responds. *)
Lemma convert_handler_scratch files wid id tool zipError st :
  files ≠ [] →
  disk (after (convert_handler files wid id tool zipError st)) !! workdir_of wid
  = None.
Proof.
  intros Hfiles. unfold convert_handler, server_error.
  repeat case_match; simpl; first [done | apply cleanup_removes].
Qed.

Lemma convert_handler_rejected files wid id tool zipError st j :
  j < length files → rejected (tool j) = true →
  let o := convert_handler files wid id tool zipError st in
  statusCode (response o) = 500 ∧ is_error (body (response o)) = true
  ∧ ∃ fs, after o = set_disk fs st.
Proof.
  intros Hj Hrej. unfold convert_handler, server_error.
  destruct files as [|f rest] eqn:Hfiles; [simpl in Hj; lia|]. rewrite <- Hfiles in *.
  destruct (move_uploads _ _ _) as [fs1|fs]; simpl; [|eauto].
  destruct (convert_loop_rejected (workdir_of wid) tool files 0 fs1 [] j Hj Hrej)
    as (nm & message & Hfail).
  destruct (convert_loop _ _ _ _ _ _) as [[fs2 log] failure].
  simpl in Hfail. subst failure. simpl. eauto.
Qed.

(** *** The upload filter *)

Lemma fileFilter_refuses f : allowed_extension f = false → fileFilter f ≠ None.
Proof. unfold allowed_extension, fileFilter. by intros ->. Qed.

Lemma multer_refuses n parts f :
  f ∈ parts → allowed_extension f = false → ∃ message, multer n parts = inl message.
Proof.
  intros Hin Hext. destruct (multer n parts) as [message|files] eqn:Hm; [eauto|].
  by destruct (fileFilter_refuses f Hext), (multer_filtered n parts files f).
Qed.

(** C4.  One file whose lowercased extension is neither [.ppt] nor [.pptx]
    among the uploaded files, and each of [POST /convert], [POST /preview]
    and [POST /preview-pdf] answers with an error before its handler runs:
    status 500 from the error handler, the conversion tool not started once,
    nothing changed in the process. *)
Theorem upload_filter_refuses_other_extensions
  (parts : list UploadedFile) (f : UploadedFile) (wid id : Uuid)
  (tool : nat → ToolRun) (zipError : option string) (run : ToolRun) (st : State) :
  f ∈ parts → allowed_extension f = false →
  refused st (post_convert parts wid id tool zipError st)
  ∧ refused st (post_preview parts wid id run st)
  ∧ refused st (post_preview_pdf parts wid run st).
Proof.
  intros Hin Hext. unfold post_convert, post_preview, post_preview_pdf.
  destruct (multer_refuses 50 parts f Hin Hext) as [m50 ->].
  destruct (multer_refuses 1 parts f Hin Hext) as [m1 ->].
  unfold refused, express_error; simpl. repeat split; eauto.
Qed.

Lemma upload_filter_refuses_other_extensions_witness :
  refused boot (post_convert [slides; report] uuid_a uuid_b tool_ok None boot)
  ∧ refused boot (post_preview [slides; report] uuid_a uuid_b run_png boot)
  ∧ refused boot (post_preview_pdf [slides; report] uuid_a run_png boot).
Proof.
  apply (upload_filter_refuses_other_extensions [slides; report] report).
  - apply list_elem_of_further, list_elem_of_here.
  - reflexivity.
Defined.

(** *** Failed conversions *)

Lemma post_convert_register_none parts wid id tool zipError st :
  let o := post_convert parts wid id tool zipError st in
  statusCode (response o) ≠ 200 →
  generatedFiles (after o) = generatedFiles st ∧ timers (after o) = timers st.
Proof.
  unfold post_convert. destruct (multer 50 parts) as [message|files]; [done|].
  intros Hcode.
  destruct (convert_handler_after files wid id tool zipError
              (set_disk (store_uploads files (disk st)) st))
    as [[_ [fs ->]]|[Hok _]]; done.
Qed.

(** C3, as the code has it.  When the promise of [convertWithSoffice] is
    rejected for one of the files (the tool timed out or could not be
    started), [POST /convert] answers 500 with an error message and registers
    nothing.  The exit code of a run that closes is not looked at: the
    request goes the same way with every code replaced by 0.  Whenever the
    answer is not 200, no artifact has been registered and no timer set; and
    runs that all close leave the request to fail with 500 when the scratch
    directory then holds no PDF. *)
Theorem conversion_failure_is_reported
  (parts : list UploadedFile) (wid id : Uuid) (tool : nat → ToolRun)
  (zipError : option string) (st : State) :
  let o := post_convert parts wid id tool zipError st in
  (∀ j, j < length parts → rejected (tool j) = true →
     statusCode (response o) = 500 ∧ is_error (body (response o)) = true
     ∧ generatedFiles (after o) = generatedFiles st
     ∧ timers (after o) = timers st)
  ∧ post_convert parts wid id (λ k, exit_zero (tool k)) zipError st = o
  ∧ (statusCode (response o) ≠ 200 →
     generatedFiles (after o) = generatedFiles st ∧ timers (after o) = timers st)
  ∧ (∀ fs, multer 50 parts = inr parts →
     produced_pdfs parts wid tool (set_disk (store_uploads parts (disk st)) st)
       = Some ([], fs) →
     response o = {| statusCode := 500;
                     body := JsonError "Conversion failed: no PDF produced." None |}).
Proof.
  simpl. split; [|split; [|split]].
  - intros j Hj Hrej.
    assert (statusCode (response (post_convert parts wid id tool zipError st)) = 500
            ∧ is_error (body (response (post_convert parts wid id tool zipError st)))
              = true) as [Hcode Herr].
    { unfold post_convert. destruct (multer 50 parts) as [message|files] eqn:Hm; [done|].
      apply multer_accepts in Hm as ->.
      by destruct (convert_handler_rejected parts wid id tool zipError
                     (set_disk (store_uploads parts (disk st)) st) j Hj Hrej)
        as (? & ? & _). }
    split; [done|]. split; [done|].
    apply post_convert_register_none. rewrite Hcode. discriminate.
  - unfold post_convert. destruct (multer 50 parts); [done|].
    apply convert_handler_exit_zero.
  - apply post_convert_register_none.
  - intros fs Hm Hpdfs. unfold post_convert. rewrite Hm.
    unfold produced_pdfs in Hpdfs. unfold convert_handler.
    destruct parts as [|f rest] eqn:Hparts; [done|]. rewrite <- Hparts in *.
    destruct (move_uploads _ _ _) as [fs1|]; [|done].
    destruct (convert_loop _ _ _ _ _ _) as [[fs2 log] [failure|]]; [done|].
    destruct (readdirSync _ _) as [names|]; [|done]. simpl in Hpdfs.
    injection Hpdfs as -> _. done.
Qed.

Lemma conversion_failure_is_reported_witness :
  let o := post_convert [slides] uuid_a uuid_b tool_hangs None boot in
  statusCode (response o) = 500 ∧ is_error (body (response o)) = true
  ∧ generatedFiles (after o) = generatedFiles boot
  ∧ timers (after o) = timers boot.
Proof.
  apply (proj1 (conversion_failure_is_reported [slides] uuid_a uuid_b
                  tool_hangs None boot) 0).
  - simpl. lia.
  - reflexivity.
Defined.

(** The claim fails where a run closes with an exit code other than 0: the
    second of two files is not converted (exit code 1, nothing written), and
    the request is answered 200 with the first file's PDF registered. *)
Lemma nonzero_exit_is_not_reported :
  let o := post_convert [slides; talk] uuid_a uuid_b tool_second_exits_1 None boot in
  ending (tool_second_exits_1 1) = Close (Some 1%Z)
  ∧ response o = {| statusCode := 200;
                    body := JsonDownload "/download/00000000-0000-4000-8000-00000000000b"
                                         "slides.pdf" |}
  ∧ generatedFiles (after o) !! uuid_str uuid_b
    = Some {| path := join filesDir "00000000-0000-4000-8000-00000000000b.pdf";
              downloadName := "slides.pdf" |}.
Proof. vm_compute. done. Qed.

(** *** The scratch directory *)

Lemma post_convert_scratch parts wid id tool zipError st :
  let o := post_convert parts wid id tool zipError st in
  disk (after o) !! workdir_of wid = None ∨ after o = st.
Proof.
  unfold post_convert. destruct (multer 50 parts) as [message|files]; [by right|].
  destruct files as [|f rest].
  - right. by destruct st.
  - left. by apply convert_handler_scratch.
Qed.

Lemma timeout_rejected run : ending run = Timeout → rejected run = true.
Proof. unfold rejected. by intros ->. Qed.

(** C6.  A request to [POST /convert] in which a run of the tool times out
    is answered 500, and when that response is sent the request's scratch
    directory does not exist.  On every way out of the endpoint, success or
    failure, the scratch directory does not exist at the response, or the
    request has changed nothing at all (it was turned away before a scratch
    directory was made). *)
Theorem scratch_directory_is_cleaned
  (parts : list UploadedFile) (wid id : Uuid) (tool : nat → ToolRun)
  (zipError : option string) (st : State) :
  let o := post_convert parts wid id tool zipError st in
  (∀ j, multer 50 parts = inr parts → j < length parts →
        ending (tool j) = Timeout →
        statusCode (response o) = 500
        ∧ existsSync_dir (workdir_of wid) (disk (after o)) = false)
  ∧ (disk (after o) !! workdir_of wid = None ∨ after o = st).
Proof.
  simpl. split; [|apply post_convert_scratch].
  intros j Hm Hj Htimeout. apply timeout_rejected in Htimeout.
  unfold post_convert. rewrite Hm.
  destruct (convert_handler_rejected parts wid id tool zipError
              (set_disk (store_uploads parts (disk st)) st) j Hj Htimeout)
    as (Hcode & _ & _).
  split; [done|]. unfold existsSync_dir.
  rewrite convert_handler_scratch; [done|].
  intros ->. simpl in Hj. lia.
Qed.

Lemma scratch_directory_is_cleaned_witness :
  let o := post_convert [slides] uuid_a uuid_b tool_hangs None boot in
  statusCode (response o) = 500
  ∧ existsSync_dir (workdir_of uuid_a) (disk (after o)) = false.
Proof.
  apply (proj1 (scratch_directory_is_cleaned [slides] uuid_a uuid_b
                  tool_hangs None boot) 0).
  - reflexivity.
  - simpl. lia.
  - reflexivity.
Defined.

(** *** The registered artifact *)

Lemma create_file_read p c fs :
  is_Some (fs !! dir p) → readFileSync p (create_file p c fs) = Some c.
Proof.
  intros [d Hd]. unfold create_file.
  destruct (writeFileSync p c fs) as [fs'|] eqn:Hw; simpl.
  - by eapply writeFileSync_read.
  - unfold writeFileSync in Hw. by rewrite Hd in Hw.
Qed.

Lemma create_file_lookup_ne p c fs d :
  d ≠ dir p → create_file p c fs !! d = fs !! d.
Proof.
  intros Hne. unfold create_file.
  destruct (writeFileSync p c fs) as [fs'|] eqn:Hw; simpl; [|done].
  by eapply writeFileSync_lookup_ne.
Qed.

Lemma create_file_is_Some p c fs :
  is_Some (fs !! dir p) → is_Some (create_file p c fs !! dir p).
Proof.
  intros [d Hd]. unfold create_file, writeFileSync. rewrite Hd. simpl.
  rewrite lookup_insert_eq. by eexists.
Qed.

Lemma zip_entries_names workdir fs : ∀ pdfFiles,
  (∀ pdf, pdf ∈ pdfFiles → is_Some (readFileSync (join workdir pdf) fs)) →
  (zip_entries workdir pdfFiles fs).*1 = pdfFiles.
Proof.
  induction pdfFiles as [|pdf rest IH]; intros Hall; [done|].
  unfold zip_entries in *. simpl.
  destruct (Hall pdf (list_elem_of_here _ _)) as [c ->]. simpl. f_equal.
  apply IH. intros pdf' Hin. apply Hall. by apply list_elem_of_further.
Qed.

Lemma zip_entries_content workdir fs pdf c : ∀ pdfFiles,
  (pdf, c) ∈ zip_entries workdir pdfFiles fs →
  readFileSync (join workdir pdf) fs = Some c.
Proof.
  unfold zip_entries. intros pdfFiles Hin.
  apply list_elem_of_omap in Hin as (pdf' & _ & Hread).
  destruct (readFileSync (join workdir pdf') fs) as [c'|] eqn:Hc; [|done].
  simpl in Hread. by simplify_eq.
Qed.

(** C5.  A request to [POST /convert] that is answered 200 has registered
    one artifact, under the request's [id] and no other.  [pdfFiles] are the
    PDFs found in the scratch directory after the conversions and [fs2] is
    the disk at that moment.  With exactly one PDF, the entry is a copy of it,
    offered for download under the PDF's own file name.  With more than one,
    the entry is one zip archive with one entry per PDF, in the same order
    and under the same names, each holding that PDF. *)
Theorem successful_conversion_registers_one_artifact
  (parts : list UploadedFile) (wid id : Uuid) (tool : nat → ToolRun)
  (zipError : option string) (st : State) :
  let o := post_convert parts wid id tool zipError st in
  statusCode (response o) = 200 →
  ∃ pdfFiles fs2 info,
    produced_pdfs parts wid tool (set_disk (store_uploads parts (disk st)) st)
      = Some (pdfFiles, fs2)
    ∧ NoDup pdfFiles
    ∧ generatedFiles (after o) = <[uuid_str id := info]> (generatedFiles st)
    ∧ dom (generatedFiles (after o)) = {[uuid_str id]} ∪ dom (generatedFiles st)
    ∧ (∀ pdf, pdfFiles = [pdf] →
         info = {| path := join filesDir
                             (uuid_str id
                              +:+ Js.extname (path_string (join (workdir_of wid) pdf)));
                   downloadName := pdf |}
         ∧ response o = {| statusCode := 200;
                           body := JsonDownload ("/download/" +:+ uuid_str id) pdf |}
         ∧ is_Some (readFileSync (path info) (disk (after o)))
         ∧ readFileSync (path info) (disk (after o))
           = readFileSync (join (workdir_of wid) pdf) fs2)
    ∧ (1 < length pdfFiles →
         info = {| path := join filesDir (uuid_str id +:+ ".zip");
                   downloadName := "converted-pdfs.zip" |}
         ∧ response o = {| statusCode := 200;
                           body := JsonDownload ("/download/" +:+ uuid_str id)
                                                "converted-pdfs.zip" |}
         ∧ ∃ entries,
             readFileSync (path info) (disk (after o)) = Some (ZipArchive entries)
             ∧ entries.*1 = pdfFiles
             ∧ ∀ pdf c, (pdf, c) ∈ entries →
                 readFileSync (join (workdir_of wid) pdf) fs2 = Some c).
Proof.
  pose proof (workdir_not_filesDir wid) as Hdirs.
  unfold post_convert.
  destruct (multer 50 parts) as [message|files] eqn:Hm; [done|].
  apply multer_accepts in Hm as ->.
  unfold convert_handler, produced_pdfs, server_error.
  destruct parts as [|f rest] eqn:Hfiles; [done|]. rewrite <- Hfiles. clear Hfiles.
  destruct (move_uploads _ _ _) as [fs1|]; [|done].
  destruct (convert_loop _ _ _ _ _ _) as [[fs2 log] [[nm message]|]]; [done|].
  destruct (readdirSync (workdir_of wid) fs2) as [names|] eqn:Hnames; [|done].
  simpl.
  assert (NoDup (filter (λ fn, is_pdf fn = true) names)) as Hnodup.
  { apply NoDup_filter. by eapply readdirSync_NoDup. }
  assert (∀ pdf, pdf ∈ filter (λ fn, is_pdf fn = true) names →
            is_Some (readFileSync (join (workdir_of wid) pdf) fs2)) as Hthere.
  { intros pdf [_ Hin]%list_elem_of_filter. by eapply readdirSync_elem. }
  destruct (filter (λ fn, is_pdf fn = true) names) as [|pdf [|pdf2 more]] eqn:Hpdfs;
    [done| |].
  - destruct (copyFileSync _ _ _) as [fs4|] eqn:Hcopy; [|done]. intros _.
    eexists [pdf], fs2, _. split; [done|]. split; [done|]. split; [reflexivity|].
    split; [simpl; apply dom_insert_L|]. split; [|simpl; lia].
    intros pdf' H. simplify_eq. split; [done|]. split; [done|]. simpl.
    unfold copyFileSync in Hcopy.
    destruct (readFileSync (join (workdir_of wid) pdf') (mkdirSync filesDir fs2))
      as [c|] eqn:Hc; [|done].
    apply writeFileSync_read in Hcopy.
    assert (readFileSync (join (workdir_of wid) pdf') fs2 = Some c) as ->.
    { rewrite <- Hc. symmetry. apply readFileSync_dir_eq. simpl.
      by apply mkdirSync_lookup_ne. }
    rewrite (readFileSync_dir_eq _ fs4).
    + by rewrite Hcopy.
    + simpl. apply cleanup_lookup_ne. done.
  - destruct zipError as [message|]; [done|]. intros _.
    eexists (pdf :: pdf2 :: more), fs2, _.
    split; [done|]. split; [done|]. split; [reflexivity|].
    split; [simpl; apply dom_insert_L|].
    split; [intros pdf' H; simplify_eq|]. intros _.
    split; [done|]. split; [done|]. simpl.
    set (zipPath := join filesDir (uuid_str id +:+ ".zip")).
    set (fs3 := mkdirSync filesDir fs2).
    set (fs4 := create_file zipPath (ZipArchive []) fs3).
    assert (∀ p, dir p = workdir_of wid → readFileSync p fs4 = readFileSync p fs2)
      as Hsame.
    { intros p Hp. apply readFileSync_dir_eq. rewrite Hp. unfold fs4.
      rewrite create_file_lookup_ne by done. by apply mkdirSync_lookup_ne. }
    eexists. split; [|split].
    + rewrite (readFileSync_dir_eq _
                 (create_file zipPath
                    (ZipArchive (zip_entries (workdir_of wid) (pdf :: pdf2 :: more) fs4))
                    fs4)).
      * apply create_file_read. apply create_file_is_Some, mkdirSync_is_Some.
      * simpl. apply cleanup_lookup_ne. done.
    + apply zip_entries_names. intros pdf' Hin. rewrite Hsame by done.
      by apply Hthere.
    + intros pdf' c Hin. rewrite <- Hsame by done.
      by eapply zip_entries_content.
Qed.

Lemma successful_conversion_registers_one_artifact_witness :
  statusCode (response (post_convert [slides; talk] uuid_a uuid_b tool_ok None boot))
  = 200
  ∧ ∃ info,
      generatedFiles (after (post_convert [slides; talk] uuid_a uuid_b tool_ok None boot))
      = <[uuid_str uuid_b := info]> (generatedFiles boot).
Proof.
  assert (statusCode (response (post_convert [slides; talk] uuid_a uuid_b
                                             tool_ok None boot)) = 200) as Hok.
  { vm_compute. reflexivity. }
  split; [exact Hok|].
  destruct (successful_conversion_registers_one_artifact
              [slides; talk] uuid_a uuid_b tool_ok None boot Hok)
    as (pdfFiles & fs2 & info & _ & _ & Hreg & _).
  exists info. exact Hreg.
Defined.

(** Two uploads, two PDFs: the registered file is an archive of both. *)
Example two_uploads_one_archive :
  let o := post_convert [slides; talk] uuid_a uuid_b tool_ok None boot in
  ∃ entries,
    readFileSync (join filesDir (uuid_str uuid_b +:+ ".zip")) (disk (after o))
    = Some (ZipArchive entries)
    ∧ entries ≡ₚ [("slides.pdf", Blob 11); ("talk.pdf", Blob 12)].
Proof. vm_compute. eexists. split; [reflexivity|]. by repeat constructor. Qed.

(** *** Retrieval *)

Lemma js_get_own {A} (obj : gmap string A) key a :
  obj !! key = Some a → js_get obj key = Own a.
Proof. unfold js_get. by intros ->. Qed.

Lemma js_get_not_own {A} (obj : gmap string A) key :
  obj !! key = None → js_get obj key = Inherited ∨ js_get obj key = Undefined.
Proof. unfold js_get. intros ->. case_bool_decide; auto. Qed.

Lemma get_download_absent id st :
  generatedFiles st !! id = None →
  get_download id st = (not_found "File not found or expired.", st).
Proof.
  intros Hnone. unfold get_download.
  by destruct (js_get_not_own _ _ Hnone) as [-> | ->].
Qed.

Lemma get_download_stale id info st :
  generatedFiles st !! id = Some info → existsSync (path info) (disk st) = false →
  get_download id st = (not_found "File not found or expired.", st).
Proof.
  intros Hinfo Hgone. unfold get_download.
  by rewrite (js_get_own _ _ _ Hinfo), Hgone.
Qed.

Lemma get_download_served id info st :
  generatedFiles st !! id = Some info → existsSync (path info) (disk st) = true →
  ∃ name,
    get_download id st
    = ({| statusCode := 200; body := Attachment (path info) name |},
       set_transfers (transfers st ++ [(id, info)]) st).
Proof.
  intros Hinfo Hthere. unfold get_download.
  rewrite (js_get_own _ _ _ Hinfo), Hthere. eauto.
Qed.

(** C9.  [GET /download/:id] answers 404, and leaves the process as it is,
    when the registry has no entry for the id and also when it has one whose
    file is not on disk; an answer 200 means a registry entry with its file
    on disk. *)
Theorem download_not_found_when_absent_or_stale (id : string) (st : State) :
  (generatedFiles st !! id = None
   ∨ (∃ info, generatedFiles st !! id = Some info
              ∧ existsSync (path info) (disk st) = false) →
   get_download id st = (not_found "File not found or expired.", st))
  ∧ (statusCode (get_download id st).1 = 200 →
     ∃ info, generatedFiles st !! id = Some info
             ∧ existsSync (path info) (disk st) = true).
Proof.
  split.
  - intros [Hnone | (info & Hinfo & Hgone)].
    + by apply get_download_absent.
    + by eapply get_download_stale.
  - destruct (generatedFiles st !! id) as [info|] eqn:Hinfo.
    + destruct (existsSync (path info) (disk st)) eqn:Hthere; [eauto|].
      by rewrite (get_download_stale id info st).
    + by rewrite get_download_absent.
Qed.

(** *** What each event leaves alone *)

Lemma preview_pdf_handler_after file wid run st :
  ∃ fs, after (preview_pdf_handler file wid run st) = set_disk fs st.
Proof.
  unfold preview_pdf_handler, preview_server_error.
  repeat case_match; simpl;
    first [ eexists; reflexivity | exists (disk st); by destruct st ].
Qed.

Lemma preview_handler_after file wid id run st :
  let o := preview_handler file wid id run st in
  (∃ fs, after o = set_disk fs st)
  ∨ (∃ fs p, after o
             = set_disk fs
                 (setTimeout (ExpirePreview p (uuid_str id)) TTL
                    (set_previewFiles (<[uuid_str id := p]> (previewFiles st)) st))).
Proof.
  unfold preview_handler, preview_server_error.
  repeat case_match; simpl;
    first [ left; eexists; reflexivity
          | left; exists (disk st); by destruct st
          | right; do 2 eexists; reflexivity ].
Qed.

Lemma fire_frame cb st :
  timers (fire cb st) = timers st ∧ clock (fire cb st) = clock st
  ∧ transfers (fire cb st) = transfers st.
Proof. by destruct cb. Qed.

Lemma fire_absent cb id st :
  generatedFiles st !! id = None → generatedFiles (fire cb st) !! id = None.
Proof.
  intros Hnone. destruct cb as [p id'|p id']; simpl; [|done].
  apply lookup_delete_None. by right.
Qed.

(** The closure of an artifact's timer removes its registry entry and its
    file. *)
Lemma fire_expires p id st :
  generatedFiles (fire (ExpireGenerated p id) st) !! id = None
  ∧ existsSync p (disk (fire (ExpireGenerated p id) st)) = false.
Proof. simpl. split; [apply lookup_delete_eq | apply try_unlink_gone]. Qed.

Lemma fire_all_frame l : ∀ st,
  timers (foldl (λ acc tm, fire (callback tm) acc) st l) = timers st
  ∧ clock (foldl (λ acc tm, fire (callback tm) acc) st l) = clock st.
Proof.
  induction l as [|tm l IH]; intros st; simpl; [done|].
  destruct (IH (fire (callback tm) st)) as [-> ->].
  by destruct (fire_frame (callback tm) st) as (-> & -> & _).
Qed.

Lemma fire_all_absent id l : ∀ st,
  generatedFiles st !! id = None →
  generatedFiles (foldl (λ acc tm, fire (callback tm) acc) st l) !! id = None.
Proof.
  induction l as [|tm l IH]; intros st Hnone; simpl; [done|].
  by apply IH, fire_absent.
Qed.

Lemma fire_all_expires p id d l : ∀ st,
  {| due := d; callback := ExpireGenerated p id |} ∈ l →
  generatedFiles (foldl (λ acc tm, fire (callback tm) acc) st l) !! id = None.
Proof.
  induction l as [|tm l IH]; intros st Hin; simpl.
  - by apply elem_of_nil in Hin.
  - apply elem_of_cons in Hin as [<-|Hin]; [|by apply IH].
    apply fire_all_absent. apply fire_expires.
Qed.

Lemma download_done_frame k st :
  timers (download_done k st) = timers st ∧ clock (download_done k st) = clock st.
Proof.
  unfold download_done. destruct (transfers st !! k) as [[id info]|]; done.
Qed.

Lemma download_done_absent k id st :
  generatedFiles st !! id = None → generatedFiles (download_done k st) !! id = None.
Proof.
  intros Hnone. unfold download_done.
  destruct (transfers st !! k) as [[id' info]|]; [|done]. simpl.
  apply lookup_delete_None. by right.
Qed.

Lemma get_download_frame id st :
  generatedFiles (get_download id st).2 = generatedFiles st
  ∧ timers (get_download id st).2 = timers st
  ∧ clock (get_download id st).2 = clock st
  ∧ disk (get_download id st).2 = disk st.
Proof. unfold get_download. by repeat case_match. Qed.

Lemma state_of_proceed (o : Outcome) : state_of (proceed o) = after o.
Proof. unfold proceed. by destruct (exits o). Qed.

Lemma exec_cons (st : State) (e : Event) (events : list Event) :
  exec st (e :: events) = state_of (step st e)
  ∨ exec st (e :: events) = exec (state_of (step st e)) events.
Proof. simpl. destruct (step st e); auto. Qed.

(** What every event keeps holds when the run is over. *)
Lemma exec_invariant (P : State → Prop) (events : list Event) : ∀ st,
  (∀ st' e, e ∈ events → P st' → P (state_of (step st' e))) →
  P st → P (exec st events).
Proof.
  induction events as [|e events IH]; intros st Hstep Hst; [done|].
  assert (P (state_of (step st e))) as Hnext.
  { apply Hstep; [apply list_elem_of_here|done]. }
  destruct (exec_cons st e events) as [-> | ->]; [done|].
  apply IH; [|done]. intros st' e' Hin. apply Hstep. by apply list_elem_of_further.
Qed.

Lemma convert_handler_lives files wid id tool zipError st :
  exits (convert_handler files wid id tool zipError st) = false.
Proof. unfold convert_handler, server_error. repeat case_match; done. Qed.

(** Nothing but a preview request whose tool cannot be started ends the
    process. *)
Lemma step_exits (st st' : State) (e : Event) :
  step st e = Exited st' → unstarted e = true.
Proof.
  destruct e as [parts wid id tool zipError|parts wid run|parts wid id run
                 |id|id|k|ms]; simpl; try done; unfold proceed.
  - destruct (exits (post_convert parts wid id tool zipError st)) eqn:H; [|done].
    intros _. exfalso. revert H. unfold post_convert, express_error.
    destruct (multer 50 parts) as [message|files]; [done|].
    by rewrite convert_handler_lives.
  - destruct (exits (post_preview_pdf parts wid run st)) eqn:H; [|done].
    intros _. revert H. unfold post_preview_pdf, express_error.
    destruct (multer 1 parts) as [message|files]; [done|].
    unfold preview_pdf_handler, preview_server_error.
    destruct (ending run); [| done |]; intros H; exfalso; revert H;
      repeat case_match; done.
  - destruct (exits (post_preview parts wid id run st)) eqn:H; [|done].
    intros _. revert H. unfold post_preview, express_error.
    destruct (multer 1 parts) as [message|files]; [done|].
    unfold preview_handler, preview_server_error.
    destruct (ending run); [| done |]; intros H; exfalso; revert H;
      repeat case_match; done.
Qed.

(** So the process survives every run without such a request. *)
Lemma alive_started (events : list Event) : ∀ st,
  (∀ e, e ∈ events → unstarted e = false) → alive st events = true.
Proof.
  induction events as [|e events IH]; intros st Hall; simpl; [done|].
  destruct (step st e) as [st'|st'] eqn:Hstep.
  - apply IH. intros e' Hin. by apply Hall, list_elem_of_further.
  - apply step_exits in Hstep. rewrite Hall in Hstep; [done|apply list_elem_of_here].
Qed.

Lemma step_file_absent (p : Path) (id : string) (st : State) (e : Event) :
  dir p = filesDir → String.length id = 36 →
  (∃ ext, base p = id +:+ ext) →
  artifact_id e ≠ Some id →
  absent p (disk st) → absent p (disk (state_of (step st e))).
Proof.
  intros Hdir Hlen [ext Hbase] Hid H.
  assert (dir p ≠ uploads) as Hup by (by rewrite Hdir).
  destruct e as [parts wid id' tool zipError|parts wid run|parts wid id' run
                 |id'|id'|k|ms]; simpl in *.
  all: rewrite ?state_of_proceed in *.
  - unfold post_convert. destruct (multer 50 parts) as [message|files]; [done|].
    apply absent_convert_handler; [done| |by apply absent_store_uploads].
    intros ext' Heq. rewrite Hbase in Heq.
    apply string_app_inj_prefix in Heq; [congruence|].
    by rewrite uuid_length.
  - unfold post_preview_pdf. destruct (multer 1 parts) as [message|files]; [done|].
    apply absent_preview_pdf_handler; [done|by apply absent_store_uploads].
  - unfold post_preview. destruct (multer 1 parts) as [message|files]; [done|].
    apply absent_preview_handler; [done|by apply absent_store_uploads].
  - done.
  - by destruct (get_download_frame id' st) as (_ & _ & _ & ->).
  - unfold download_done. destruct (transfers st !! k) as [[id'' info]|]; [|done].
    simpl. by apply absent_try_unlink.
  - unfold elapse.
    generalize (filter (λ tm, (due tm ≤ clock st + Z.of_N ms)%Z) (timers st)).
    generalize (filter (λ tm, ¬ (due tm ≤ clock st + Z.of_N ms)%Z) (timers st)).
    intros pending expired.
    assert (absent p (disk (set_timers pending (set_clock (clock st + Z.of_N ms) st))))
      as H0 by done.
    revert H0. generalize (set_timers pending (set_clock (clock st + Z.of_N ms) st)).
    induction expired as [|tm l IH]; intros s Hs; simpl; [done|].
    apply IH. destruct (callback tm); simpl; by apply absent_try_unlink.
Qed.

(** An artifact that is not registered stays so, and one whose timer is
    pending keeps it, across any event but the registration of that very
    identifier; once the clock reaches the timer's due time the artifact is
    not registered. *)
Lemma step_expiry (d : Z) (p : Path) (id : string) (st : State) (e : Event) :
  artifact_id e ≠ Some id →
  generatedFiles st !! id = None
  ∨ (clock st < d)%Z ∧ {| due := d; callback := ExpireGenerated p id |} ∈ timers st →
  generatedFiles (state_of (step st e)) !! id = None
  ∨ (clock (state_of (step st e)) < d)%Z
    ∧ {| due := d; callback := ExpireGenerated p id |} ∈ timers (state_of (step st e)).
Proof.
  intros Hid Hst.
  destruct e as [parts wid id' tool zipError|parts wid run|parts wid id' run
                 |id'|id'|k|ms]; simpl in *.
  all: rewrite ?state_of_proceed in *.
  - unfold post_convert. destruct (multer 50 parts) as [message|files]; [done|].
    destruct (convert_handler_after files wid id' tool zipError
                (set_disk (store_uploads files (disk st)) st))
      as [[_ [fs ->]]|[_ (fs & info & -> & _)]]; simpl; [done|].
    rewrite lookup_insert_ne by congruence.
    destruct Hst as [?|[? ?]]; [by left|right].
    split; [done|]. apply elem_of_app. by left.
  - unfold post_preview_pdf. destruct (multer 1 parts) as [message|files]; [done|].
    by destruct (preview_pdf_handler_after (head files) wid run
                   (set_disk (store_uploads files (disk st)) st)) as [fs ->].
  - unfold post_preview. destruct (multer 1 parts) as [message|files]; [done|].
    destruct (preview_handler_after (head files) wid id' run
                (set_disk (store_uploads files (disk st)) st))
      as [[fs ->]|(fs & q & ->)]; simpl; [done|].
    destruct Hst as [?|[? ?]]; [by left|right].
    split; [done|]. apply elem_of_app. by left.
  - done.
  - by destruct (get_download_frame id' st) as (-> & -> & -> & _).
  - destruct (download_done_frame k st) as [-> ->].
    destruct Hst as [?|?]; [left|by right]. by apply download_done_absent.
  - unfold elapse.
    destruct (fire_all_frame (filter (λ tm, (due tm ≤ clock st + Z.of_N ms)%Z) (timers st))
                (set_timers (filter (λ tm, ¬ (due tm ≤ clock st + Z.of_N ms)%Z) (timers st))
                            (set_clock (clock st + Z.of_N ms) st))) as [-> ->].
    simpl. destruct Hst as [Hnone|[Hclock Hin]].
    + left. by apply fire_all_absent.
    + destruct (decide (d ≤ clock st + Z.of_N ms)%Z) as [Hdue|Hlater].
      * left. apply (fire_all_expires p id d).
        apply list_elem_of_filter. by split.
      * right. split; [lia|]. apply list_elem_of_filter. by split.
Qed.

Lemma exec_expiry (d : Z) (p : Path) (id : string) (events : list Event) : ∀ st,
  (∀ e, e ∈ events → artifact_id e ≠ Some id) →
  generatedFiles st !! id = None
  ∨ (clock st < d)%Z ∧ {| due := d; callback := ExpireGenerated p id |} ∈ timers st →
  generatedFiles (exec st events) !! id = None
  ∨ (clock (exec st events) < d)%Z
    ∧ {| due := d; callback := ExpireGenerated p id |} ∈ timers (exec st events).
Proof.
  intros st Hids.
  apply (exec_invariant
           (λ s, generatedFiles s !! id = None
                 ∨ (clock s < d)%Z
                   ∧ {| due := d; callback := ExpireGenerated p id |} ∈ timers s)).
  intros st' e Hin. apply step_expiry. by apply Hids.
Qed.

Lemma step_absent (id : string) (st : State) (e : Event) :
  artifact_id e ≠ Some id →
  generatedFiles st !! id = None →
  generatedFiles (state_of (step st e)) !! id = None.
Proof.
  intros Hid Hnone.
  destruct (step_expiry (clock (state_of (step st e))) (join "" "") id st e Hid)
    as [H|[H _]]; [by left|done|lia].
Qed.

Lemma exec_absent (id : string) (events : list Event) (st : State) :
  (∀ e, e ∈ events → artifact_id e ≠ Some id) →
  generatedFiles st !! id = None →
  generatedFiles (exec st events) !! id = None.
Proof.
  intros Hids Hnone.
  destruct (exec_expiry (clock (exec st events)) (join "" "") id events st Hids)
    as [H|[H _]]; [by left|done|lia].
Qed.

Lemma download_not_found_when_absent_or_stale_witness :
  get_download (uuid_str uuid_b) swept
  = (not_found "File not found or expired.", swept).
Proof.
  apply (proj1 (download_not_found_when_absent_or_stale (uuid_str uuid_b) swept)).
  right. exists converted_info.
  split; vm_compute; reflexivity.
Defined.

(** *** One download *)

Lemma download_done_last id info st :
  download_done (length (transfers st))
                (set_transfers (transfers st ++ [(id, info)]) st)
  = download_callback id info st.
Proof.
  unfold download_done. simpl.
  rewrite list_lookup_middle by done. rewrite delete_middle, app_nil_r.
  by destruct st.
Qed.

(** C1.  A request for a registered artifact whose file is there is served
    (200, the file as attachment), and the callback that runs when the
    response is complete unlinks the file and deletes the registry entry,
    whatever has happened to the process in the meantime and without a
    glance at the timers, which it leaves as they are.  From then on, as
    long as no later conversion draws the same identifier, [GET
    /download/:id] with this id answers 404. *)
Theorem download_is_one_time (id : string) (info : FileInfo) (st : State) :
  generatedFiles st !! id = Some info → existsSync (path info) (disk st) = true →
  (∃ name,
     get_download id st
     = ({| statusCode := 200; body := Attachment (path info) name |},
        set_transfers (transfers st ++ [(id, info)]) st))
  ∧ download_done (length (transfers st)) (get_download id st).2
    = download_callback id info st
  ∧ ∀ st',
      generatedFiles (download_callback id info st') !! id = None
      ∧ existsSync (path info) (disk (download_callback id info st')) = false
      ∧ timers (download_callback id info st') = timers st'
      ∧ clock (download_callback id info st') = clock st'
      ∧ ∀ events, (∀ e, e ∈ events → artifact_id e ≠ Some id) →
          get_download id (exec (download_callback id info st') events)
          = (not_found "File not found or expired.",
             exec (download_callback id info st') events).
Proof.
  intros Hinfo Hthere.
  destruct (get_download_served id info st Hinfo Hthere) as [name Hserved].
  split; [eauto|]. split.
  { rewrite Hserved. apply download_done_last. }
  intros st'.
  assert (generatedFiles (download_callback id info st') !! id = None) as Hgone.
  { apply lookup_delete_eq. }
  split; [done|]. split; [apply try_unlink_gone|]. split; [done|]. split; [done|].
  intros events Hids. by apply get_download_absent, exec_absent.
Qed.

Lemma download_is_one_time_witness :
  generatedFiles (download_callback (uuid_str uuid_b) converted_info converted)
    !! uuid_str uuid_b = None
  ∧ existsSync (path converted_info)
      (disk (download_callback (uuid_str uuid_b) converted_info converted)) = false.
Proof.
  assert (generatedFiles converted !! uuid_str uuid_b = Some converted_info) as Hinfo.
  { vm_compute. reflexivity. }
  assert (existsSync (path converted_info) (disk converted) = true) as Hthere.
  { vm_compute. reflexivity. }
  destruct (download_is_one_time (uuid_str uuid_b) converted_info converted
              Hinfo Hthere) as (_ & _ & Hafter).
  destruct (Hafter converted) as (Hentry & Hfile & _).
  split; [exact Hentry | exact Hfile].
Defined.

(** One upload, one download link that works once. *)
Example second_download_is_not_found :
  (download (uuid_str uuid_b) converted).1
  = {| statusCode := 200; body := Attachment converted_pdf "slides.pdf" |}
  ∧ (download (uuid_str uuid_b) (download (uuid_str uuid_b) converted).2).1
    = not_found "File not found or expired.".
Proof. vm_compute. done. Qed.

(** *** Expiry *)

Lemma fire_all_file_absent p l : ∀ st,
  absent p (disk st) →
  absent p (disk (foldl (λ acc tm, fire (callback tm) acc) st l)).
Proof.
  induction l as [|tm l IH]; intros st Hst; simpl; [done|].
  apply IH. destruct (callback tm); simpl; by apply absent_try_unlink.
Qed.

Lemma fire_all_expires_file p id d l : ∀ st,
  {| due := d; callback := ExpireGenerated p id |} ∈ l →
  absent p (disk (foldl (λ acc tm, fire (callback tm) acc) st l)).
Proof.
  induction l as [|tm l IH]; intros st Hin; simpl.
  - by apply elem_of_nil in Hin.
  - apply elem_of_cons in Hin as [<-|Hin]; [|by apply IH].
    apply fire_all_file_absent. simpl. apply absent_exists, try_unlink_gone.
Qed.

(** Every event but the passing of time leaves the clock and the pending
    timers where they are. *)
Lemma step_frame (st : State) (e : Event) :
  (∀ ms, e ≠ Elapse ms) →
  clock (state_of (step st e)) = clock st ∧ ∀ tm, tm ∈ timers st → tm ∈ timers (state_of (step st e)).
Proof.
  intros Hno.
  destruct e as [parts wid id' tool zipError|parts wid run|parts wid id' run
                 |id'|id'|k|ms]; simpl.
  all: rewrite ?state_of_proceed in *.
  - unfold post_convert. destruct (multer 50 parts) as [message|files]; [done|].
    destruct (convert_handler_after files wid id' tool zipError
                (set_disk (store_uploads files (disk st)) st))
      as [[_ [fs ->]]|[_ (fs & info & -> & _)]]; simpl; [done|].
    split; [done|]. intros tm Htm. apply elem_of_app. by left.
  - unfold post_preview_pdf. destruct (multer 1 parts) as [message|files]; [done|].
    by destruct (preview_pdf_handler_after (head files) wid run
                   (set_disk (store_uploads files (disk st)) st)) as [fs ->].
  - unfold post_preview. destruct (multer 1 parts) as [message|files]; [done|].
    destruct (preview_handler_after (head files) wid id' run
                (set_disk (store_uploads files (disk st)) st))
      as [[fs ->]|(fs & q & ->)]; simpl; [done|].
    split; [done|]. intros tm Htm. apply elem_of_app. by left.
  - done.
  - by destruct (get_download_frame id' st) as (_ & -> & -> & _).
  - by destruct (download_done_frame k st) as [-> ->].
  - by destruct (Hno ms).
Qed.

(** The invariant behind expiry, for the entry and its file together: both
    are gone, or the artifact's timer is still pending and not yet due. *)
Lemma exec_expiry_file (d : Z) (p : Path) (id : string) (events : list Event) :
  dir p = filesDir → String.length id = 36 → (∃ ext, base p = id +:+ ext) →
  ∀ st,
  (∀ e, e ∈ events → artifact_id e ≠ Some id) →
  generatedFiles st !! id = None ∧ absent p (disk st)
  ∨ (clock st < d)%Z ∧ {| due := d; callback := ExpireGenerated p id |} ∈ timers st →
  generatedFiles (exec st events) !! id = None ∧ absent p (disk (exec st events))
  ∨ (clock (exec st events) < d)%Z
    ∧ {| due := d; callback := ExpireGenerated p id |} ∈ timers (exec st events).
Proof.
  intros Hdir Hlen Hbase st Hids.
  apply (exec_invariant
           (λ s, generatedFiles s !! id = None ∧ absent p (disk s)
                 ∨ (clock s < d)%Z
                   ∧ {| due := d; callback := ExpireGenerated p id |} ∈ timers s)).
  clear st. intros st e He%Hids Hst.
  destruct Hst as [[Hentry Hfile]|[Hclock Htimer]].
  - left. split.
    + by apply step_absent.
    + by apply (step_file_absent p id).
  - assert ((∃ ms, e = Elapse ms) ∨ ∀ ms, e ≠ Elapse ms) as [[ms ->]|Hno].
    { destruct e; first [by right | left; by eexists]. }
    + simpl. unfold elapse.
      destruct (fire_all_frame
                  (filter (λ tm, (due tm ≤ clock st + Z.of_N ms)%Z) (timers st))
                  (set_timers
                     (filter (λ tm, ¬ (due tm ≤ clock st + Z.of_N ms)%Z) (timers st))
                     (set_clock (clock st + Z.of_N ms) st))) as [Htimers Hclk].
      destruct (decide (d ≤ clock st + Z.of_N ms)%Z) as [Hdue|Hlater].
      * left.
        assert ({| due := d; callback := ExpireGenerated p id |}
                ∈ filter (λ tm, (due tm ≤ clock st + Z.of_N ms)%Z) (timers st)) as Hin.
        { apply list_elem_of_filter. by split. }
        split; [by apply (fire_all_expires p id d)
               | by apply (fire_all_expires_file p id d)].
      * right. rewrite Htimers, Hclk. simpl. split; [lia|].
        apply list_elem_of_filter. by split.
    + right. destruct (step_frame st e Hno) as [-> Hkeep].
      split; [done|]. by apply Hkeep.
Qed.

(** X24.  An artifact registered by a successful [POST /convert] has a timer
    due [TTL] = 600000 ms (ten minutes) after the registration.  Its registry
    entry and its file are deleted by the callback of its first download and
    by the closure of that timer, each on whatever the process is like when
    it runs, so by the one that runs first.  After any run that the process
    survives and in which no later conversion draws the same identifier, once
    the clock has reached the due time, the file is not on disk and [GET
    /download/:id] answers 404. *)
Theorem artifact_expires
  (parts : list UploadedFile) (wid id : Uuid) (tool : nat → ToolRun)
  (zipError : option string) (st : State) (events : list Event) :
  let o := post_convert parts wid id tool zipError st in
  statusCode (response o) = 200 →
  alive (after o) events = true →
  (∀ e, e ∈ events → artifact_id e ≠ Some (uuid_str id)) →
  TTL = 600000%Z
  ∧ ∃ info,
      generatedFiles (after o) !! uuid_str id = Some info
      ∧ {| due := clock st + TTL;
           callback := ExpireGenerated (path info) (uuid_str id) |} ∈ timers (after o)
      ∧ (∀ st',
           generatedFiles (fire (ExpireGenerated (path info) (uuid_str id)) st')
             !! uuid_str id = None
           ∧ existsSync (path info)
               (disk (fire (ExpireGenerated (path info) (uuid_str id)) st')) = false)
      ∧ (∀ st',
           generatedFiles (download_callback (uuid_str id) info st')
             !! uuid_str id = None
           ∧ existsSync (path info)
               (disk (download_callback (uuid_str id) info st')) = false)
      ∧ ((clock st + TTL ≤ clock (exec (after o) events))%Z →
         get_download (uuid_str id) (exec (after o) events)
         = (not_found "File not found or expired.", exec (after o) events)
         ∧ existsSync (path info) (disk (exec (after o) events)) = false).
Proof.
  simpl. intros Hok _ Hids. split; [reflexivity|].
  unfold post_convert in *. destruct (multer 50 parts) as [message|files]; [done|].
  destruct (convert_handler_after files wid id tool zipError
              (set_disk (store_uploads files (disk st)) st))
    as [[Hno _]|[_ (fs & info & Hafter & [ext Hpath])]]; [done|].
  rewrite Hafter. clear Hafter Hok.
  assert ({| due := clock st + TTL;
             callback := ExpireGenerated (path info) (uuid_str id) |}
          ∈ timers (set_disk fs (register (uuid_str id) info
                       (set_disk (store_uploads files (disk st)) st)))) as Htimer.
  { simpl. apply elem_of_app. right. apply list_elem_of_here. }
  exists info. split; [simpl; apply lookup_insert_eq|]. split; [done|].
  split; [intros st'; apply fire_expires|].
  split; [intros st'; split; [apply lookup_delete_eq | apply try_unlink_gone]|].
  intros Hlate.
  destruct (exec_expiry_file (clock st + TTL) (path info) (uuid_str id) events)
    with (st := set_disk fs (register (uuid_str id) info
                  (set_disk (store_uploads files (disk st)) st)))
    as [[Hentry Hfile]|[Hearly _]].
  - by rewrite Hpath.
  - apply uuid_length.
  - exists ext. by rewrite Hpath.
  - done.
  - right. split; [|done]. simpl. unfold TTL. lia.
  - split; [by apply get_download_absent | by apply absent_exists].
  - lia.
Qed.

Lemma artifact_expires_witness :
  get_download (uuid_str uuid_b) (exec converted [Elapse 600000])
  = (not_found "File not found or expired.", exec converted [Elapse 600000]).
Proof.
  assert (statusCode (response (post_convert [slides] uuid_a uuid_b tool_ok None boot))
          = 200) as Hok.
  { vm_compute. reflexivity. }
  assert (alive converted [Elapse 600000] = true) as Halive.
  { vm_compute. reflexivity. }
  assert (∀ e, e ∈ [Elapse 600000] → artifact_id e ≠ Some (uuid_str uuid_b)) as Hids.
  { intros e ->%list_elem_of_singleton. discriminate. }
  destruct (artifact_expires [slides] uuid_a uuid_b tool_ok None boot
              [Elapse 600000] Hok Halive Hids) as (_ & info & _ & _ & _ & _ & Hlate).
  apply Hlate. vm_compute. discriminate.
Defined.

(** C7, where the code fails it.  The artifact registered under [uuid_b] has
    its timer, due at 600000 ms.  Then [POST /preview-pdf] comes in while the
    tool cannot be started: the [error] listener answers 500, the [close]
    listener answers again, and the process exits with its timers.  Ten
    minutes later the entry has not been deleted and the file is still on
    disk; nothing answers [GET /download/:id]. *)
Theorem artifact_outlives_the_process :
  let request := PostPreviewPdf [slides] uuid_c run_unstarted in
  generatedFiles converted !! uuid_str uuid_b = Some converted_info
  ∧ {| due := 600000; callback := ExpireGenerated converted_pdf (uuid_str uuid_b) |}
    ∈ timers converted
  ∧ statusCode (response (post_preview_pdf [slides] uuid_c run_unstarted converted))
    = 500
  ∧ step converted request = Exited converted
  ∧ alive converted [request; Elapse 600000] = false
  ∧ exec converted [request; Elapse 600000] = converted
  ∧ existsSync converted_pdf (disk (exec converted [request; Elapse 600000])) = true
  ∧ existsSync converted_pdf (disk (exec converted [Elapse 600000])) = false.
Proof.
  cbv zeta.
  split; [vm_compute; reflexivity|].
  split; [vm_compute; apply list_elem_of_here|].
  repeat split; vm_compute; reflexivity.
Qed.

(** One millisecond short of the window the artifact can still be had. *)
Example artifact_available_before_expiry :
  statusCode (get_download (uuid_str uuid_b) (exec converted [Elapse 599999])).1 = 200.
Proof. vm_compute. reflexivity. Qed.

(** *** Previews *)

Lemma get_preview_replay (id : string) (n : nat) (st : State) :
  exec st (replicate n (GetPreview id)) = st.
Proof. induction n as [|n IH]; simpl; [done|]. apply IH. Qed.

(** C2, as the code has it.  [GET /preview/:id] changes nothing in the
    process: it serves the preview every time it is asked, as long as the id
    is in the preview registry and its file is on disk, and answers 404 for
    an id that is not in the registry (never registered, or removed by the
    expiry timer) or whose file is gone.  Once the timer's closure has run,
    the answer is 404. *)
Theorem preview_is_served_until_expiry (id : string) (st : State) :
  step st (GetPreview id) = Running st
  ∧ (∀ p n, previewFiles st !! id = Some p → existsSync p (disk st) = true →
       get_preview id (exec st (replicate n (GetPreview id)))
       = {| statusCode := 200; body := SentFile p |})
  ∧ (previewFiles st !! id = None →
       get_preview id st = not_found "Preview not found or expired.")
  ∧ (∀ p, previewFiles st !! id = Some p → existsSync p (disk st) = false →
       get_preview id st = not_found "Preview not found or expired.")
  ∧ (∀ p, get_preview id (fire (ExpirePreview p id) st)
          = not_found "Preview not found or expired.").
Proof.
  split; [done|]. split; [|split; [|split]].
  - intros p n Hp Hthere. rewrite get_preview_replay. unfold get_preview.
    by rewrite (js_get_own _ _ _ Hp), Hthere.
  - intros Hnone. unfold get_preview.
    by destruct (js_get_not_own _ _ Hnone) as [-> | ->].
  - intros p Hp Hgone. unfold get_preview.
    by rewrite (js_get_own _ _ _ Hp), Hgone.
  - intros p. unfold get_preview.
    assert (previewFiles (fire (ExpirePreview p id) st) !! id = None) as Hnone.
    { apply lookup_delete_eq. }
    by destruct (js_get_not_own _ _ Hnone) as [-> | ->].
Qed.

Lemma preview_is_served_until_expiry_witness :
  get_preview (uuid_str uuid_d)
              (exec previewed (replicate 3 (GetPreview (uuid_str uuid_d))))
  = {| statusCode := 200;
       body := SentFile (join previewDir "00000000-0000-4000-8000-00000000000d.png") |}.
Proof.
  apply (proj1 (proj2 (preview_is_served_until_expiry (uuid_str uuid_d) previewed))).
  - vm_compute. reflexivity.
  - vm_compute. reflexivity.
Defined.

(** The claim fails on a second request: the preview registered under
    [uuid_d] is served, and served again. *)
Lemma preview_is_served_twice :
  statusCode (get_preview (uuid_str uuid_d) previewed) = 200
  ∧ statusCode (get_preview (uuid_str uuid_d)
                            (state_of (step previewed (GetPreview (uuid_str uuid_d)))))
    = 200
  ∧ statusCode (get_preview (uuid_str uuid_d)
                            (state_of (step previewed (GetPreview (uuid_str uuid_d)))))
    ≠ 404.
Proof. vm_compute. repeat split; discriminate. Qed.

(** ** More on the server *)

Lemma convert_loop_spawned wid tool files : ∀ i fs log,
  ∃ k, (k ≤ length files)%nat
       ∧ (convert_loop (workdir_of wid) files i tool fs log).1.2
         = log ++ (convert_args wid <$> take k files)
       ∧ ((convert_loop (workdir_of wid) files i tool fs log).2 = None →
          k = length files)
       ∧ (∀ j, j < length files → rejected (tool (i + j)) = true → (k ≤ S j)%nat).
Proof.
  induction files as [|f rest IH]; intros i fs log; simpl.
  - exists 0. rewrite app_nil_r. split; [done|]. split; [done|]. split; [done|].
    intros j Hj. lia.
  - unfold convertWithSoffice, rejected.
    destruct (ending (tool i)) eqn:Hend; simpl.
    + exists 1. simpl. split; [lia|]. split; [by destruct rest|].
      split; [done|]. intros j _ _. lia.
    + exists 1. simpl. split; [lia|]. split; [by destruct rest|].
      split; [done|]. intros j _ _. lia.
    + destruct (IH (S i) (tool_writes (workdir_of wid) (written (tool i)) fs)
                   (log ++ [convert_args wid f])) as (k & Hk & Hlog & Hall & Hrej).
      exists (S k). simpl. split; [lia|]. split.
      { unfold convert_args in Hlog at 1. rewrite Hlog, <- app_assoc. done. }
      split; [intros H; by rewrite Hall|].
      intros [|j] Hj Hr.
      * rewrite Nat.add_0_r in Hr. unfold rejected in Hr. by rewrite Hend in Hr.
      * apply le_n_S, Hrej; [lia|]. by replace (S i + j) with (i + S j) by lia.
Qed.

(** X9.  [POST /convert] starts the tool once per file, in upload order,
    each time for that file in the scratch directory, and stops at the first
    run whose promise is rejected: the [spawn] calls are a prefix of one call
    per uploaded file, all of them when the response is 200, and no more than
    [j + 1] when run [j] is rejected. *)
Theorem convert_runs_the_tool_once_per_file
  (parts : list UploadedFile) (wid id : Uuid) (tool : nat → ToolRun)
  (zipError : option string) (st : State) :
  let o := post_convert parts wid id tool zipError st in
  spawned o `prefix_of` (convert_args wid <$> parts)
  ∧ (statusCode (response o) = 200 → spawned o = convert_args wid <$> parts)
  ∧ (∀ j, j < length parts → rejected (tool j) = true → (length (spawned o) ≤ S j)%nat).
Proof.
  simpl. unfold post_convert.
  destruct (multer 50 parts) as [message|files] eqn:Hm.
  { simpl. split; [apply prefix_nil|]. split; [done|]. intros; lia. }
  apply multer_accepts in Hm as ->.
  unfold convert_handler, server_error.
  destruct parts as [|f rest] eqn:Hparts.
  { simpl. split; [done|]. split; [done|]. intros; lia. }
  rewrite <- Hparts. clear Hparts.
  destruct (move_uploads _ _ _) as [fs1|fs1].
  2:{ simpl. split; [apply prefix_nil|]. split; [done|]. intros; lia. }
  destruct (convert_loop_spawned wid tool parts 0 fs1 [])
    as (k & Hk & Hlog & Hall & Hrej).
  destruct (convert_loop _ _ _ _ _ _) as [[fs2 log] failure]. simpl in *.
  subst log.
  assert (convert_args wid <$> take k parts `prefix_of` convert_args wid <$> parts)
    as Hprefix.
  { rewrite fmap_take. apply prefix_take. }
  assert (∀ j, j < length parts → rejected (tool j) = true →
               (length (convert_args wid <$> take k parts) ≤ S j)%nat) as Hlen.
  { intros j Hj Hr. rewrite length_fmap, length_take. specialize (Hrej j Hj Hr). lia. }
  destruct failure as [[nm message]|]; [by split|].
  rewrite (Hall eq_refl), firstn_all in *.
  repeat case_match; simpl; by split.
Qed.

(** *** Uploaded files *)

Lemma workdir_not_uploads wid : workdir_of wid ≠ uploads.
Proof.
  intros H. apply (f_equal String.length) in H. unfold workdir_of in H.
  rewrite length_app_string, uuid_length in H. simpl in H. lia.
Qed.

Lemma store_uploads_keeps n files : ∀ fs,
  is_Some (readFileSync (join uploads n) fs) →
  is_Some (readFileSync (join uploads n) (store_uploads files fs)).
Proof.
  unfold store_uploads.
  induction files as [|f rest IH]; intros fs H; simpl; [done|].
  apply IH. unfold readFileSync in *. simpl in *.
  rewrite lookup_insert_eq. simpl.
  destruct (decide (filename f = n)) as [->|Hne].
  - rewrite lookup_insert_eq. by eexists.
  - rewrite lookup_insert_ne by done.
    destruct (fs !! uploads) as [d|]; [done|]. by destruct H.
Qed.

Lemma store_uploads_stored f files : ∀ fs,
  f ∈ files → is_Some (readFileSync (upload_path f) (store_uploads files fs)).
Proof.
  induction files as [|g rest IH]; intros fs Hin.
  - by apply elem_of_nil in Hin.
  - apply elem_of_cons in Hin as [->|Hin].
    + unfold store_uploads. simpl. apply store_uploads_keeps.
      unfold readFileSync. simpl. rewrite lookup_insert_eq. simpl.
      rewrite lookup_insert_eq. by eexists.
    + unfold store_uploads. simpl. by apply IH.
Qed.

Lemma store_uploads_lookup_ne d files : ∀ fs,
  d ≠ uploads → store_uploads files fs !! d = fs !! d.
Proof.
  unfold store_uploads.
  induction files as [|f rest IH]; intros fs Hne; simpl; [done|].
  rewrite IH by done. by rewrite lookup_insert_ne.
Qed.

(** Moving one stored upload into a directory that exists. *)
Lemma renameSync_upload f workdir fs c :
  workdir ≠ uploads →
  readFileSync (upload_path f) fs = Some c → is_Some (fs !! workdir) →
  ∃ fs', renameSync (upload_path f) (join workdir (originalname f)) fs = Some fs'
         ∧ is_Some (fs' !! workdir)
         ∧ absent (upload_path f) fs'
         ∧ ∀ n, n ≠ filename f →
             readFileSync (join uploads n) fs' = readFileSync (join uploads n) fs.
Proof.
  intros Hne Hc [w Hw]. unfold renameSync. rewrite Hc. simpl. rewrite Hw.
  assert (∃ u, fs !! uploads = Some u ∧ u !! filename f = Some c) as (u & Hu & Huf).
  { unfold readFileSync in Hc. simpl in Hc.
    destruct (fs !! uploads) as [u|]; [|done]. by exists u. }
  unfold unlinkSync. simpl. rewrite Hu, Huf. simpl.
  unfold writeFileSync. simpl. rewrite lookup_insert_ne by done. rewrite Hw.
  eexists. split; [reflexivity|]. split; [|split].
  - rewrite lookup_insert_eq. by eexists.
  - unfold absent, readFileSync. simpl.
    rewrite lookup_insert_ne by done. rewrite lookup_insert_eq. simpl.
    apply lookup_delete_eq.
  - intros n Hn. unfold readFileSync. simpl.
    rewrite lookup_insert_ne by done. rewrite lookup_insert_eq, Hu. simpl.
    by apply lookup_delete_ne.
Qed.

(** The stored uploads, under different names, can all be moved. *)
Lemma move_uploads_Done workdir files : ∀ fs,
  workdir ≠ uploads → NoDup (filename <$> files) →
  (∀ f, f ∈ files → is_Some (readFileSync (upload_path f) fs)) →
  is_Some (fs !! workdir) →
  ∃ fs', move_uploads workdir files fs = Done fs' ∧ is_Some (fs' !! workdir).
Proof.
  induction files as [|f rest IH]; intros fs Hne Hnd Hall Hw; simpl; [eauto|].
  apply NoDup_cons in Hnd as [Hf Hnd].
  destruct (Hall f (list_elem_of_here _ _)) as [c Hc].
  destruct (renameSync_upload f workdir fs c Hne Hc Hw)
    as (fs' & -> & Hw' & _ & Hkeep).
  apply IH; [done..| |done].
  intros g Hg. unfold upload_path. rewrite Hkeep.
  - apply Hall. by apply list_elem_of_further.
  - intros Heq. apply Hf. rewrite <- Heq. apply list_elem_of_fmap. by exists g.
Qed.

(** However the move ends, the uploads it got to are gone from multer's
    directory. *)
Lemma move_uploads_absent workdir files : ∀ fs fs',
  workdir ≠ uploads → move_uploads workdir files fs = Done fs' →
  ∀ f, f ∈ files → absent (upload_path f) fs'.
Proof.
  induction files as [|f rest IH]; intros fs fs' Hne Hmove g Hg; simpl in *.
  - by apply elem_of_nil in Hg.
  - destruct (renameSync _ _ fs) as [fs1|] eqn:Hr; [|done].
    apply elem_of_cons in Hg as [->|Hg]; [|by eapply IH].
    eapply absent_move_uploads; [| |left; exact Hmove].
    + simpl. congruence.
    + unfold renameSync in Hr.
      destruct (readFileSync (upload_path f) fs) as [c|]; [|done].
      destruct (fs !! dir (join workdir (originalname f))); [|done].
      destruct (unlinkSync (upload_path f) fs) as [fs2|] eqn:Hu; [|done].
      simpl in Hr. eapply absent_writeFileSync; [exact Hr| |].
      * intros Heq. apply Hne. by injection Heq.
      * apply absent_exists. by eapply existsSync_unlinked.
Qed.

Lemma unlink_uploads_absent (files : list UploadedFile) : ∀ fs f,
  f ∈ files →
  absent (upload_path f) (foldl (λ acc g, try_unlink (upload_path g) acc) fs files).
Proof.
  induction files as [|g rest IH]; intros fs f Hin; simpl.
  - by apply elem_of_nil in Hin.
  - apply elem_of_cons in Hin as [->|Hin]; [|by apply IH].
    apply absent_unlink_uploads, absent_exists, try_unlink_gone.
Qed.

Lemma filesDir_not_uploads : filesDir ≠ uploads.
Proof. done. Qed.

(** However the handler ends, an upload of the request is no longer in
    multer's directory. *)
Lemma convert_handler_upload_absent files wid id tool zipError st f :
  f ∈ files →
  absent (upload_path f) (disk (after (convert_handler files wid id tool zipError st))).
Proof.
  intros Hin.
  pose proof (workdir_not_uploads wid) as Hwu.
  assert (dir (upload_path f) ≠ workdir_of wid) as Hne by (simpl; congruence).
  assert (∀ b, join filesDir b ≠ upload_path f) as Hdest by done.
  unfold convert_handler, server_error.
  destruct files as [|g rest] eqn:Hfiles; [by apply elem_of_nil in Hin|].
  rewrite <- Hfiles in *. clear Hfiles.
  destruct (move_uploads _ _ _) as [fs1|fs1] eqn:Hmove.
  2:{ simpl. by apply absent_cleanup, unlink_uploads_absent. }
  pose proof (move_uploads_absent _ _ _ _ Hwu Hmove f Hin) as H1.
  pose proof (absent_convert_loop (upload_path f) (workdir_of wid) tool files 0 fs1 []
                Hne H1) as H2.
  destruct (convert_loop _ _ _ _ _ _) as [[fs2 log] failure]. simpl in H2.
  destruct failure as [[nm message]|]; [simpl; by apply absent_cleanup|].
  destruct (readdirSync _ _) as [names|];
    [|simpl; by apply absent_cleanup, unlink_uploads_absent].
  destruct (filter _ names) as [|pdf [|pdf2 more]]; simpl.
  - by apply absent_cleanup.
  - destruct (copyFileSync _ _ _) as [fs4|] eqn:Hcopy; simpl.
    + apply absent_cleanup. eapply absent_copyFileSync; [done|apply Hdest|].
      by apply absent_mkdirSync.
    + by apply absent_cleanup, unlink_uploads_absent.
  - destruct zipError; simpl; apply absent_cleanup;
      repeat (apply absent_create_file; [apply Hdest|]); by apply absent_mkdirSync.
Qed.

(** X10.  When [POST /convert] has answered, none of the request's uploaded
    files is left in multer's directory: each was moved into the scratch
    directory, or unlinked by the handler's [catch]. *)
Theorem convert_leaves_no_upload_behind
  (files : list UploadedFile) (wid id : Uuid) (tool : nat → ToolRun)
  (zipError : option string) (st : State) (f : UploadedFile) :
  f ∈ files →
  existsSync (upload_path f)
             (disk (after (convert_handler files wid id tool zipError st))) = false.
Proof. intros Hin. by apply absent_exists, convert_handler_upload_absent. Qed.

Lemma convert_leaves_no_upload_behind_witness :
  existsSync (upload_path talk)
    (disk (after (convert_handler [slides; talk] uuid_a uuid_b tool_second_exits_1 None
                    (set_disk (store_uploads [slides; talk] (disk boot)) boot))))
  = false.
Proof.
  apply (convert_leaves_no_upload_behind [slides; talk] uuid_a uuid_b
           tool_second_exits_1 None
           (set_disk (store_uploads [slides; talk] (disk boot)) boot) talk).
  apply list_elem_of_further, list_elem_of_here.
Defined.

(** *** What multer lets through *)

Lemma fileFilter_allowed f : fileFilter f = None ↔ allowed_extension f = true.
Proof.
  unfold fileFilter, allowed_extension.
  by destruct (String.eqb _ ".ppt" || String.eqb _ ".pptx").
Qed.

Lemma multer_inr n parts :
  multer n parts = inr parts
  ↔ (length parts ≤ n)%nat
    ∧ ∀ f, f ∈ parts → fieldname f = "file" ∧ allowed_extension f = true.
Proof.
  revert n. induction parts as [|f rest IH]; intros n; simpl.
  - split; [|done]. intros _. split; [lia|]. by intros f ?%elem_of_nil.
  - destruct (String.eqb (fieldname f) "file") eqn:Hfield; simpl.
    2:{ split; [done|]. intros [_ Hall].
        destruct (Hall f (list_elem_of_here _ _)) as [Hf _].
        apply String.eqb_eq in Hf. congruence. }
    apply String.eqb_eq in Hfield.
    destruct n as [|n]; [split; [done|intros [? _]; lia]|].
    destruct (fileFilter f) as [message|] eqn:Hfilter.
    { split; [done|]. intros [_ Hall].
      destruct (Hall f (list_elem_of_here _ _)) as [_ Hf].
      apply fileFilter_allowed in Hf. congruence. }
    apply fileFilter_allowed in Hfilter.
    destruct (multer n rest) as [message|files] eqn:Hrest.
    + split; [done|]. intros [Hlen Hall].
      assert (multer n rest = inr rest) as Hok; [|congruence].
      apply IH. split; [lia|]. intros g Hg. apply Hall. by apply list_elem_of_further.
    + pose proof (multer_accepts n rest files Hrest) as ->.
      apply IH in Hrest as [Hlen Hall]. split; [intros _|done].
      split; [lia|]. intros g [->|Hg]%elem_of_cons; [done|by apply Hall].
Qed.

(** X11.  multer hands a request to the handler exactly when its files come
    in the field [file], are no more than the route allows (50 for
    [/convert], 1 for the previews) and all have an extension the filter lets
    through; then the handler gets the files as they came. *)
Theorem multer_lets_through (n : nat) (parts : list UploadedFile) :
  ((∃ files, multer n parts = inr files)
   ↔ (length parts ≤ n)%nat
     ∧ ∀ f, f ∈ parts → fieldname f = "file" ∧ allowed_extension f = true)
  ∧ (∀ files, multer n parts = inr files → files = parts).
Proof.
  split; [|apply multer_accepts].
  rewrite <- multer_inr. split; [|eauto].
  intros [files H]. by rewrite (multer_accepts n parts files H) in H.
Qed.

(** *** A conversion that goes well *)

Lemma tool_writes_dir outdir files fs :
  is_Some (fs !! outdir) → is_Some (tool_writes outdir files fs !! outdir).
Proof.
  intros [d Hd]. unfold tool_writes. rewrite Hd, lookup_insert_eq. by eexists.
Qed.

Lemma insert_each_keeps (files : list (string * Content)) nm : ∀ d : gmap string Content,
  is_Some (d !! nm) →
  is_Some (foldl (λ acc nc, <[nc.1 := nc.2]> acc) d files !! nm).
Proof.
  induction files as [|[n c] rest IH]; intros d H; simpl; [done|].
  apply IH. destruct (decide (n = nm)) as [->|Hne].
  - rewrite lookup_insert_eq. by eexists.
  - by rewrite lookup_insert_ne.
Qed.

Lemma insert_each_written (files : list (string * Content)) nm c :
  ∀ d : gmap string Content,
  (nm, c) ∈ files →
  is_Some (foldl (λ acc nc, <[nc.1 := nc.2]> acc) d files !! nm).
Proof.
  induction files as [|[n c'] rest IH]; intros d Hin; simpl.
  - by apply elem_of_nil in Hin.
  - apply elem_of_cons in Hin as [Heq|Hin]; [|by apply IH].
    injection Heq as <- <-. apply insert_each_keeps.
    rewrite lookup_insert_eq. by eexists.
Qed.

Lemma tool_writes_keeps outdir files fs nm :
  is_Some (readFileSync (join outdir nm) fs) →
  is_Some (readFileSync (join outdir nm) (tool_writes outdir files fs)).
Proof.
  unfold readFileSync, tool_writes. simpl.
  destruct (fs !! outdir) as [d|] eqn:Hd; [|by intros []]. simpl. intros H.
  rewrite lookup_insert_eq. simpl. by apply insert_each_keeps.
Qed.

Lemma tool_writes_written outdir files fs nm c :
  is_Some (fs !! outdir) → (nm, c) ∈ files →
  is_Some (readFileSync (join outdir nm) (tool_writes outdir files fs)).
Proof.
  intros [d Hd] Hin. unfold readFileSync, tool_writes. simpl.
  rewrite Hd, lookup_insert_eq. simpl. by eapply insert_each_written.
Qed.

Lemma convert_loop_dir workdir tool files : ∀ i fs log,
  is_Some (fs !! workdir) →
  is_Some ((convert_loop workdir files i tool fs log).1.1 !! workdir).
Proof.
  induction files as [|f rest IH]; intros i fs log H; simpl; [done|].
  destruct (convertWithSoffice (tool i)); simpl.
  - by apply tool_writes_dir.
  - by apply IH, tool_writes_dir.
Qed.

Lemma convert_loop_keeps workdir tool nm files : ∀ i fs log,
  is_Some (readFileSync (join workdir nm) fs) →
  is_Some (readFileSync (join workdir nm) (convert_loop workdir files i tool fs log).1.1).
Proof.
  induction files as [|f rest IH]; intros i fs log H; simpl; [done|].
  destruct (convertWithSoffice (tool i)); simpl.
  - by apply tool_writes_keeps.
  - by apply IH, tool_writes_keeps.
Qed.

Lemma convert_loop_written workdir tool nm c files : ∀ i fs log j,
  is_Some (fs !! workdir) →
  (j < length files)%nat → (nm, c) ∈ written (tool (i + j)) →
  (convert_loop workdir files i tool fs log).2 = None →
  is_Some (readFileSync (join workdir nm) (convert_loop workdir files i tool fs log).1.1).
Proof.
  induction files as [|f rest IH]; intros i fs log j Hdir Hj Hin; simpl in *; [lia|].
  destruct (convertWithSoffice (tool i)) eqn:Hc; simpl; [done|]. intros Hnone.
  destruct j as [|j].
  - rewrite Nat.add_0_r in Hin. apply convert_loop_keeps.
    by eapply tool_writes_written.
  - apply (IH (S i) _ _ j); [by apply tool_writes_dir|lia| |done].
    by replace (S i + j) with (i + S j) by lia.
Qed.

Lemma readdirSync_lists d fs nm :
  is_Some (readFileSync (join d nm) fs) →
  ∃ names, readdirSync d fs = Some names ∧ nm ∈ names.
Proof.
  unfold readFileSync, readdirSync. simpl.
  destruct (fs !! d) as [e|]; [|by intros []]. simpl. intros [c Hc].
  eexists. split; [reflexivity|]. apply list_elem_of_fmap. exists (nm, c).
  split; [done|]. by apply elem_of_map_to_list.
Qed.

(** X12.  A request that multer lets through, with files stored under
    different names, with every run of the tool closing and at least one of
    them having written a file named [*.pdf], and with no archiver error, is
    answered 200. *)
Theorem conversion_succeeds
  (parts : list UploadedFile) (wid id : Uuid) (tool : nat → ToolRun) (st : State)
  (j : nat) (pdf : string) (c : Content) :
  parts ≠ [] → (length parts ≤ 50)%nat →
  (∀ f, f ∈ parts → fieldname f = "file" ∧ allowed_extension f = true) →
  NoDup (filename <$> parts) →
  (∀ k, (k < length parts)%nat → rejected (tool k) = false) →
  (j < length parts)%nat → (pdf, c) ∈ written (tool j) → is_pdf pdf = true →
  statusCode (response (post_convert parts wid id tool None st)) = 200.
Proof.
  intros Hsome Hlen Hall Hnd Hclosed Hj Hwritten Hpdf.
  pose proof (workdir_not_uploads wid) as Hwu.
  pose proof (workdir_not_filesDir wid) as Hwf.
  unfold post_convert.
  rewrite (proj2 (multer_inr 50 parts) (conj Hlen Hall)).
  unfold convert_handler.
  destruct parts as [|f0 rest] eqn:Hparts; [done|]. rewrite <- Hparts in *.
  clear Hparts Hsome. cbn [disk set_disk].
  destruct (move_uploads_Done (workdir_of wid) parts
              (mkdirSync (workdir_of wid) (store_uploads parts (disk st))))
    as (fs1 & -> & Hdir); [done|done| |apply mkdirSync_is_Some|].
  { intros f Hf. rewrite (readFileSync_dir_eq _ (store_uploads parts (disk st))).
    - by apply store_uploads_stored.
    - simpl. apply mkdirSync_lookup_ne. done. }
  pose proof (convert_loop_closed (workdir_of wid) tool parts 0 fs1 [] Hclosed) as Hnone.
  pose proof (convert_loop_written (workdir_of wid) tool pdf c parts 0 fs1 [] j
                Hdir Hj Hwritten Hnone) as Hthere.
  destruct (convert_loop _ _ _ _ _ _) as [[fs2 log] failure]. simpl in *.
  subst failure.
  destruct (readdirSync_lists _ _ _ Hthere) as (names & Hnames & Hin).
  rewrite Hnames.
  assert (pdf ∈ filter (λ fn, is_pdf fn = true) names) as Hpdfs.
  { apply list_elem_of_filter. by split. }
  destruct (filter (λ fn, is_pdf fn = true) names) as [|pdf1 [|pdf2 more]] eqn:Hfilter.
  - by apply elem_of_nil in Hpdfs.
  - assert (pdf1 ∈ names) as Hin1.
    { assert (pdf1 ∈ filter (λ fn, is_pdf fn = true) names) as H
        by (rewrite Hfilter; apply list_elem_of_here).
      by apply list_elem_of_filter in H as [_ ?]. }
    destruct (readdirSync_elem _ _ _ _ Hnames Hin1) as [c1 Hc1].
    unfold copyFileSync.
    rewrite (readFileSync_dir_eq _ fs2), Hc1
      by (simpl; by apply mkdirSync_lookup_ne).
    unfold writeFileSync. simpl.
    destruct (mkdirSync_is_Some filesDir fs2) as [d ->]. done.
  - done.
Qed.

Lemma conversion_succeeds_witness :
  statusCode (response (post_convert [slides; talk] uuid_a uuid_b
                                     tool_second_exits_1 None boot)) = 200.
Proof.
  apply (conversion_succeeds [slides; talk] uuid_a uuid_b tool_second_exits_1 boot
           0 "slides.pdf" (Blob 11)).
  - discriminate.
  - simpl. lia.
  - intros f Hf. apply elem_of_cons in Hf as [->|Hf];
      [|apply list_elem_of_singleton in Hf as ->]; split; reflexivity.
  - apply (bool_decide_unpack _). vm_compute. reflexivity.
  - intros [|[|k]] Hk; [reflexivity|reflexivity|simpl in Hk; lia].
  - simpl. lia.
  - apply list_elem_of_here.
  - reflexivity.
Defined.

(** *** Every entry has its timer *)

Lemma fire_all_generated l : ∀ st id info,
  generatedFiles (foldl (λ acc tm, fire (callback tm) acc) st l) !! id = Some info →
  generatedFiles st !! id = Some info.
Proof.
  induction l as [|tm l IH]; intros st id info H; simpl in *; [done|].
  apply IH in H. destruct (callback tm) as [p id'|p id']; simpl in H; [|done].
  by apply lookup_delete_Some in H as [_ ?].
Qed.

Lemma fire_all_previews l : ∀ st id p,
  previewFiles (foldl (λ acc tm, fire (callback tm) acc) st l) !! id = Some p →
  previewFiles st !! id = Some p.
Proof.
  induction l as [|tm l IH]; intros st id p H; simpl in *; [done|].
  apply IH in H. destruct (callback tm) as [q id'|q id']; simpl in H; [done|].
  by apply lookup_delete_Some in H as [_ ?].
Qed.

Lemma fire_all_expires_preview p id d l : ∀ st,
  {| due := d; callback := ExpirePreview p id |} ∈ l →
  previewFiles (foldl (λ acc tm, fire (callback tm) acc) st l) !! id = None.
Proof.
  induction l as [|tm l IH]; intros st Hin; simpl.
  - by apply elem_of_nil in Hin.
  - apply elem_of_cons in Hin as [<-|Hin]; [|by apply IH].
    destruct (previewFiles (foldl (λ acc tm, fire (callback tm) acc)
                (fire (ExpirePreview p id) st) l) !! id) as [q|] eqn:H; [|done].
    apply fire_all_previews in H. simpl in H. by rewrite lookup_delete_eq in H.
Qed.

Lemma get_download_previews id st :
  previewFiles (get_download id st).2 = previewFiles st.
Proof. unfold get_download. by repeat case_match. Qed.

Lemma step_expiring (st : State) (e : Event) :
  expiring st → expiring (state_of (step st e)).
Proof.
  intros [Hgen Hprev].
  assert (0 < TTL)%Z as Httl by done.
  destruct e as [parts wid id' tool zipError|parts wid run|parts wid id' run
                 |id'|id'|k|ms]; simpl.
  all: rewrite ?state_of_proceed in *.
  - unfold post_convert. destruct (multer 50 parts) as [message|files]; [done|].
    destruct (convert_handler_after files wid id' tool zipError
                (set_disk (store_uploads files (disk st)) st))
      as [[_ [fs ->]]|[_ (fs & info & -> & _)]]; [done|].
    split; simpl.
    + intros id info' [[<- <-]|[Hne Hold]]%lookup_insert_Some.
      * exists (clock st + TTL)%Z. split; [lia|].
        apply elem_of_app. right. apply list_elem_of_here.
      * destruct (Hgen id info' Hold) as (d & Hd & Hin).
        exists d. split; [done|]. apply elem_of_app. by left.
    + intros id p Hold. destruct (Hprev id p Hold) as (d & Hd & Hin).
      exists d. split; [done|]. apply elem_of_app. by left.
  - unfold post_preview_pdf. destruct (multer 1 parts) as [message|files]; [done|].
    by destruct (preview_pdf_handler_after (head files) wid run
                   (set_disk (store_uploads files (disk st)) st)) as [fs ->].
  - unfold post_preview. destruct (multer 1 parts) as [message|files]; [done|].
    destruct (preview_handler_after (head files) wid id' run
                (set_disk (store_uploads files (disk st)) st))
      as [[fs ->]|(fs & q & ->)]; [done|].
    split; simpl.
    + intros id info Hold. destruct (Hgen id info Hold) as (d & Hd & Hin).
      exists d. split; [done|]. apply elem_of_app. by left.
    + intros id p [[<- <-]|[Hne Hold]]%lookup_insert_Some.
      * exists (clock st + TTL)%Z. split; [lia|].
        apply elem_of_app. right. apply list_elem_of_here.
      * destruct (Hprev id p Hold) as (d & Hd & Hin).
        exists d. split; [done|]. apply elem_of_app. by left.
  - done.
  - unfold expiring.
    destruct (get_download_frame id' st) as (-> & -> & -> & _).
    by rewrite get_download_previews.
  - unfold download_done. destruct (transfers st !! k) as [[id info]|]; [|done].
    split; simpl; [|done].
    intros id0 info0 [_ Hold]%lookup_delete_Some. by apply Hgen.
  - unfold expiring, elapse.
    destruct (fire_all_frame
                (filter (λ tm, (due tm ≤ clock st + Z.of_N ms)%Z) (timers st))
                (set_timers
                   (filter (λ tm, ¬ (due tm ≤ clock st + Z.of_N ms)%Z) (timers st))
                   (set_clock (clock st + Z.of_N ms) st))) as [-> ->].
    simpl. split.
    + intros id info Hnow. pose proof Hnow as Hold.
      apply fire_all_generated in Hold. simpl in Hold.
      destruct (Hgen id info Hold) as (d & Hd & Hin).
      exists d. destruct (decide (d ≤ clock st + Z.of_N ms)%Z) as [Hdue|Hlater].
      * rewrite (fire_all_expires (path info) id d) in Hnow; [done|].
        apply list_elem_of_filter. by split.
      * split; [lia|]. apply list_elem_of_filter. by split.
    + intros id p Hnow. pose proof Hnow as Hold.
      apply fire_all_previews in Hold. simpl in Hold.
      destruct (Hprev id p Hold) as (d & Hd & Hin).
      exists d. destruct (decide (d ≤ clock st + Z.of_N ms)%Z) as [Hdue|Hlater].
      * rewrite (fire_all_expires_preview p id d) in Hnow; [done|].
        apply list_elem_of_filter. by split.
      * split; [lia|]. apply list_elem_of_filter. by split.
Qed.

Lemma exec_expiring events : ∀ st, expiring st → expiring (exec st events).
Proof.
  intros st. apply (exec_invariant expiring). intros st' e _. apply step_expiring.
Qed.

(** X13.  In every state the process can get into, each entry of the two
    registries has its own expiry timer pending, due later than now and no
    later than ten minutes from now: no artifact and no preview is registered
    without an end. *)
Theorem every_entry_has_its_timer (events : list Event) :
  (∀ id info, generatedFiles (exec boot events) !! id = Some info →
     ∃ d, (clock (exec boot events) < d ≤ clock (exec boot events) + TTL)%Z
          ∧ {| due := d; callback := ExpireGenerated (path info) id |}
            ∈ timers (exec boot events))
  ∧ (∀ id p, previewFiles (exec boot events) !! id = Some p →
       ∃ d, (clock (exec boot events) < d ≤ clock (exec boot events) + TTL)%Z
            ∧ {| due := d; callback := ExpirePreview p id |}
              ∈ timers (exec boot events)).
Proof. by apply (exec_expiring events boot). Qed.

(** *** What a preview request leaves *)

Lemma units_leb_trans (a b c : list N) :
  Js.units_leb a b = true → Js.units_leb b c = true → Js.units_leb a c = true.
Proof.
  revert b c.
  induction a as [|x a IH]; intros [|y b] [|z c]; simpl; try done.
  destruct (N.compare_spec x y) as [Hxy|Hxy|Hxy]; try done;
    destruct (N.compare_spec y z) as [Hyz|Hyz|Hyz]; try done;
    destruct (N.compare_spec x z) as [Hxz|Hxz|Hxz]; try done; try lia.
  apply IH.
Qed.

Lemma units_leb_total (a b : list N) :
  Js.units_leb a b = true ∨ Js.units_leb b a = true.
Proof.
  revert b. induction a as [|x a IH]; intros [|y b]; simpl; auto.
  rewrite (N.compare_antisym x y).
  destruct (N.compare_spec x y); simpl; auto.
Qed.

(** [images.sort()] puts first a name that is below all the others. *)
Lemma js_sort_head (l : list string) (image : string) (rest : list string) :
  js_sort l = image :: rest →
  image ∈ l ∧ ∀ other, other ∈ l → Js.code_unit_leb image other = true.
Proof.
  intros Hsort.
  assert (Transitive (λ a b, Is_true (Js.code_unit_leb a b))) as Htrans.
  { intros a b c Hab Hbc. apply Is_true_true.
    by eapply units_leb_trans; apply Is_true_true. }
  assert (Total (λ a b, Is_true (Js.code_unit_leb a b))) as Htotal.
  { intros a b. destruct (units_leb_total (Js.code_units a) (Js.code_units b)) as [H|H];
      [left|right]; by apply Is_true_true. }
  pose proof (StronglySorted_merge_sort (λ a b, Is_true (Js.code_unit_leb a b)) l) as Hs.
  pose proof (merge_sort_Permutation (λ a b, Is_true (Js.code_unit_leb a b)) l) as Hp.
  unfold js_sort in Hsort. rewrite Hsort in Hs, Hp.
  apply StronglySorted_inv in Hs as [_ Hall]. split.
  - rewrite <- Hp. apply list_elem_of_here.
  - intros other Hother. rewrite <- Hp in Hother.
    apply elem_of_cons in Hother as [->|Hother].
    + by destruct (units_leb_total (Js.code_units image) (Js.code_units image)).
    + rewrite Forall_forall in Hall. by apply Is_true_true, Hall.
Qed.

(** The order is that of the code units, not of the code points: a name that
    starts beyond the basic plane sorts before one that starts in U+E000 to
    U+FFFF, and a capital letter before every small one. *)
Example js_sort_code_units :
  js_sort ["～.png"; "slides.png"; "😀.png"; "Z.png"; "slides-0001.png"]
  = ["Z.png"; "slides-0001.png"; "slides.png"; "😀.png"; "～.png"].
Proof. vm_compute. reflexivity. Qed.

Lemma previewDir_not_prefixed (prefix : string) (wid : Uuid) :
  String.length prefix + 36 ≠ 21 → prefix +:+ uuid_str wid ≠ previewDir.
Proof.
  intros Hlen H. apply (f_equal String.length) in H.
  rewrite length_app_string, uuid_length in H. simpl in H. lia.
Qed.

(** X14.  [POST /preview] answered 200 has registered one preview under the
    request's [id], with its expiry timer: a copy of the image in the scratch
    directory whose name is first among the PNG files there in the order of
    [sort()], that of the UTF-16 code units, kept in the preview directory
    under a name made of the [id]; the URL in the answer
    serves it; and the scratch directory is gone. *)
Theorem preview_registers_the_first_image
  (f : UploadedFile) (wid id : Uuid) (run : ToolRun) (st : State) :
  let o := preview_handler (Some f) wid id run st in
  let workdir := "ppt_preview_" +:+ uuid_str wid in
  statusCode (response o) = 200 →
  ∃ fs2 image c,
    preview_scratch "ppt_preview_" f wid run st = Some fs2
    ∧ is_png image = true
    ∧ readFileSync (join workdir image) fs2 = Some c
    ∧ (∀ other, is_Some (readFileSync (join workdir other) fs2) →
         is_png other = true → Js.code_unit_leb image other = true)
    ∧ body (response o) = JsonPreview ("/preview/" +:+ uuid_str id)
    ∧ previewFiles (after o)
      = <[uuid_str id := join previewDir
                           (uuid_str id +:+ Js.extname (path_string (join workdir image)))]>
          (previewFiles st)
    ∧ {| due := clock st + TTL;
         callback := ExpirePreview
                       (join previewDir
                          (uuid_str id +:+ Js.extname (path_string (join workdir image))))
                       (uuid_str id) |} ∈ timers (after o)
    ∧ readFileSync (join previewDir
                      (uuid_str id +:+ Js.extname (path_string (join workdir image))))
                   (disk (after o)) = Some c
    ∧ get_preview (uuid_str id) (after o)
      = {| statusCode := 200;
           body := SentFile (join previewDir
                     (uuid_str id +:+ Js.extname (path_string (join workdir image)))) |}
    ∧ disk (after o) !! workdir = None.
Proof.
  simpl.
  assert ("ppt_preview_" +:+ uuid_str wid ≠ previewDir) as Hdirs
    by (by apply previewDir_not_prefixed).
  unfold preview_handler, preview_scratch, preview_server_error.
  destruct (renameSync _ _ _) as [fs1|]; [|done]. simpl.
  set (workdir := "ppt_preview_" +:+ uuid_str wid) in *.
  set (fs2 := tool_writes workdir (written run) fs1).
  assert (∀ names, readdirSync workdir fs2 = Some names →
          ∀ image rest, js_sort (filter (λ fn, is_png fn = true) names) = image :: rest →
          is_png image = true
          ∧ is_Some (readFileSync (join workdir image) fs2)
          ∧ ∀ other, is_Some (readFileSync (join workdir other) fs2) →
              is_png other = true → Js.code_unit_leb image other = true) as Hfirst.
  { intros names Hnames image rest Hsort.
    apply js_sort_head in Hsort as [Hin Hleast].
    apply list_elem_of_filter in Hin as [Hpng Hin].
    split; [done|]. split; [by eapply readdirSync_elem|].
    intros other Hother Hpng'. apply Hleast, list_elem_of_filter. split; [done|].
    destruct (readdirSync_lists _ _ _ Hother) as (names' & Hnames' & Hin').
    by simplify_eq. }
  destruct (ending run); [|done|];
    (destruct (readdirSync workdir fs2) as [names|] eqn:Hnames; [|done];
     destruct (js_sort (filter (λ fn, is_png fn = true) names))
       as [|image rest] eqn:Hsort; [done|];
     destruct (Hfirst names eq_refl image rest Hsort) as (Hpng & [c Hc] & Hleast);
     destruct (copyFileSync _ _ _) as [fs4|] eqn:Hcopy; [|done];
     intros _; exists fs2, image, c;
     split; [done|]; split; [done|]; split; [done|]; split; [done|];
     split; [done|]; split; [done|];
     split; [simpl; apply elem_of_app; right; apply list_elem_of_here|];
     assert (readFileSync
               (join previewDir
                  (uuid_str id +:+ Js.extname (path_string (join workdir image))))
               (cleanup workdir fs4) = Some c) as Hdest;
     [ rewrite (readFileSync_dir_eq _ fs4)
         by (simpl; by apply cleanup_lookup_ne);
       unfold copyFileSync in Hcopy;
       rewrite (readFileSync_dir_eq _ fs2), Hc in Hcopy
         by (simpl; apply mkdirSync_lookup_ne; done);
       by apply writeFileSync_read in Hcopy
     | split; [exact Hdest|]; split; [|simpl; apply cleanup_removes];
       unfold get_preview; simpl;
       rewrite (js_get_own _ _ _ (lookup_insert_eq _ _ _));
       unfold existsSync; by rewrite Hdest ]).
Qed.

Lemma preview_registers_the_first_image_witness :
  body (response (preview_handler (Some slides) uuid_c uuid_d run_png
                    (set_disk (store_uploads [slides] (disk boot)) boot)))
  = JsonPreview ("/preview/" +:+ uuid_str uuid_d)
  ∧ disk (after (preview_handler (Some slides) uuid_c uuid_d run_png
                   (set_disk (store_uploads [slides] (disk boot)) boot)))
    !! ("ppt_preview_" +:+ uuid_str uuid_c) = None.
Proof.
  destruct (preview_registers_the_first_image slides uuid_c uuid_d run_png
              (set_disk (store_uploads [slides] (disk boot)) boot))
    as (fs2 & image & c & _ & _ & _ & _ & Hbody & _ & _ & _ & _ & Hgone).
  { vm_compute. reflexivity. }
  by split.
Defined.

(** Of two images the one that [sort()] puts first is registered: here the
    second that the tool wrote, whose name comes later byte by byte. *)
Example preview_takes_the_first_in_code_units :
  let run := {| written := [("～.png", Blob 31); ("😀.png", Blob 32)];
                stderr := ""; ending := Close (Some 0%Z) |} in
  readFileSync (join previewDir "00000000-0000-4000-8000-00000000000d.png")
               (disk (after (post_preview [slides] uuid_c uuid_d run boot)))
  = Some (Blob 32).
Proof. vm_compute. reflexivity. Qed.

(** X15.  [POST /preview-pdf] starts the tool at most once and registers
    nothing, whatever happens: registries, timers and clock are as before, and
    with a file in the request its scratch directory is gone at the response.
    Answered 200, the body is the content of a file of the scratch directory
    named [*.pdf]. *)
Theorem preview_pdf_returns_bytes_and_keeps_nothing
  (file : option UploadedFile) (wid : Uuid) (run : ToolRun) (st : State) :
  let o := preview_pdf_handler file wid run st in
  let workdir := "ppt_preview_pdf_" +:+ uuid_str wid in
  (length (spawned o) ≤ 1)%nat
  ∧ generatedFiles (after o) = generatedFiles st
  ∧ previewFiles (after o) = previewFiles st
  ∧ timers (after o) = timers st
  ∧ clock (after o) = clock st
  ∧ (∀ f, file = Some f → disk (after o) !! workdir = None)
  ∧ (∀ f, file = Some f → statusCode (response o) = 200 →
       ∃ fs2 pdf buf,
         preview_scratch "ppt_preview_pdf_" f wid run st = Some fs2
         ∧ is_pdf pdf = true
         ∧ readFileSync (join workdir pdf) fs2 = Some buf
         ∧ body (response o) = PdfBytes buf).
Proof.
  cbv zeta.
  destruct (preview_pdf_handler_after file wid run st) as [fs Hafter].
  split.
  { unfold preview_pdf_handler, preview_server_error.
    repeat case_match; simpl; lia. }
  split; [by rewrite Hafter|]. split; [by rewrite Hafter|].
  split; [by rewrite Hafter|]. split; [by rewrite Hafter|].
  clear fs Hafter. split.
  - intros f ->. unfold preview_pdf_handler, preview_server_error.
    repeat case_match; simpl; apply cleanup_removes.
  - intros f ->. unfold preview_pdf_handler, preview_scratch, preview_server_error.
    destruct (renameSync _ _ _) as [fs1|]; [|done]. simpl.
    set (workdir := "ppt_preview_pdf_" +:+ uuid_str wid) in *.
    set (fs2 := tool_writes workdir (written run) fs1).
    destruct (ending run); [|done|];
      (destruct (readdirSync workdir fs2) as [names|] eqn:Hnames; [|done];
       destruct (filter (λ fn, is_pdf fn = true) names) as [|pdf rest] eqn:Hpdfs;
         [done|];
       destruct (readFileSync (join workdir pdf) fs2) as [buf|] eqn:Hbuf; [|done];
       intros _; exists fs2, pdf, buf;
       split; [done|]; split; [|done];
       assert (pdf ∈ filter (λ fn, is_pdf fn = true) names) as Hin
         by (rewrite Hpdfs; apply list_elem_of_here);
       by apply list_elem_of_filter in Hin as [? _]).
Qed.

(** *** Expiry of previews *)

Lemma fire_previews_absent cb id st :
  previewFiles st !! id = None → previewFiles (fire cb st) !! id = None.
Proof.
  intros Hnone. destruct cb as [p id'|p id']; simpl; [done|].
  apply lookup_delete_None. by right.
Qed.

Lemma fire_all_previews_absent id l : ∀ st,
  previewFiles st !! id = None →
  previewFiles (foldl (λ acc tm, fire (callback tm) acc) st l) !! id = None.
Proof.
  induction l as [|tm l IH]; intros st Hnone; simpl; [done|].
  by apply IH, fire_previews_absent.
Qed.

Lemma step_preview_expiry (d : Z) (p : Path) (id : string) (st : State) (e : Event) :
  preview_id e ≠ Some id →
  previewFiles st !! id = None
  ∨ (clock st < d)%Z ∧ {| due := d; callback := ExpirePreview p id |} ∈ timers st →
  previewFiles (state_of (step st e)) !! id = None
  ∨ (clock (state_of (step st e)) < d)%Z
    ∧ {| due := d; callback := ExpirePreview p id |} ∈ timers (state_of (step st e)).
Proof.
  intros Hid Hst.
  destruct e as [parts wid id' tool zipError|parts wid run|parts wid id' run
                 |id'|id'|k|ms]; simpl in *.
  all: rewrite ?state_of_proceed in *.
  - unfold post_convert. destruct (multer 50 parts) as [message|files]; [done|].
    destruct (convert_handler_after files wid id' tool zipError
                (set_disk (store_uploads files (disk st)) st))
      as [[_ [fs ->]]|[_ (fs & info & -> & _)]]; simpl; [done|].
    destruct Hst as [?|[? ?]]; [by left|right].
    split; [done|]. apply elem_of_app. by left.
  - unfold post_preview_pdf. destruct (multer 1 parts) as [message|files]; [done|].
    by destruct (preview_pdf_handler_after (head files) wid run
                   (set_disk (store_uploads files (disk st)) st)) as [fs ->].
  - unfold post_preview. destruct (multer 1 parts) as [message|files]; [done|].
    destruct (preview_handler_after (head files) wid id' run
                (set_disk (store_uploads files (disk st)) st))
      as [[fs ->]|(fs & q & ->)]; simpl; [done|].
    rewrite lookup_insert_ne by congruence.
    destruct Hst as [?|[? ?]]; [by left|right].
    split; [done|]. apply elem_of_app. by left.
  - done.
  - rewrite get_download_previews.
    by destruct (get_download_frame id' st) as (_ & -> & -> & _).
  - destruct (download_done_frame k st) as [-> ->].
    unfold download_done. by destruct (transfers st !! k) as [[? ?]|].
  - unfold elapse.
    destruct (fire_all_frame
                (filter (λ tm, (due tm ≤ clock st + Z.of_N ms)%Z) (timers st))
                (set_timers
                   (filter (λ tm, ¬ (due tm ≤ clock st + Z.of_N ms)%Z) (timers st))
                   (set_clock (clock st + Z.of_N ms) st))) as [-> ->].
    simpl. destruct Hst as [Hnone|[Hclock Hin]].
    + left. by apply fire_all_previews_absent.
    + destruct (decide (d ≤ clock st + Z.of_N ms)%Z) as [Hdue|Hlater].
      * left. apply (fire_all_expires_preview p id d).
        apply list_elem_of_filter. by split.
      * right. split; [lia|]. apply list_elem_of_filter. by split.
Qed.

Lemma exec_preview_expiry (d : Z) (p : Path) (id : string) (events : list Event) :
  ∀ st,
  (∀ e, e ∈ events → preview_id e ≠ Some id) →
  previewFiles st !! id = None
  ∨ (clock st < d)%Z ∧ {| due := d; callback := ExpirePreview p id |} ∈ timers st →
  previewFiles (exec st events) !! id = None
  ∨ (clock (exec st events) < d)%Z
    ∧ {| due := d; callback := ExpirePreview p id |} ∈ timers (exec st events).
Proof.
  intros st Hids.
  apply (exec_invariant
           (λ s, previewFiles s !! id = None
                 ∨ (clock s < d)%Z
                   ∧ {| due := d; callback := ExpirePreview p id |} ∈ timers s)).
  intros st' e Hin. apply step_preview_expiry. by apply Hids.
Qed.

Lemma preview_handler_registers file wid id run st :
  statusCode (response (preview_handler file wid id run st)) = 200 →
  ∃ fs p, after (preview_handler file wid id run st)
          = set_disk fs
              (setTimeout (ExpirePreview p (uuid_str id)) TTL
                 (set_previewFiles (<[uuid_str id := p]> (previewFiles st)) st)).
Proof.
  unfold preview_handler, preview_server_error.
  repeat case_match; simpl; first [discriminate | intros _; do 2 eexists; reflexivity].
Qed.

(** X16.  A preview registered by [POST /preview] is gone ten minutes later:
    after any run that the process survives and in which no later preview
    draws the same identifier, once the clock has reached the registration
    time plus 600000 ms, [GET /preview/:id] answers 404. *)
Theorem preview_expires
  (parts : list UploadedFile) (wid id : Uuid) (run : ToolRun) (st : State)
  (events : list Event) :
  let o := post_preview parts wid id run st in
  statusCode (response o) = 200 →
  alive (after o) events = true →
  (∀ e, e ∈ events → preview_id e ≠ Some (uuid_str id)) →
  (clock st + 600000 ≤ clock (exec (after o) events))%Z →
  get_preview (uuid_str id) (exec (after o) events)
  = not_found "Preview not found or expired.".
Proof.
  cbv zeta. intros Hok _ Hids Hlate.
  unfold post_preview in *. destruct (multer 1 parts) as [message|files]; [done|].
  destruct (preview_handler_registers (head files) wid id run
              (set_disk (store_uploads files (disk st)) st) Hok)
    as (fs & p & Hafter).
  clear Hok.
  set (s0 := after (preview_handler (head files) wid id run
                      (set_disk (store_uploads files (disk st)) st))) in *.
  assert ((clock s0 < clock st + TTL)%Z
          ∧ {| due := clock st + TTL; callback := ExpirePreview p (uuid_str id) |}
            ∈ timers s0) as Hstart.
  { rewrite Hafter. simpl. split; [unfold TTL; lia|].
    apply elem_of_app. right. apply list_elem_of_here. }
  clearbody s0.
  assert (previewFiles (exec s0 events) !! uuid_str id = None) as Hnone.
  { destruct (exec_preview_expiry (clock st + TTL) p (uuid_str id) events s0 Hids
                (or_intror Hstart)) as [H|[Hearly _]]; [done|].
    unfold TTL in Hearly. lia. }
  unfold get_preview. by destruct (js_get_not_own _ _ Hnone) as [-> | ->].
Qed.

Lemma preview_expires_witness :
  get_preview (uuid_str uuid_d) (exec previewed [Elapse 600000])
  = not_found "Preview not found or expired.".
Proof.
  apply (preview_expires [slides] uuid_c uuid_d run_png boot [Elapse 600000]).
  - vm_compute. reflexivity.
  - vm_compute. reflexivity.
  - intros e ->%list_elem_of_singleton. discriminate.
  - vm_compute. discriminate.
Defined.

(** *** The conversion binary *)

Lemma findSoffice_loop_first present candidates :
  "soffice" ∈ candidates →
  ∃ r before rest,
    findSoffice_loop present candidates = Some r
    ∧ candidates = before ++ r :: rest
    ∧ (∀ q, q ∈ before → q ≠ "soffice" ∧ present q = false)
    ∧ (r = "soffice" ∨ present r = true).
Proof.
  induction candidates as [|p l IH]; intros Hin; [by apply elem_of_nil in Hin|].
  simpl. destruct (String.eqb p "soffice") eqn:Hp.
  - apply String.eqb_eq in Hp as ->. exists "soffice", [], l.
    split; [done|]. split; [done|]. split; [by intros q ?%elem_of_nil|by left].
  - apply String.eqb_neq in Hp. destruct (present p) eqn:Hpresent.
    + exists p, [], l. split; [done|]. split; [done|].
      split; [by intros q ?%elem_of_nil|by right].
    + apply elem_of_cons in Hin as [Heq|Hin]; [congruence|].
      destruct (IH Hin) as (r & before & rest & Hr & -> & Hbefore & Hlast).
      exists r, (p :: before), rest. split; [done|]. split; [done|].
      split; [|done]. intros q [->|Hq]%elem_of_cons; [done|by apply Hbefore].
Qed.

(** X17.  [findSoffice] returns the first candidate that exists on the
    machine, looking at the value of [SOFFICE_PATH] first when it is set and
    not empty, and the bare command [soffice] when none of the places before it
    exists; it never returns a path it has not found. *)
Theorem findSoffice_returns_first_existing (env : option string) (present : string → bool) :
  ∃ before rest,
    SOFFICE_CANDIDATES env = before ++ findSoffice env present :: rest
    ∧ (∀ q, q ∈ before → q ≠ "soffice" ∧ present q = false)
    ∧ (findSoffice env present = "soffice" ∨ present (findSoffice env present) = true).
Proof.
  destruct (findSoffice_loop_first present (SOFFICE_CANDIDATES env))
    as (r & before & rest & Hr & Hsplit & Hbefore & Hlast).
  { unfold SOFFICE_CANDIDATES. apply elem_of_app. right.
    do 5 apply list_elem_of_further. apply list_elem_of_here. }
  unfold findSoffice. rewrite Hr. simpl. by exists before, rest.
Qed.

(** With [SOFFICE_PATH] naming a file that exists, that file is the
    binary. *)
Example findSoffice_override (p : string) (present : string → bool) :
  p ≠ "" → present p = true → findSoffice (Some p) present = p.
Proof.
  intros Hp Hpresent. unfold findSoffice, SOFFICE_CANDIDATES.
  apply String.eqb_neq in Hp. rewrite Hp. simpl.
  destruct (String.eqb p "soffice") eqn:Hs; simpl.
  - by apply String.eqb_eq in Hs.
  - by rewrite Hpresent.
Qed.

(** *** The link in the answer *)

Lemma is_pdf_not_empty fn : is_pdf fn = true → fn ≠ "".
Proof. by intros H ->. Qed.

(** A conversion answered 200 has put its file in the artifact directory
    under its identifier, registered it with its timer, and announced the
    name the download will carry. *)
Lemma post_convert_registered parts wid id tool zipError st :
  let o := post_convert parts wid id tool zipError st in
  statusCode (response o) = 200 →
  ∃ info fs,
    body (response o)
    = JsonDownload ("/download/" +:+ uuid_str id) (downloadName info)
    ∧ downloadName info ≠ ""
    ∧ after o = set_disk fs (register (uuid_str id) info st)
    ∧ existsSync (path info) fs = true
    ∧ artifact_path (uuid_str id) (path info).
Proof.
  cbv zeta. pose proof (workdir_not_filesDir wid) as Hdirs.
  unfold post_convert.
  destruct (multer 50 parts) as [message|files] eqn:Hm; [done|].
  unfold convert_handler, server_error.
  destruct files as [|f rest] eqn:Hfiles; [done|]. rewrite <- Hfiles. clear Hfiles.
  destruct (move_uploads _ _ _) as [fs1|]; [|done].
  destruct (convert_loop _ _ _ _ _ _) as [[fs2 log] [[nm message]|]]; [done|].
  destruct (readdirSync (workdir_of wid) fs2) as [names|] eqn:Hnames; [|done].
  destruct (filter (λ fn, is_pdf fn = true) names) as [|pdf [|pdf2 more]] eqn:Hpdfs;
    [done| |].
  - destruct (copyFileSync _ _ _) as [fs4|] eqn:Hcopy; [|done]. intros _.
    assert (is_pdf pdf = true) as Hpdf.
    { assert (pdf ∈ filter (λ fn, is_pdf fn = true) names) as Hin
        by (rewrite Hpdfs; apply list_elem_of_here).
      by apply list_elem_of_filter in Hin as [? _]. }
    eexists {| path := _; downloadName := pdf |}, _.
    split; [done|]. split; [by apply is_pdf_not_empty|]. split; [done|]. split.
    + cbn [path]. unfold existsSync. rewrite (readFileSync_dir_eq _ fs4)
        by (simpl; by apply cleanup_lookup_ne).
      unfold copyFileSync in Hcopy.
      destruct (readFileSync (join (workdir_of wid) pdf) (mkdirSync filesDir fs2));
        [|done].
      by rewrite (writeFileSync_read _ _ _ _ Hcopy).
    + split; [apply uuid_length|by eexists].
  - destruct zipError as [message|]; [done|]. intros _.
    eexists {| path := _; downloadName := "converted-pdfs.zip" |}, _.
    split; [done|]. split; [done|]. split; [done|]. split.
    + cbn [path]. unfold existsSync.
      rewrite (readFileSync_dir_eq _
        (create_file (join filesDir (uuid_str id +:+ ".zip"))
           (ZipArchive (zip_entries (workdir_of wid) (pdf :: pdf2 :: more)
              (create_file (join filesDir (uuid_str id +:+ ".zip")) (ZipArchive [])
                 (mkdirSync filesDir fs2))))
           (create_file (join filesDir (uuid_str id +:+ ".zip")) (ZipArchive [])
              (mkdirSync filesDir fs2))))
        by (simpl; by apply cleanup_lookup_ne).
      rewrite create_file_read; [done|].
      apply create_file_is_Some, mkdirSync_is_Some.
    + split; [apply uuid_length|by eexists].
Qed.

(** X18.  The link that a successful conversion hands out works: asked right
    after the response, [GET /download/:id] at the URL of the answer serves
    the registered file as an attachment under the file name the answer
    announced. *)
Theorem download_link_works
  (parts : list UploadedFile) (wid id : Uuid) (tool : nat → ToolRun)
  (zipError : option string) (st : State) :
  let o := post_convert parts wid id tool zipError st in
  statusCode (response o) = 200 →
  ∃ filename info,
    body (response o) = JsonDownload ("/download/" +:+ uuid_str id) filename
    ∧ generatedFiles (after o) !! uuid_str id = Some info
    ∧ (get_download (uuid_str id) (after o)).1
      = {| statusCode := 200; body := Attachment (path info) filename |}.
Proof.
  cbv zeta. intros Hok.
  destruct (post_convert_registered parts wid id tool zipError st Hok)
    as (info & fs & Hbody & Hname & Hafter & Hthere & _).
  exists (downloadName info), info. split; [done|]. rewrite Hafter.
  split; [simpl; apply lookup_insert_eq|].
  unfold get_download.
  cbn [generatedFiles set_disk register setTimeout set_timers set_generatedFiles disk].
  rewrite (js_get_own _ _ _ (lookup_insert_eq _ _ _)), Hthere.
  apply String.eqb_neq in Hname. by rewrite Hname.
Qed.

Lemma download_link_works_witness :
  ∃ filename info,
    body (response (post_convert [slides; talk] uuid_a uuid_b tool_ok None boot))
    = JsonDownload ("/download/" +:+ uuid_str uuid_b) filename
    ∧ generatedFiles (after (post_convert [slides; talk] uuid_a uuid_b tool_ok None boot))
      !! uuid_str uuid_b = Some info
    ∧ (get_download (uuid_str uuid_b)
         (after (post_convert [slides; talk] uuid_a uuid_b tool_ok None boot))).1
      = {| statusCode := 200; body := Attachment (path info) filename |}.
Proof.
  apply (download_link_works [slides; talk] uuid_a uuid_b tool_ok None boot).
  vm_compute. reflexivity.
Defined.

(** *** Nothing is kept *)

Lemma read_try_unlink p q fs :
  q ≠ p → readFileSync p (try_unlink q fs) = readFileSync p fs.
Proof.
  intros Hne. unfold try_unlink.
  destruct (unlinkSync q fs) as [fs'|] eqn:Hu; simpl; [|done].
  by eapply read_unlinkSync.
Qed.

Lemma read_create_file p q c fs :
  q ≠ p → readFileSync p (create_file q c fs) = readFileSync p fs.
Proof.
  intros Hne. unfold create_file.
  destruct (writeFileSync q c fs) as [fs'|] eqn:Hw; simpl; [|done].
  by eapply read_writeFileSync.
Qed.

Lemma read_tool_writes p outdir files fs :
  dir p ≠ outdir → readFileSync p (tool_writes outdir files fs) = readFileSync p fs.
Proof.
  intros Hne. apply readFileSync_dir_eq. unfold tool_writes.
  destruct (fs !! outdir); [|done]. by rewrite lookup_insert_ne.
Qed.

Lemma read_cleanup p d fs :
  dir p ≠ d → readFileSync p (cleanup d fs) = readFileSync p fs.
Proof. intros Hne. by apply readFileSync_dir_eq, cleanup_lookup_ne. Qed.

Lemma read_store_uploads p files : ∀ fs,
  (∀ f, f ∈ files → upload_path f ≠ p) →
  readFileSync p (store_uploads files fs) = readFileSync p fs.
Proof.
  unfold store_uploads.
  induction files as [|f rest IH]; intros fs Hall; simpl; [done|].
  rewrite IH by (intros g Hg; apply Hall; by apply list_elem_of_further).
  pose proof (Hall f (list_elem_of_here _ _)) as Hf.
  unfold readFileSync. destruct (decide (dir p = uploads)) as [Hd|Hd].
  - rewrite Hd, lookup_insert_eq. simpl.
    rewrite lookup_insert_ne.
    + by destruct (fs !! uploads).
    + intros Hb. apply Hf. destruct p; simpl in *. by subst.
  - by rewrite lookup_insert_ne.
Qed.

Lemma read_move_uploads p workdir files : ∀ fs fs',
  dir p ≠ workdir → (∀ f, f ∈ files → upload_path f ≠ p) →
  (move_uploads workdir files fs = Done fs' ∨ move_uploads workdir files fs = Threw fs') →
  readFileSync p fs' = readFileSync p fs.
Proof.
  induction files as [|f rest IH]; intros fs fs' Hne Hall; simpl.
  - intros [?|?]; by simplify_eq.
  - destruct (renameSync _ _ fs) as [fs1|] eqn:Hr.
    + intros Hmove. rewrite (IH fs1 fs' Hne) by
        (first [done | intros g Hg; apply Hall; by apply list_elem_of_further]).
      eapply read_renameSync; [exact Hr| |].
      * apply Hall, list_elem_of_here.
      * intros <-. by apply Hne.
    + intros [?|?]; by simplify_eq.
Qed.

Lemma read_convert_loop p workdir tool files : ∀ i fs log,
  dir p ≠ workdir →
  readFileSync p (convert_loop workdir files i tool fs log).1.1 = readFileSync p fs.
Proof.
  induction files as [|f rest IH]; intros i fs log Hne; simpl; [done|].
  destruct (convertWithSoffice (tool i)); simpl.
  - by apply read_tool_writes.
  - rewrite IH by done. by apply read_tool_writes.
Qed.

Lemma read_unlink_uploads p (files : list UploadedFile) : ∀ fs,
  (∀ f, f ∈ files → upload_path f ≠ p) →
  readFileSync p (foldl (λ acc f, try_unlink (upload_path f) acc) fs files)
  = readFileSync p fs.
Proof.
  induction files as [|f rest IH]; intros fs Hall; simpl; [done|].
  rewrite IH by (intros g Hg; apply Hall; by apply list_elem_of_further).
  apply read_try_unlink, Hall, list_elem_of_here.
Qed.

(** What [POST /convert] does to a file that is neither in its scratch
    directory nor one of its uploads: nothing, unless the file is the
    artifact of the request. *)
Lemma convert_handler_reads p files wid id tool zipError st :
  let o := convert_handler files wid id tool zipError st in
  dir p ≠ workdir_of wid → (∀ f, f ∈ files → upload_path f ≠ p) →
  readFileSync p (disk (after o)) = readFileSync p (disk st)
  ∨ (∃ ext, p = join filesDir (uuid_str id +:+ ext))
    ∧ (zipError = None →
       ∃ fs name, after o
                  = set_disk fs (register (uuid_str id)
                                   {| path := p; downloadName := name |} st)).
Proof.
  cbv zeta. intros Hne Hup.
  unfold convert_handler, server_error.
  destruct files as [|f rest] eqn:Hfiles; [by left|]. rewrite <- Hfiles in *. clear Hfiles.
  destruct (move_uploads _ _ _) as [fs1|fs1] eqn:Hmove.
  2:{ left. simpl. rewrite read_cleanup, read_unlink_uploads by done.
      rewrite (read_move_uploads p _ _ _ fs1 Hne Hup (or_intror Hmove)).
      apply read_mkdirSync. }
  assert (readFileSync p fs1 = readFileSync p (disk st)) as H1.
  { rewrite (read_move_uploads p _ _ _ fs1 Hne Hup (or_introl Hmove)).
    apply read_mkdirSync. }
  pose proof (read_convert_loop p (workdir_of wid) tool files 0 fs1 [] Hne) as H2.
  destruct (convert_loop _ _ _ _ _ _) as [[fs2 log] failure]. simpl in H2.
  rewrite H1 in H2. clear H1.
  destruct failure as [[nm message]|]; [left; simpl; by rewrite read_cleanup|].
  destruct (readdirSync _ _) as [names|];
    [|left; simpl; by rewrite read_cleanup, read_unlink_uploads].
  destruct (filter _ names) as [|pdf [|pdf2 more]].
  - left. simpl. by rewrite read_cleanup.
  - destruct (copyFileSync _ _ _) as [fs4|] eqn:Hcopy.
    + match type of Hcopy with
      | copyFileSync _ ?dest _ = _ => destruct (Path_eq_or_ne dest p) as [<-|Hdest]
      end.
      * right. split; [by eexists|]. intros _. by eexists _, _.
      * left. simpl. rewrite read_cleanup by done.
        rewrite (read_copyFileSync _ _ _ _ _ Hcopy) by done.
        by rewrite read_mkdirSync.
    + left. simpl. by rewrite read_cleanup, read_unlink_uploads, read_mkdirSync.
  - destruct (Path_eq_or_ne (join filesDir (uuid_str id +:+ ".zip")) p) as [<-|Hdest].
    + right. split; [by eexists|]. intros ->. by eexists _, _.
    + left. destruct zipError; simpl; rewrite read_cleanup by done;
        rewrite !read_create_file by done; by rewrite read_mkdirSync.
Qed.

Lemma preview_pdf_handler_reads p file wid run st :
  dir p ≠ "ppt_preview_pdf_" +:+ uuid_str wid →
  (∀ f, file = Some f → upload_path f ≠ p) →
  readFileSync p (disk (after (preview_pdf_handler file wid run st)))
  = readFileSync p (disk st).
Proof.
  intros Hne Hup. unfold preview_pdf_handler, preview_server_error.
  destruct file as [f|]; [|done]. pose proof (Hup f eq_refl) as Hf.
  destruct (renameSync _ _ _) as [fs1|] eqn:Hr.
  2:{ simpl. by rewrite read_cleanup, read_try_unlink, read_mkdirSync. }
  assert (readFileSync p (tool_writes ("ppt_preview_pdf_" +:+ uuid_str wid)
                                      (written run) fs1)
          = readFileSync p (disk st)) as H2.
  { rewrite read_tool_writes by done.
    rewrite (read_renameSync _ _ _ _ _ Hr); [apply read_mkdirSync|done|].
    intros <-. by apply Hne. }
  repeat case_match; simpl; by rewrite read_cleanup.
Qed.

Lemma preview_handler_reads p file wid id run st :
  let o := preview_handler file wid id run st in
  dir p ≠ "ppt_preview_" +:+ uuid_str wid →
  (∀ f, file = Some f → upload_path f ≠ p) →
  readFileSync p (disk (after o)) = readFileSync p (disk st)
  ∨ (∃ ext, p = join previewDir (uuid_str id +:+ ext))
    ∧ ∃ fs, after o
            = set_disk fs
                (setTimeout (ExpirePreview p (uuid_str id)) TTL
                   (set_previewFiles (<[uuid_str id := p]> (previewFiles st)) st)).
Proof.
  cbv zeta. intros Hne Hup. unfold preview_handler, preview_server_error.
  destruct file as [f|]; [|by left]. pose proof (Hup f eq_refl) as Hf.
  destruct (renameSync _ _ _) as [fs1|] eqn:Hr.
  2:{ left. simpl. by rewrite read_cleanup, read_try_unlink, read_mkdirSync. }
  assert (readFileSync p (tool_writes ("ppt_preview_" +:+ uuid_str wid)
                                      (written run) fs1)
          = readFileSync p (disk st)) as H2.
  { rewrite read_tool_writes by done.
    rewrite (read_renameSync _ _ _ _ _ Hr); [apply read_mkdirSync|done|].
    intros <-. by apply Hne. }
  destruct (ending run); try (left; simpl; by rewrite read_cleanup);
    (destruct (readdirSync _ _) as [names|]; [|left; simpl; by rewrite read_cleanup];
     destruct (js_sort _) as [|image others]; [left; simpl; by rewrite read_cleanup|];
     destruct (copyFileSync _ _ _) as [fs4|] eqn:Hcopy;
       [|left; simpl; by rewrite read_cleanup, read_mkdirSync];
     match type of Hcopy with
     | copyFileSync _ ?dest _ = _ => destruct (Path_eq_or_ne dest p) as [<-|Hdest]
     end;
       [ right; split; [by eexists|by eexists]
       | left; simpl; rewrite read_cleanup by done;
         rewrite (read_copyFileSync _ _ _ _ _ Hcopy) by done;
         by rewrite read_mkdirSync ]).
Qed.

(** The upload of a preview request is gone from multer's directory when the
    handler has answered. *)
Lemma preview_pdf_handler_upload_absent f wid run st :
  absent (upload_path f) (disk (after (preview_pdf_handler (Some f) wid run st))).
Proof.
  assert ("ppt_preview_pdf_" +:+ uuid_str wid ≠ uploads) as Hne.
  { intros H. apply (f_equal String.length) in H.
    rewrite length_app_string, uuid_length in H. simpl in H. lia. }
  unfold preview_pdf_handler, preview_server_error.
  destruct (renameSync _ _ _) as [fs1|] eqn:Hr.
  2:{ simpl. apply absent_cleanup, absent_exists, try_unlink_gone. }
  assert (absent (upload_path f)
            (tool_writes ("ppt_preview_pdf_" +:+ uuid_str wid) (written run) fs1)) as H2.
  { apply absent_tool_writes; [simpl; congruence|].
    eapply renameSync_source_absent; [exact Hr|]. intros Heq. apply Hne.
    by injection Heq. }
  repeat case_match; simpl; by apply absent_cleanup.
Qed.

Lemma preview_handler_upload_absent f wid id run st :
  absent (upload_path f) (disk (after (preview_handler (Some f) wid id run st))).
Proof.
  assert ("ppt_preview_" +:+ uuid_str wid ≠ uploads) as Hne.
  { intros H. apply (f_equal String.length) in H.
    rewrite length_app_string, uuid_length in H. simpl in H. lia. }
  assert (∀ b, join previewDir b ≠ upload_path f) as Hdest by done.
  unfold preview_handler, preview_server_error.
  destruct (renameSync _ _ _) as [fs1|] eqn:Hr.
  2:{ simpl. apply absent_cleanup, absent_exists, try_unlink_gone. }
  assert (absent (upload_path f)
            (tool_writes ("ppt_preview_" +:+ uuid_str wid) (written run) fs1)) as H2.
  { apply absent_tool_writes; [simpl; congruence|].
    eapply renameSync_source_absent; [exact Hr|]. intros Heq. apply Hne.
    by injection Heq. }
  repeat case_match; simpl; apply absent_cleanup;
    first [ done
          | by apply absent_mkdirSync
          | eapply absent_copyFileSync; [eassumption|apply Hdest|];
            by apply absent_mkdirSync ].
Qed.

Lemma preview_pdf_handler_scratch f wid run st :
  disk (after (preview_pdf_handler (Some f) wid run st))
    !! ("ppt_preview_pdf_" +:+ uuid_str wid) = None.
Proof.
  unfold preview_pdf_handler, preview_server_error.
  repeat case_match; simpl; apply cleanup_removes.
Qed.

Lemma preview_handler_scratch f wid id run st :
  disk (after (preview_handler (Some f) wid id run st))
    !! ("ppt_preview_" +:+ uuid_str wid) = None.
Proof.
  unfold preview_handler, preview_server_error.
  repeat case_match; simpl; apply cleanup_removes.
Qed.

Lemma doomed_later p st st' :
  clock st' = clock st → (∀ tm, tm ∈ timers st → tm ∈ timers st') →
  doomed p st → doomed p st'.
Proof.
  intros Hclock Hsub (tm & Hin & Hp & Hdue). exists tm.
  rewrite Hclock. auto.
Qed.

Lemma doomed_registered p id name fs st :
  doomed p (set_disk fs (register id {| path := p; downloadName := name |} st)).
Proof.
  eexists. split; [apply elem_of_app; right; apply list_elem_of_here|].
  simpl. split; [done|]. unfold TTL. lia.
Qed.

Lemma doomed_preview p id fs q st :
  doomed p (set_disk fs (setTimeout (ExpirePreview p id) TTL (set_previewFiles q st))).
Proof.
  eexists. split; [apply elem_of_app; right; apply list_elem_of_here|].
  simpl. split; [done|]. unfold TTL. lia.
Qed.

Lemma uploads_not_kept q st :
  transient st → dir q = uploads → absent q (disk st).
Proof.
  intros K Hq. apply absent_exists.
  destruct (existsSync q (disk st)) eqn:Hthere; [|done].
  destruct (K q Hthere) as [[H|H] _]; by rewrite Hq in H.
Qed.

Lemma upload_path_of (q : Path) (files : list UploadedFile) :
  dir q = uploads →
  (∃ f, f ∈ files ∧ q = upload_path f) ∨ (∀ f, f ∈ files → upload_path f ≠ q).
Proof.
  intros Hq. destruct (decide (base q ∈ filename <$> files)) as [Hin|Hout].
  - left. apply list_elem_of_fmap in Hin as (f & Hf & Hin). exists f.
    split; [done|]. destruct q; simpl in *. by subst.
  - right. intros f Hf <-. apply Hout. apply list_elem_of_fmap. by exists f.
Qed.

Lemma post_convert_transient parts wid id tool st :
  transient st → transient (after (post_convert parts wid id tool None st)).
Proof.
  intros K p. unfold post_convert.
  destruct (multer 50 parts) as [message|files]; [apply K|].
  set (st' := set_disk (store_uploads files (disk st)) st).
  destruct (decide (files = [])) as [->|Hfiles]; [apply K|].
  intros Hp.
  destruct (decide (dir p = workdir_of wid)) as [Hw|Hw].
  { exfalso. pose proof (convert_handler_scratch files wid id tool None st' Hfiles) as H.
    unfold existsSync, readFileSync in Hp. rewrite Hw, H in Hp. done. }
  destruct (decide (dir p = uploads)) as [Hu|Hu].
  { exfalso. assert (absent p (disk (after (convert_handler files wid id tool None st'))))
      as H; [|apply absent_exists in H; congruence].
    destruct (upload_path_of p files Hu) as [(f & Hf & ->)|Hother].
    - by apply convert_handler_upload_absent.
    - destruct (convert_handler_reads p files wid id tool None st' Hw Hother)
        as [Hsame|[[ext ->] _]]; [|done].
      unfold absent. rewrite Hsame. subst st'. simpl.
      rewrite read_store_uploads by done. by apply uploads_not_kept. }
  assert (∀ f, f ∈ files → upload_path f ≠ p) as Hother.
  { intros f _ <-. by apply Hu. }
  destruct (convert_handler_reads p files wid id tool None st' Hw Hother)
    as [Hsame|[[ext ->] Hreg]].
  - assert (existsSync p (disk st) = true) as Hbefore.
    { unfold existsSync in *. rewrite Hsame in Hp. subst st'. simpl in Hp.
      by rewrite read_store_uploads in Hp. }
    destruct (K p Hbefore) as [Hdir Hdoomed]. split; [done|].
    eapply doomed_later; [| |exact Hdoomed].
    + destruct (convert_handler_after files wid id tool None st')
        as [[_ [fs ->]]|[_ (fs & info & -> & _)]]; done.
    + intros tm Htm.
      destruct (convert_handler_after files wid id tool None st')
        as [[_ [fs ->]]|[_ (fs & info & -> & _)]]; simpl; [done|].
      apply elem_of_app. by left.
  - destruct (Hreg eq_refl) as (fs & name & ->). split; [by left|].
    apply doomed_registered.
Qed.

Lemma multer_single parts files :
  multer 1 parts = inr files → files = [] ∨ ∃ f, files = [f].
Proof.
  intros H. pose proof (multer_accepts 1 parts files H) as ->.
  apply multer_inr in H as [Hlen _].
  destruct parts as [|f [|g rest]]; [by left|right; by exists f|simpl in Hlen; lia].
Qed.

Lemma post_preview_pdf_transient parts wid run st :
  transient st → transient (after (post_preview_pdf parts wid run st)).
Proof.
  intros K p. unfold post_preview_pdf.
  destruct (multer 1 parts) as [message|files] eqn:Hm; [apply K|].
  set (st' := set_disk (store_uploads files (disk st)) st).
  destruct (multer_single parts files Hm) as [->|[f ->]]; [apply K|]. cbn [head].
  intros Hp.
  destruct (decide (dir p = "ppt_preview_pdf_" +:+ uuid_str wid)) as [Hw|Hw].
  { exfalso. pose proof (preview_pdf_handler_scratch f wid run st') as H.
    unfold existsSync, readFileSync in Hp. rewrite Hw, H in Hp. done. }
  destruct (Path_eq_or_ne (upload_path f) p) as [<-|Hf].
  { exfalso. pose proof (preview_pdf_handler_upload_absent f wid run st') as H.
    apply absent_exists in H. congruence. }
  assert (∀ g, Some f = Some g → upload_path g ≠ p) as Hother by (by intros g [= <-]).
  pose proof (preview_pdf_handler_reads p (Some f) wid run st' Hw Hother) as Hsame.
  assert (existsSync p (disk st) = true) as Hbefore.
  { unfold existsSync in *. rewrite Hsame in Hp. subst st'. cbn [disk set_disk] in Hp.
    rewrite read_store_uploads in Hp; [done|].
    by intros g ->%list_elem_of_singleton. }
  destruct (K p Hbefore) as [Hdir Hdoomed]. split; [done|].
  destruct (preview_pdf_handler_after (Some f) wid run st') as [fs ->].
  by eapply doomed_later; [| |exact Hdoomed].
Qed.

Lemma post_preview_transient parts wid id run st :
  transient st → transient (after (post_preview parts wid id run st)).
Proof.
  intros K p. unfold post_preview.
  destruct (multer 1 parts) as [message|files] eqn:Hm; [apply K|].
  set (st' := set_disk (store_uploads files (disk st)) st).
  destruct (multer_single parts files Hm) as [->|[f ->]]; [apply K|]. cbn [head].
  intros Hp.
  destruct (decide (dir p = "ppt_preview_" +:+ uuid_str wid)) as [Hw|Hw].
  { exfalso. pose proof (preview_handler_scratch f wid id run st') as H.
    unfold existsSync, readFileSync in Hp. rewrite Hw, H in Hp. done. }
  destruct (Path_eq_or_ne (upload_path f) p) as [<-|Hf].
  { exfalso. pose proof (preview_handler_upload_absent f wid id run st') as H.
    apply absent_exists in H. congruence. }
  assert (∀ g, Some f = Some g → upload_path g ≠ p) as Hother by (by intros g [= <-]).
  destruct (preview_handler_reads p (Some f) wid id run st' Hw Hother)
    as [Hsame|[[ext ->] [fs Hreg]]].
  - assert (existsSync p (disk st) = true) as Hbefore.
    { unfold existsSync in *. rewrite Hsame in Hp. subst st'. cbn [disk set_disk] in Hp.
      rewrite read_store_uploads in Hp; [done|].
      by intros g ->%list_elem_of_singleton. }
    destruct (K p Hbefore) as [Hdir Hdoomed]. split; [done|].
    eapply doomed_later; [| |exact Hdoomed].
    + destruct (preview_handler_after (Some f) wid id run st')
        as [[fs ->]|(fs & q & ->)]; done.
    + intros tm Htm.
      destruct (preview_handler_after (Some f) wid id run st')
        as [[fs ->]|(fs & q & ->)]; simpl; [done|].
      apply elem_of_app. by left.
  - rewrite Hreg. split; [by right|]. apply doomed_preview.
Qed.

Lemma fire_all_unlinks tm l : ∀ st,
  tm ∈ l →
  absent (unlinks (callback tm)) (disk (foldl (λ acc tm, fire (callback tm) acc) st l)).
Proof.
  induction l as [|tm' l IH]; intros st Hin; simpl.
  - by apply elem_of_nil in Hin.
  - apply elem_of_cons in Hin as [<-|Hin]; [|by apply IH].
    apply fire_all_file_absent, absent_exists.
    destruct (callback tm); simpl; apply try_unlink_gone.
Qed.

(** A file that is there after some time was there before, and the timer
    that unlinks it has not run. *)
Lemma elapse_present p ms st :
  existsSync p (disk (elapse ms st)) = true →
  existsSync p (disk st) = true
  ∧ ∀ tm, tm ∈ timers st → unlinks (callback tm) = p →
          (clock st + Z.of_N ms < due tm)%Z.
Proof.
  unfold elapse. intros Hp. split.
  - destruct (existsSync p (disk st)) eqn:Hbefore; [done|].
    apply absent_exists in Hbefore.
    apply (fire_all_file_absent p
             (filter (λ tm, (due tm ≤ clock st + Z.of_N ms)%Z) (timers st))
             (set_timers (filter (λ tm, ¬ (due tm ≤ clock st + Z.of_N ms)%Z) (timers st))
                         (set_clock (clock st + Z.of_N ms) st))) in Hbefore.
    apply absent_exists in Hbefore. congruence.
  - intros tm Htm <-.
    destruct (decide (due tm ≤ clock st + Z.of_N ms)%Z) as [Hdue|Hlater]; [|lia].
    assert (tm ∈ filter (λ tm, (due tm ≤ clock st + Z.of_N ms)%Z) (timers st)) as Hin.
    { apply list_elem_of_filter. by split. }
    apply (fire_all_unlinks tm _
             (set_timers (filter (λ tm, ¬ (due tm ≤ clock st + Z.of_N ms)%Z) (timers st))
                         (set_clock (clock st + Z.of_N ms) st))) in Hin.
    apply absent_exists in Hin. congruence.
Qed.

Lemma elapse_transient ms st : transient st → transient (elapse ms st).
Proof.
  intros K p Hp. destruct (elapse_present p ms st Hp) as [Hbefore Hlater].
  destruct (K p Hbefore) as [Hdir (tm & Htm & Hunlinks & Hdue)]. split; [done|].
  pose proof (Hlater tm Htm Hunlinks) as Hpending.
  exists tm. unfold elapse.
  destruct (fire_all_frame (filter (λ tm, (due tm ≤ clock st + Z.of_N ms)%Z) (timers st))
              (set_timers (filter (λ tm, ¬ (due tm ≤ clock st + Z.of_N ms)%Z) (timers st))
                          (set_clock (clock st + Z.of_N ms) st))) as [-> ->].
  simpl. split; [|split; [done|lia]].
  apply list_elem_of_filter. split; [lia|done].
Qed.

Lemma download_done_transient k st : transient st → transient (download_done k st).
Proof.
  intros K p Hp.
  assert (existsSync p (disk st) = true) as Hbefore.
  { destruct (existsSync p (disk st)) eqn:Hbefore; [done|].
    apply absent_exists in Hbefore.
    assert (absent p (disk (download_done k st))) as H.
    { unfold download_done. destruct (transfers st !! k) as [[id info]|]; [|done].
      simpl. by apply absent_try_unlink. }
    apply absent_exists in H. congruence. }
  destruct (K p Hbefore) as [Hdir Hdoomed]. split; [done|].
  destruct (download_done_frame k st) as [Htimers Hclock].
  eapply doomed_later; [exact Hclock| |exact Hdoomed]. by rewrite Htimers.
Qed.

Lemma step_transient st e : zip_error e = None → transient st → transient (state_of (step st e)).
Proof.
  intros Hzip K.
  destruct e as [parts wid id tool zipError|parts wid run|parts wid id run
                 |id|id|k|ms]; simpl in *.
  all: rewrite ?state_of_proceed in *.
  - subst zipError. by apply post_convert_transient.
  - by apply post_preview_pdf_transient.
  - by apply post_preview_transient.
  - done.
  - intros p. destruct (get_download_frame id st) as (_ & Htimers & Hclock & Hdisk).
    rewrite Hdisk. intros Hp. destruct (K p Hp) as [Hdir Hdoomed]. split; [done|].
    eapply doomed_later; [exact Hclock| |exact Hdoomed]. by rewrite Htimers.
  - by apply download_done_transient.
  - by apply elapse_transient.
Qed.

Lemma exec_transient events : ∀ st,
  (∀ e, e ∈ events → zip_error e = None) → transient st → transient (exec st events).
Proof.
  intros st Hzip. apply (exec_invariant transient).
  intros st' e Hin. apply step_transient. by apply Hzip.
Qed.

(** X19.  The server keeps nothing while it lives.  The tool is taken to put
    regular files into its output directory and no directory, as [ToolRun]
    has it.  Then in every state the process gets into by a run that it
    survives, of requests whose archives are written without error, the only
    files under the temporary directory are artifacts and preview images,
    each with a pending timer that unlinks it within ten minutes; no upload
    and no scratch file is left.  So ten minutes without a request leave no
    file at all. *)
Theorem nothing_is_kept (events : list Event) :
  alive boot events = true →
  (∀ e, e ∈ events → zip_error e = None) →
  (∀ p, existsSync p (disk (exec boot events)) = true →
        (dir p = filesDir ∨ dir p = previewDir) ∧ doomed p (exec boot events))
  ∧ (∀ p ms, (TTL ≤ Z.of_N ms)%Z →
             existsSync p (disk (elapse ms (exec boot events))) = false).
Proof.
  intros _ Hzip.
  assert (transient (exec boot events)) as K.
  { apply exec_transient; [done|]. intros p Hp. exfalso.
    unfold existsSync, readFileSync in Hp.
    change (disk boot) with ({[ uploads := ∅ ]} : Disk) in Hp.
    destruct (decide (dir p = uploads)) as [Hd|Hd].
    - by rewrite Hd, lookup_singleton_eq in Hp.
    - by rewrite lookup_singleton_ne in Hp. }
  split; [exact K|]. intros p ms Hms.
  destruct (existsSync p (disk (elapse ms (exec boot events)))) eqn:Hp; [|done].
  destruct (elapse_present p ms _ Hp) as [Hbefore Hlater].
  destruct (K p Hbefore) as [_ (tm & Htm & Hunlinks & Hdue)].
  pose proof (Hlater tm Htm Hunlinks). lia.
Qed.

Lemma nothing_is_kept_witness :
  existsSync (join filesDir "00000000-0000-4000-8000-00000000000b.pdf")
    (disk (elapse 600000
             (exec boot [PostConvert [slides] uuid_a uuid_b tool_ok None;
                         PostPreview [slides] uuid_c uuid_d run_png]))) = false.
Proof.
  apply (proj2 (nothing_is_kept [PostConvert [slides] uuid_a uuid_b tool_ok None;
                                 PostPreview [slides] uuid_c uuid_d run_png]
                  ltac:(vm_compute; reflexivity)
                  ltac:(intros e He; apply elem_of_cons in He as [->|He];
                        [done|by apply list_elem_of_singleton in He as ->]))).
  unfold TTL. lia.
Defined.

(** With an archiver error the archive that was begun stays where it is, in
    no registry and with no timer, also after ten minutes. *)
Example archiver_error_leaves_the_archive :
  let st := after (post_convert [slides; talk] uuid_a uuid_b tool_ok
                                (Some "write EIO") boot) in
  existsSync (join filesDir "00000000-0000-4000-8000-00000000000b.zip")
             (disk (elapse 600000 st)) = true
  ∧ generatedFiles st !! uuid_str uuid_b = None
  ∧ timers st = [].
Proof. vm_compute. done. Qed.

(** *** Availability *)

Lemma artifact_path_inj id id' p : artifact_path id p → artifact_path id' p → id = id'.
Proof.
  intros [Hlen [ext ->]] [Hlen' [ext' Heq]]. injection Heq as Heq.
  apply (string_app_inj_prefix id id' ext ext'); congruence.
Qed.

Lemma preview_handler_after_shape file wid id run st :
  let o := preview_handler file wid id run st in
  (∃ fs, after o = set_disk fs st)
  ∨ (∃ fs ext, after o
               = set_disk fs
                   (setTimeout
                      (ExpirePreview (join previewDir (uuid_str id +:+ ext)) (uuid_str id))
                      TTL
                      (set_previewFiles
                         (<[uuid_str id := join previewDir (uuid_str id +:+ ext)]>
                            (previewFiles st)) st))).
Proof.
  unfold preview_handler, preview_server_error.
  repeat case_match; simpl;
    first [ left; eexists; reflexivity
          | left; exists (disk st); by destruct st
          | right; do 2 eexists; reflexivity ].
Qed.

Lemma fire_all_transfers l : ∀ st,
  transfers (foldl (λ acc tm, fire (callback tm) acc) st l) = transfers st.
Proof.
  induction l as [|tm l IH]; intros st; simpl; [done|].
  rewrite IH. by destruct (fire_frame (callback tm) st) as (_ & _ & ->).
Qed.

Lemma get_download_transfers id st tr :
  tr ∈ transfers (get_download id st).2 →
  tr ∈ transfers st ∨ ∃ info, tr = (id, info) ∧ generatedFiles st !! id = Some info.
Proof.
  unfold get_download, js_get.
  destruct (generatedFiles st !! id) as [info|] eqn:Hinfo.
  - destruct (existsSync (path info) (disk st)); simpl; [|by left].
    intros [H|H%list_elem_of_singleton]%elem_of_app; [by left|right; eauto].
  - destruct (bool_decide _); simpl; auto.
Qed.

Lemma step_shaped st e : shaped st → shaped (state_of (step st e)).
Proof.
  intros (Hgen & Htimers & Htransfers).
  destruct e as [parts wid id tool zipError|parts wid run|parts wid id run
                 |id|id|k|ms]; simpl.
  all: rewrite ?state_of_proceed in *.
  - unfold post_convert. destruct (multer 50 parts) as [message|files]; [done|].
    destruct (convert_handler_after files wid id tool zipError
                (set_disk (store_uploads files (disk st)) st))
      as [[_ [fs ->]]|[_ (fs & info & -> & ext & Hpath)]]; [done|].
    assert (artifact_path (uuid_str id) (path info)) as Hnew.
    { split; [apply uuid_length|by exists ext]. }
    split; [|split]; simpl.
    + intros id' info' [[<- <-]|[_ H]]%lookup_insert_Some; [done|by apply Hgen].
    + intros tm [H| ->%list_elem_of_singleton]%elem_of_app; [by apply Htimers|done].
    + done.
  - unfold post_preview_pdf. destruct (multer 1 parts) as [message|files]; [done|].
    by destruct (preview_pdf_handler_after (head files) wid run
                   (set_disk (store_uploads files (disk st)) st)) as [fs ->].
  - unfold post_preview. destruct (multer 1 parts) as [message|files]; [done|].
    destruct (preview_handler_after_shape (head files) wid id run
                (set_disk (store_uploads files (disk st)) st))
      as [[fs ->]|(fs & ext & ->)]; [done|].
    split; [|split]; simpl; [done| |done].
    intros tm [H| ->%list_elem_of_singleton]%elem_of_app; [by apply Htimers|].
    split; [apply uuid_length|by exists ext].
  - done.
  - destruct (get_download_frame id st) as (Hg & Ht & _ & _).
    split; [|split].
    + by rewrite Hg.
    + by rewrite Ht.
    + intros id' info' [H|(info & [= -> ->] & H)]%get_download_transfers;
        [by apply Htransfers|by apply Hgen].
  - unfold download_done. destruct (transfers st !! k) as [[id info]|] eqn:Hk; [|done].
    split; [|split]; simpl.
    + intros id' info' [_ H]%lookup_delete_Some. by apply Hgen.
    + done.
    + intros id' info' H. apply Htransfers.
      eapply elem_of_sublist; [exact H|apply sublist_delete].
  - unfold elapse.
    set (t := (clock st + Z.of_N ms)%Z).
    set (expired := filter (λ tm, (due tm ≤ t)%Z) (timers st)).
    set (pending := filter (λ tm, ¬ (due tm ≤ t)%Z) (timers st)).
    split; [|split].
    + intros id info H. apply fire_all_generated in H. by apply Hgen.
    + destruct (fire_all_frame expired (set_timers pending (set_clock t st))) as [-> _].
      simpl. intros tm [_ H]%list_elem_of_filter. by apply Htimers.
    + rewrite fire_all_transfers. done.
Qed.

Lemma exec_shaped events : ∀ st, shaped st → shaped (exec st events).
Proof.
  intros st. apply (exec_invariant shaped). intros st' e _. apply step_shaped.
Qed.

Lemma step_unused id st e :
  artifact_id e ≠ Some id → unused id st → unused id (state_of (step st e)).
Proof.
  intros Hid (Hgen & Htimers & Htransfers).
  destruct e as [parts wid id' tool zipError|parts wid run|parts wid id' run
                 |id'|id'|k|ms]; simpl in *.
  all: rewrite ?state_of_proceed in *.
  - unfold post_convert. destruct (multer 50 parts) as [message|files]; [done|].
    destruct (convert_handler_after files wid id' tool zipError
                (set_disk (store_uploads files (disk st)) st))
      as [[_ [fs ->]]|[_ (fs & info & -> & _)]]; [done|].
    split; [|split]; simpl.
    + rewrite lookup_insert_ne by congruence. done.
    + intros tm p [H| ->%list_elem_of_singleton]%elem_of_app; [by apply Htimers|].
      simpl. congruence.
    + done.
  - unfold post_preview_pdf. destruct (multer 1 parts) as [message|files]; [done|].
    by destruct (preview_pdf_handler_after (head files) wid run
                   (set_disk (store_uploads files (disk st)) st)) as [fs ->].
  - unfold post_preview. destruct (multer 1 parts) as [message|files]; [done|].
    destruct (preview_handler_after (head files) wid id' run
                (set_disk (store_uploads files (disk st)) st))
      as [[fs ->]|(fs & q & ->)]; [done|].
    split; [|split]; simpl; [done| |done].
    intros tm p [H| ->%list_elem_of_singleton]%elem_of_app; [by apply Htimers|done].
  - done.
  - destruct (get_download_frame id' st) as (Hg & Ht & _ & _).
    split; [|split].
    + by rewrite Hg.
    + by rewrite Ht.
    + intros info [H|(info' & [= -> ->] & H)]%get_download_transfers;
        [by eapply Htransfers|congruence].
  - unfold download_done. destruct (transfers st !! k) as [[id' info]|] eqn:Hk; [|done].
    split; [|split]; simpl.
    + apply lookup_delete_None. by right.
    + done.
    + intros info' H. apply (Htransfers info').
      eapply elem_of_sublist; [exact H|apply sublist_delete].
  - unfold elapse.
    set (t := (clock st + Z.of_N ms)%Z).
    set (expired := filter (λ tm, (due tm ≤ t)%Z) (timers st)).
    set (pending := filter (λ tm, ¬ (due tm ≤ t)%Z) (timers st)).
    split; [|split].
    + by apply fire_all_absent.
    + destruct (fire_all_frame expired (set_timers pending (set_clock t st))) as [-> _].
      simpl. intros tm p [_ H]%list_elem_of_filter. by apply Htimers.
    + rewrite fire_all_transfers. done.
Qed.

Lemma exec_unused id events : ∀ st,
  (∀ e, e ∈ events → artifact_id e ≠ Some id) → unused id st → unused id (exec st events).
Proof.
  intros st Hids. apply (exec_invariant (unused id)).
  intros st' e Hin. apply step_unused. by apply Hids.
Qed.

Lemma step_clock st e : (clock st ≤ clock (state_of (step st e)))%Z.
Proof.
  destruct e as [parts wid id tool zipError|parts wid run|parts wid id run
                 |id|id|k|ms]; simpl.
  all: rewrite ?state_of_proceed in *.
  - unfold post_convert. destruct (multer 50 parts) as [message|files]; [done|].
    by destruct (convert_handler_after files wid id tool zipError
                   (set_disk (store_uploads files (disk st)) st))
      as [[_ [fs ->]]|[_ (fs & info & -> & _)]].
  - unfold post_preview_pdf. destruct (multer 1 parts) as [message|files]; [done|].
    by destruct (preview_pdf_handler_after (head files) wid run
                   (set_disk (store_uploads files (disk st)) st)) as [fs ->].
  - unfold post_preview. destruct (multer 1 parts) as [message|files]; [done|].
    by destruct (preview_handler_after (head files) wid id run
                   (set_disk (store_uploads files (disk st)) st))
      as [[fs ->]|(fs & q & ->)].
  - done.
  - by destruct (get_download_frame id st) as (_ & _ & -> & _).
  - by destruct (download_done_frame k st) as [_ ->].
  - unfold elapse.
    destruct (fire_all_frame (filter (λ tm, (due tm ≤ clock st + Z.of_N ms)%Z) (timers st))
                (set_timers (filter (λ tm, ¬ (due tm ≤ clock st + Z.of_N ms)%Z) (timers st))
                            (set_clock (clock st + Z.of_N ms) st))) as [_ ->].
    simpl. lia.
Qed.

Lemma exec_clock events : ∀ st, (clock st ≤ clock (exec st events))%Z.
Proof.
  induction events as [|e events IH]; intros st; [done|].
  destruct (exec_cons st e events) as [-> | ->]; [apply step_clock|].
  etransitivity; [apply step_clock|apply IH].
Qed.

(** Timers that concern neither the identifier nor the file leave the
    artifact alone. *)
Lemma fire_all_held p id info l : ∀ st,
  (∀ tm, tm ∈ l → unlinks (callback tm) ≠ p ∧ ∀ q, callback tm ≠ ExpireGenerated q id) →
  generatedFiles st !! id = Some info → existsSync p (disk st) = true →
  generatedFiles (foldl (λ acc tm, fire (callback tm) acc) st l) !! id = Some info
  ∧ existsSync p (disk (foldl (λ acc tm, fire (callback tm) acc) st l)) = true.
Proof.
  induction l as [|tm l IH]; intros st Hall Hinfo Hthere; simpl; [done|].
  destruct (Hall tm (list_elem_of_here _ _)) as [Hp Hid].
  apply IH.
  - intros tm' Hin. apply Hall. by apply list_elem_of_further.
  - destruct (callback tm) as [q id'|q id']; simpl; [|done].
    rewrite lookup_delete_ne; [done|]. intros ->. by apply (Hid q).
  - unfold existsSync in *.
    destruct (callback tm) as [q id'|q id']; simpl in *; by rewrite read_try_unlink.
Qed.

Lemma step_held id info T st e :
  shaped st → artifact_id e ≠ Some id → download_id e ≠ Some id →
  (clock (state_of (step st e)) < T)%Z →
  held id info T st → held id info T (state_of (step st e)).
Proof.
  intros (Sgen & Stimers & Stransfers) Hid Hdl Hclock (Hinfo & Hthere & Hdue & Hnone).
  pose proof (Sgen id info Hinfo) as Hpath.
  assert (dir (path info) = filesDir) as Hdir by (by destruct Hpath as [_ [ext ->]]).
  destruct e as [parts wid id' tool zipError|parts wid run|parts wid id' run
                 |id'|id'|k|ms]; simpl in *.
  all: rewrite ?state_of_proceed in *.
  - unfold post_convert in *. destruct (multer 50 parts) as [message|files]; [done|].
    set (st' := set_disk (store_uploads files (disk st)) st) in *.
    assert (existsSync (path info)
              (disk (after (convert_handler files wid id' tool zipError st'))) = true)
      as Hafter.
    { destruct (convert_handler_reads (path info) files wid id' tool zipError st')
        as [Hsame|[[ext Hext] _]].
      - rewrite Hdir. intros Heq. symmetry in Heq. by apply workdir_not_filesDir in Heq.
      - intros f _ Heq. apply (f_equal dir) in Heq. by rewrite Hdir in Heq.
      - unfold existsSync in *. rewrite Hsame. subst st'. cbn [disk set_disk].
        rewrite read_store_uploads; [done|].
        intros f _ Heq. apply (f_equal dir) in Heq. by rewrite Hdir in Heq.
      - exfalso. apply Hid. f_equal. symmetry.
        apply (artifact_path_inj _ _ (path info)); [done|].
        split; [apply uuid_length|by exists ext]. }
    destruct (convert_handler_after files wid id' tool zipError st')
      as [[_ [fs Heq]]|[_ (fs & info' & Heq & _)]]; rewrite Heq in Hafter |- *.
    + done.
    + split; [|split; [done|split; [|done]]]; simpl.
      * rewrite lookup_insert_ne by congruence. done.
      * intros tm p [H| ->%list_elem_of_singleton]%elem_of_app; [by apply Hdue|].
        simpl. congruence.
  - unfold post_preview_pdf in *. destruct (multer 1 parts) as [message|files]; [done|].
    set (st' := set_disk (store_uploads files (disk st)) st) in *.
    assert (existsSync (path info)
              (disk (after (preview_pdf_handler (head files) wid run st'))) = true)
      as Hafter.
    { unfold existsSync in *. rewrite preview_pdf_handler_reads.
      - subst st'. cbn [disk set_disk]. rewrite read_store_uploads; [done|].
        intros f _ Heq. apply (f_equal dir) in Heq. by rewrite Hdir in Heq.
      - rewrite Hdir. intros Heq. symmetry in Heq. revert Heq.
        by apply prefixed_uuid_not_filesDir.
      - intros f _ Heq. apply (f_equal dir) in Heq. by rewrite Hdir in Heq. }
    destruct (preview_pdf_handler_after (head files) wid run st') as [fs Heq].
    rewrite Heq in Hafter |- *. done.
  - unfold post_preview in *. destruct (multer 1 parts) as [message|files]; [done|].
    set (st' := set_disk (store_uploads files (disk st)) st) in *.
    assert (existsSync (path info)
              (disk (after (preview_handler (head files) wid id' run st'))) = true)
      as Hafter.
    { destruct (preview_handler_reads (path info) (head files) wid id' run st')
        as [Hsame|[[ext Hext] _]].
      - rewrite Hdir. intros Heq. symmetry in Heq. revert Heq.
        by apply prefixed_uuid_not_filesDir.
      - intros f _ Heq. apply (f_equal dir) in Heq. by rewrite Hdir in Heq.
      - unfold existsSync in *. rewrite Hsame. subst st'. cbn [disk set_disk].
        rewrite read_store_uploads; [done|].
        intros f _ Heq. apply (f_equal dir) in Heq. by rewrite Hdir in Heq.
      - apply (f_equal dir) in Hext. by rewrite Hdir in Hext. }
    destruct (preview_handler_after (head files) wid id' run st')
      as [[fs Heq]|(fs & q & Heq)]; rewrite Heq in Hafter |- *; [done|].
    split; [done|split; [done|split; [|done]]]; simpl.
    intros tm p [H| ->%list_elem_of_singleton]%elem_of_app; [by apply Hdue|done].
  - done.
  - destruct (get_download_frame id' st) as (Hg & Ht & _ & Hd).
    split; [by rewrite Hg|]. split; [by rewrite Hd|]. split; [by rewrite Ht|].
    intros info' [H|(info'' & [= -> ->] & H)]%get_download_transfers;
      [by eapply Hnone|congruence].
  - unfold download_done. destruct (transfers st !! k) as [[id' info']|] eqn:Hk; [|done].
    assert ((id', info') ∈ transfers st) as Hin by (by eapply list_elem_of_lookup_2).
    assert (id' ≠ id) as Hne by (intros ->; by eapply Hnone).
    split; [|split; [|split]]; simpl.
    + by rewrite lookup_delete_ne.
    + unfold existsSync in *. rewrite read_try_unlink; [done|].
      intros Heq. apply Hne. apply (artifact_path_inj _ _ (path info)); [|done].
      rewrite <- Heq. by apply Stransfers.
    + done.
    + intros info'' H. apply (Hnone info'').
      eapply elem_of_sublist; [exact H|apply sublist_delete].
  - unfold elapse in *.
    set (t := (clock st + Z.of_N ms)%Z) in *.
    set (expired := filter (λ tm, (due tm ≤ t)%Z) (timers st)) in *.
    set (pending := filter (λ tm, ¬ (due tm ≤ t)%Z) (timers st)) in *.
    destruct (fire_all_frame expired (set_timers pending (set_clock t st)))
      as [Htimers Hclock']. rewrite Hclock' in Hclock. simpl in Hclock.
    destruct (fire_all_held (path info) id info expired
                (set_timers pending (set_clock t st))) as [Hinfo' Hthere'];
      [|done|done|].
    { intros tm [Hexp Htm]%list_elem_of_filter.
      pose proof (Stimers tm Htm) as Hshape.
      destruct (callback tm) as [q id'|q id'] eqn:Hcb; simpl.
      - assert (id' ≠ id) as Hne.
        { intros ->. pose proof (Hdue tm q Htm Hcb). lia. }
        split; [|congruence]. intros ->. apply Hne.
        by apply (artifact_path_inj _ _ (path info)).
      - split; [|done]. intros ->. destruct Hshape as [_ [ext Hext]].
        by rewrite Hext in Hdir. }
    split; [done|]. split; [done|]. split.
    + rewrite Htimers. simpl. intros tm p [_ H]%list_elem_of_filter. by apply Hdue.
    + rewrite fire_all_transfers. done.
Qed.

Lemma exec_held id info T events : ∀ st,
  shaped st →
  (∀ e, e ∈ events → artifact_id e ≠ Some id ∧ download_id e ≠ Some id) →
  (clock (exec st events) < T)%Z →
  held id info T st → held id info T (exec st events).
Proof.
  induction events as [|e events IH]; intros st Hshaped Hall Hclock H; [done|].
  destruct (Hall e (list_elem_of_here _ _)) as [Hid Hdl].
  destruct (exec_cons st e events) as [Heq|Heq]; rewrite Heq in *;
    [by apply step_held|].
  apply IH.
  - by apply step_shaped.
  - intros e' Hin. apply Hall. by apply list_elem_of_further.
  - done.
  - apply step_held; try done.
    pose proof (exec_clock events (state_of (step st e))). lia.
Qed.

Lemma get_download_held id info T st :
  held id info T st → downloadName info ≠ "" →
  (get_download id st).1
  = {| statusCode := 200; body := Attachment (path info) (downloadName info) |}.
Proof.
  intros (Hinfo & Hthere & _) Hname. unfold get_download.
  rewrite (js_get_own _ _ _ Hinfo), Hthere.
  apply String.eqb_neq in Hname. by rewrite Hname.
Qed.

(** X20.  An artifact stays available until it is asked for or ten minutes
    have passed: in any run that the process survives and in which no other
    conversion draws its identifier, the first [GET /download/:id] at the URL
    of the answer, if it comes before the clock reaches registration time
    plus 600000 ms, is served with the file as attachment under the announced
    name, whatever other requests, downloads and expiries have happened in
    between. *)
Theorem artifact_stays_available
  (pre : list Event) (parts : list UploadedFile) (wid id : Uuid)
  (tool : nat → ToolRun) (zipError : option string) (events : list Event) :
  let st := exec boot pre in
  let o := post_convert parts wid id tool zipError st in
  alive boot pre = true →
  statusCode (response o) = 200 →
  alive (after o) events = true →
  (∀ e, e ∈ pre ++ events → artifact_id e ≠ Some (uuid_str id)) →
  (∀ e, e ∈ events → download_id e ≠ Some (uuid_str id)) →
  (clock (exec (after o) events) < clock st + TTL)%Z →
  ∃ file name,
    body (response o) = JsonDownload ("/download/" +:+ uuid_str id) name
    ∧ (get_download (uuid_str id) (exec (after o) events)).1
      = {| statusCode := 200; body := Attachment file name |}.
Proof.
  cbv zeta. intros _ Hok _ Hids Hdl Hclock.
  assert (shaped boot) as Hboot.
  { split; [|split]; [done|by intros tm ?%elem_of_nil|by intros ?? ?%elem_of_nil]. }
  assert (unused (uuid_str id) boot) as Hfresh.
  { split; [|split]; [done|by intros tm p ?%elem_of_nil|by intros ? ?%elem_of_nil]. }
  pose proof (exec_shaped pre boot Hboot) as Hshaped.
  pose proof (exec_unused (uuid_str id) pre boot
                (λ e He, Hids e (proj2 (elem_of_app _ _ _) (or_introl He))) Hfresh)
    as (Hgen & Htimers & Htransfers).
  pose proof (step_shaped (exec boot pre) (PostConvert parts wid id tool zipError) Hshaped)
    as Hshaped'.
  simpl in Hshaped'. rewrite state_of_proceed in Hshaped'.
  destruct (post_convert_registered parts wid id tool zipError (exec boot pre) Hok)
    as (info & fs & Hbody & Hname & Hafter & Hthere & Hpath).
  exists (path info), (downloadName info). split; [done|].
  apply (get_download_held _ _ (clock (exec boot pre) + TTL)%Z); [|done].
  apply exec_held; [done| |done|].
  - intros e He. split; [|by apply Hdl].
    apply Hids, elem_of_app. by right.
  - rewrite Hafter. split; [|split; [|split]]; simpl.
    + apply lookup_insert_eq.
    + done.
    + intros tm p [H| ->%list_elem_of_singleton]%elem_of_app; simpl; [|done].
      intros Hcb. by apply Htimers in Hcb.
    + done.
Qed.

Lemma artifact_stays_available_witness :
  ∃ file name,
    body (response (post_convert [slides] uuid_a uuid_b tool_ok None
                      (exec boot [PostPreview [slides] uuid_c uuid_d run_png])))
    = JsonDownload ("/download/" +:+ uuid_str uuid_b) name
    ∧ (get_download (uuid_str uuid_b)
         (exec (after (post_convert [slides] uuid_a uuid_b tool_ok None
                         (exec boot [PostPreview [slides] uuid_c uuid_d run_png])))
               [Elapse 599999; GetDownload (uuid_str uuid_d)])).1
      = {| statusCode := 200; body := Attachment file name |}.
Proof.
  apply (artifact_stays_available [PostPreview [slides] uuid_c uuid_d run_png]
           [slides] uuid_a uuid_b tool_ok None
           [Elapse 599999; GetDownload (uuid_str uuid_d)]).
  - vm_compute. reflexivity.
  - vm_compute. reflexivity.
  - vm_compute. reflexivity.
  - intros e He. repeat (apply elem_of_cons in He as [->|He]; [discriminate|]).
    by apply elem_of_nil in He.
  - intros e He. repeat (apply elem_of_cons in He as [->|He]; [discriminate|]).
    by apply elem_of_nil in He.
  - vm_compute. reflexivity.
Defined.

(** *** Availability of previews *)

Lemma preview_path_inj id id' p : preview_path id p → preview_path id' p → id = id'.
Proof.
  intros [Hlen [ext ->]] [Hlen' [ext' Heq]]. injection Heq as Heq.
  apply (string_app_inj_prefix id id' ext ext'); congruence.
Qed.

Lemma copyFileSync_exists src dst fs fs' :
  copyFileSync src dst fs = Some fs' → existsSync dst fs' = true.
Proof.
  unfold copyFileSync, existsSync.
  destruct (readFileSync src fs) as [c|]; [|done]. intros H.
  by rewrite (writeFileSync_read _ _ _ _ H).
Qed.

(** A preview answered 200 has put its image in the preview directory under
    its identifier and registered it with its timer. *)
Lemma preview_handler_registered file wid id run st :
  let o := preview_handler file wid id run st in
  statusCode (response o) = 200 →
  ∃ p fs,
    body (response o) = JsonPreview ("/preview/" +:+ uuid_str id)
    ∧ after o
      = set_disk fs
          (setTimeout (ExpirePreview p (uuid_str id)) TTL
             (set_previewFiles (<[uuid_str id := p]> (previewFiles st)) st))
    ∧ existsSync p fs = true
    ∧ preview_path (uuid_str id) p.
Proof.
  cbv zeta.
  assert ("ppt_preview_" +:+ uuid_str wid ≠ previewDir) as Hdirs
    by (by apply previewDir_not_prefixed).
  unfold preview_handler, preview_server_error.
  destruct file as [f|]; [|done].
  destruct (renameSync _ _ _) as [fs1|]; [|done].
  destruct (ending run); [|done|];
    (destruct (readdirSync _ _) as [names|]; [|done];
     destruct (js_sort _) as [|image rest]; [done|];
     destruct (copyFileSync _ _ _) as [fs4|] eqn:Hcopy; [|done];
     intros _; eexists _, _; split; [done|]; split; [done|]; split;
     [ unfold existsSync; rewrite (readFileSync_dir_eq _ fs4)
         by (simpl; by apply cleanup_lookup_ne);
       exact (copyFileSync_exists _ _ _ _ Hcopy)
     | split; [apply uuid_length|by eexists] ]).
Qed.

Lemma step_no_preview_timer id st e :
  preview_id e ≠ Some id →
  (∀ tm q, tm ∈ timers st → callback tm ≠ ExpirePreview q id) →
  ∀ tm q, tm ∈ timers (state_of (step st e)) → callback tm ≠ ExpirePreview q id.
Proof.
  intros Hid Htimers.
  destruct e as [parts wid id' tool zipError|parts wid run|parts wid id' run
                 |id'|id'|k|ms]; simpl in *.
  all: rewrite ?state_of_proceed in *.
  - unfold post_convert. destruct (multer 50 parts) as [message|files]; [done|].
    destruct (convert_handler_after files wid id' tool zipError
                (set_disk (store_uploads files (disk st)) st))
      as [[_ [fs ->]]|[_ (fs & info & -> & _)]]; [done|]. simpl.
    intros tm q [H| ->%list_elem_of_singleton]%elem_of_app; [by apply Htimers|done].
  - unfold post_preview_pdf. destruct (multer 1 parts) as [message|files]; [done|].
    by destruct (preview_pdf_handler_after (head files) wid run
                   (set_disk (store_uploads files (disk st)) st)) as [fs ->].
  - unfold post_preview. destruct (multer 1 parts) as [message|files]; [done|].
    destruct (preview_handler_after (head files) wid id' run
                (set_disk (store_uploads files (disk st)) st))
      as [[fs ->]|(fs & p & ->)]; [done|]. simpl.
    intros tm q [H| ->%list_elem_of_singleton]%elem_of_app; [by apply Htimers|].
    simpl. congruence.
  - done.
  - by destruct (get_download_frame id' st) as (_ & -> & _ & _).
  - by destruct (download_done_frame k st) as [-> _].
  - unfold elapse.
    destruct (fire_all_frame (filter (λ tm, (due tm ≤ clock st + Z.of_N ms)%Z) (timers st))
                (set_timers (filter (λ tm, ¬ (due tm ≤ clock st + Z.of_N ms)%Z) (timers st))
                            (set_clock (clock st + Z.of_N ms) st))) as [-> _].
    simpl. intros tm q [_ H]%list_elem_of_filter. by apply Htimers.
Qed.

Lemma exec_no_preview_timer id events : ∀ st,
  (∀ e, e ∈ events → preview_id e ≠ Some id) →
  (∀ tm q, tm ∈ timers st → callback tm ≠ ExpirePreview q id) →
  ∀ tm q, tm ∈ timers (exec st events) → callback tm ≠ ExpirePreview q id.
Proof.
  intros st Hids.
  apply (exec_invariant
           (λ s, ∀ tm q, tm ∈ timers s → callback tm ≠ ExpirePreview q id)).
  intros st' e Hin. apply step_no_preview_timer. by apply Hids.
Qed.

Lemma fire_all_shown p id l : ∀ st,
  (∀ tm, tm ∈ l → unlinks (callback tm) ≠ p ∧ ∀ q, callback tm ≠ ExpirePreview q id) →
  previewFiles st !! id = Some p → existsSync p (disk st) = true →
  previewFiles (foldl (λ acc tm, fire (callback tm) acc) st l) !! id = Some p
  ∧ existsSync p (disk (foldl (λ acc tm, fire (callback tm) acc) st l)) = true.
Proof.
  induction l as [|tm l IH]; intros st Hall Hp Hthere; simpl; [done|].
  destruct (Hall tm (list_elem_of_here _ _)) as [Hq Hid].
  apply IH.
  - intros tm' Hin. apply Hall. by apply list_elem_of_further.
  - destruct (callback tm) as [q id'|q id']; simpl; [done|].
    rewrite lookup_delete_ne; [done|]. intros ->. by apply (Hid q).
  - unfold existsSync in *.
    destruct (callback tm) as [q id'|q id']; simpl in *; by rewrite read_try_unlink.
Qed.

Lemma step_shown_preview id p T st e :
  shaped st → preview_path id p → preview_id e ≠ Some id →
  (clock (state_of (step st e)) < T)%Z →
  shown_preview id p T st → shown_preview id p T (state_of (step st e)).
Proof.
  intros (Sgen & Stimers & Stransfers) Hpath Hid Hclock (Hp & Hthere & Hdue).
  assert (dir p = previewDir) as Hdir by (by destruct Hpath as [_ [ext ->]]).
  destruct e as [parts wid id' tool zipError|parts wid run|parts wid id' run
                 |id'|id'|k|ms]; simpl in *.
  all: rewrite ?state_of_proceed in *.
  - unfold post_convert in *. destruct (multer 50 parts) as [message|files]; [done|].
    set (st' := set_disk (store_uploads files (disk st)) st) in *.
    assert (existsSync p
              (disk (after (convert_handler files wid id' tool zipError st'))) = true)
      as Hafter.
    { destruct (convert_handler_reads p files wid id' tool zipError st')
        as [Hsame|[[ext Hext] _]].
      - rewrite Hdir. intros Heq. symmetry in Heq. revert Heq.
        by apply previewDir_not_prefixed.
      - intros f _ Heq. apply (f_equal dir) in Heq. by rewrite Hdir in Heq.
      - unfold existsSync in *. rewrite Hsame. subst st'. cbn [disk set_disk].
        rewrite read_store_uploads; [done|].
        intros f _ Heq. apply (f_equal dir) in Heq. by rewrite Hdir in Heq.
      - apply (f_equal dir) in Hext. by rewrite Hdir in Hext. }
    destruct (convert_handler_after files wid id' tool zipError st')
      as [[_ [fs Heq]]|[_ (fs & info' & Heq & _)]]; rewrite Heq in Hafter |- *; [done|].
    split; [done|split; [done|]]; simpl.
    intros tm q [H| ->%list_elem_of_singleton]%elem_of_app; [by apply Hdue|done].
  - unfold post_preview_pdf in *. destruct (multer 1 parts) as [message|files]; [done|].
    set (st' := set_disk (store_uploads files (disk st)) st) in *.
    assert (existsSync p
              (disk (after (preview_pdf_handler (head files) wid run st'))) = true)
      as Hafter.
    { unfold existsSync in *. rewrite preview_pdf_handler_reads.
      - subst st'. cbn [disk set_disk]. rewrite read_store_uploads; [done|].
        intros f _ Heq. apply (f_equal dir) in Heq. by rewrite Hdir in Heq.
      - rewrite Hdir. intros Heq. symmetry in Heq. revert Heq.
        by apply previewDir_not_prefixed.
      - intros f _ Heq. apply (f_equal dir) in Heq. by rewrite Hdir in Heq. }
    destruct (preview_pdf_handler_after (head files) wid run st') as [fs Heq].
    rewrite Heq in Hafter |- *. done.
  - unfold post_preview in *. destruct (multer 1 parts) as [message|files]; [done|].
    set (st' := set_disk (store_uploads files (disk st)) st) in *.
    assert (existsSync p
              (disk (after (preview_handler (head files) wid id' run st'))) = true)
      as Hafter.
    { destruct (preview_handler_reads p (head files) wid id' run st')
        as [Hsame|[[ext Hext] _]].
      - rewrite Hdir. intros Heq. symmetry in Heq. revert Heq.
        by apply previewDir_not_prefixed.
      - intros f _ Heq. apply (f_equal dir) in Heq. by rewrite Hdir in Heq.
      - unfold existsSync in *. rewrite Hsame. subst st'. cbn [disk set_disk].
        rewrite read_store_uploads; [done|].
        intros f _ Heq. apply (f_equal dir) in Heq. by rewrite Hdir in Heq.
      - exfalso. apply Hid. f_equal. symmetry.
        apply (preview_path_inj _ _ p); [done|].
        split; [apply uuid_length|by exists ext]. }
    destruct (preview_handler_after (head files) wid id' run st')
      as [[fs Heq]|(fs & q & Heq)]; rewrite Heq in Hafter |- *; [done|].
    split; [|split; [done|]]; simpl.
    + rewrite lookup_insert_ne by congruence. done.
    + intros tm q' [H| ->%list_elem_of_singleton]%elem_of_app; [by apply Hdue|].
      simpl. congruence.
  - done.
  - destruct (get_download_frame id' st) as (_ & Ht & _ & Hd).
    split; [by rewrite get_download_previews|]. split; [by rewrite Hd|].
    by rewrite Ht.
  - unfold download_done. destruct (transfers st !! k) as [[id' info']|] eqn:Hk; [|done].
    assert ((id', info') ∈ transfers st) as Hin by (by eapply list_elem_of_lookup_2).
    split; [done|]. split; [|done]. simpl.
    unfold existsSync in *. rewrite read_try_unlink; [done|].
    intros Heq. destruct (Stransfers id' info' Hin) as [_ [ext Hext]].
    rewrite Heq in Hext. by rewrite Hext in Hdir.
  - unfold elapse in *.
    set (t := (clock st + Z.of_N ms)%Z) in *.
    set (expired := filter (λ tm, (due tm ≤ t)%Z) (timers st)) in *.
    set (pending := filter (λ tm, ¬ (due tm ≤ t)%Z) (timers st)) in *.
    destruct (fire_all_frame expired (set_timers pending (set_clock t st)))
      as [Htimers Hclock']. rewrite Hclock' in Hclock. simpl in Hclock.
    destruct (fire_all_shown p id expired (set_timers pending (set_clock t st)))
      as [Hp' Hthere']; [|done|done|].
    { intros tm [Hexp Htm]%list_elem_of_filter.
      pose proof (Stimers tm Htm) as Hshape.
      destruct (callback tm) as [q id'|q id'] eqn:Hcb; simpl.
      - split; [|done]. intros ->. destruct Hshape as [_ [ext Hext]].
        by rewrite Hext in Hdir.
      - assert (id' ≠ id) as Hne.
        { intros ->. pose proof (Hdue tm q Htm Hcb). lia. }
        split; [|congruence]. intros ->. apply Hne.
        by apply (preview_path_inj _ _ p). }
    split; [done|]. split; [done|].
    rewrite Htimers. simpl. intros tm q [_ H]%list_elem_of_filter. by apply Hdue.
Qed.

Lemma exec_shown_preview id p T events : ∀ st,
  shaped st → preview_path id p →
  (∀ e, e ∈ events → preview_id e ≠ Some id) →
  (clock (exec st events) < T)%Z →
  shown_preview id p T st → shown_preview id p T (exec st events).
Proof.
  induction events as [|e events IH]; intros st Hshaped Hpath Hall Hclock H; [done|].
  destruct (exec_cons st e events) as [Heq|Heq]; rewrite Heq in *.
  { apply step_shown_preview; try done. apply Hall, list_elem_of_here. }
  apply IH.
  - by apply step_shaped.
  - done.
  - intros e' Hin. apply Hall. by apply list_elem_of_further.
  - done.
  - apply step_shown_preview; try done.
    + apply Hall, list_elem_of_here.
    + pose proof (exec_clock events (state_of (step st e))). lia.
Qed.

(** X23.  A preview stays available until ten minutes have passed: in any
    run that the process survives and in which no other preview draws its
    identifier, a [GET /preview/:id] at the URL of the answer that comes
    before the clock reaches registration time plus 600000 ms is served with
    the image, whatever other requests, downloads and expiries have happened
    in between. *)
Theorem preview_stays_available
  (pre : list Event) (parts : list UploadedFile) (wid id : Uuid)
  (run : ToolRun) (events : list Event) :
  let st := exec boot pre in
  let o := post_preview parts wid id run st in
  alive boot pre = true →
  statusCode (response o) = 200 →
  alive (after o) events = true →
  (∀ e, e ∈ pre ++ events → preview_id e ≠ Some (uuid_str id)) →
  (clock (exec (after o) events) < clock st + TTL)%Z →
  ∃ image,
    body (response o) = JsonPreview ("/preview/" +:+ uuid_str id)
    ∧ get_preview (uuid_str id) (exec (after o) events)
      = {| statusCode := 200; body := SentFile image |}.
Proof.
  cbv zeta. intros _ Hok _ Hids Hclock.
  assert (shaped boot) as Hboot.
  { split; [|split]; [done|by intros tm ?%elem_of_nil|by intros ?? ?%elem_of_nil]. }
  pose proof (exec_shaped pre boot Hboot) as Hshaped.
  pose proof (exec_no_preview_timer (uuid_str id) pre boot
                (λ e He, Hids e (proj2 (elem_of_app _ _ _) (or_introl He)))
                ltac:(by intros tm q ?%elem_of_nil)) as Htimers.
  pose proof (step_shaped (exec boot pre) (PostPreview parts wid id run) Hshaped)
    as Hshaped'.
  simpl in Hshaped'. rewrite state_of_proceed in Hshaped'.
  unfold post_preview in *.
  destruct (multer 1 parts) as [message|files]; [done|].
  destruct (preview_handler_registered (head files) wid id run
              (set_disk (store_uploads files (disk (exec boot pre))) (exec boot pre)) Hok)
    as (p & fs & Hbody & Hafter & Hthere & Hpath).
  exists p. split; [done|].
  assert (shown_preview (uuid_str id) p (clock (exec boot pre) + TTL)%Z
            (exec (after (preview_handler (head files) wid id run
                            (set_disk (store_uploads files (disk (exec boot pre)))
                                      (exec boot pre)))) events))
    as (Hp & Hfile & _).
  { apply exec_shown_preview; [done|done| |done|].
    - intros e He. apply Hids, elem_of_app. by right.
    - rewrite Hafter. split; [|split]; simpl.
      + apply lookup_insert_eq.
      + done.
      + intros tm q [H| ->%list_elem_of_singleton]%elem_of_app; simpl; [|done].
        intros Hcb. by apply Htimers in Hcb. }
  unfold get_preview. by rewrite (js_get_own _ _ _ Hp), Hfile.
Qed.

Lemma preview_stays_available_witness :
  ∃ image,
    body (response (post_preview [slides] uuid_c uuid_d run_png
                      (exec boot [PostConvert [slides] uuid_a uuid_b tool_ok None])))
    = JsonPreview ("/preview/" +:+ uuid_str uuid_d)
    ∧ get_preview (uuid_str uuid_d)
        (exec (after (post_preview [slides] uuid_c uuid_d run_png
                        (exec boot [PostConvert [slides] uuid_a uuid_b tool_ok None])))
              [GetDownload (uuid_str uuid_b); DownloadDone 0; Elapse 599999])
      = {| statusCode := 200; body := SentFile image |}.
Proof.
  apply (preview_stays_available [PostConvert [slides] uuid_a uuid_b tool_ok None]
           [slides] uuid_c uuid_d run_png
           [GetDownload (uuid_str uuid_b); DownloadDone 0; Elapse 599999]).
  - vm_compute. reflexivity.
  - vm_compute. reflexivity.
  - vm_compute. reflexivity.
  - intros e He. repeat (apply elem_of_cons in He as [->|He]; [discriminate|]).
    by apply elem_of_nil in He.
  - vm_compute. reflexivity.
Defined.

End ServerFacts.

(** ** The page and the server together *)
Module SessionFacts.
Import Js JsFacts Fs FsFacts Server ServerFacts Session.

Lemma is_pdf_not_zip fn :
  is_pdf fn = true → Js.endsWith (Js.toLowerCase fn) ".zip" = false.
Proof.
  unfold is_pdf, Js.endsWith. cbn [String.length].
  destruct (4 <=? String.length (Js.toLowerCase fn))%nat; [|done]. simpl.
  intros H%String.eqb_eq. by rewrite H.
Qed.

(** What [POST /convert] answers: an error of multer through Express, an
    error of its own as JSON with a message, or the link, whose file name is
    that of the one PDF or, with several, the archive's. *)
Local Ltac json_error :=
  left; eexists _, _; refine (conj _ (conj _ eq_refl));
  [first [by left | by right]|simpl; discriminate].

Lemma post_convert_answer parts wid id tool zipError st :
  let o := post_convert parts wid id tool zipError st in
  (∃ message, multer 50 parts = inl message
              ∧ response o = {| statusCode := 500; body := ErrorPage message |})
  ∨ (∃ code error, (code = 400 ∨ code = 500) ∧ error ≠ ""
       ∧ response o = {| statusCode := code; body := JsonError error None |})
  ∨ (∃ pdfFiles fs2 filename,
       produced_pdfs parts wid tool (set_disk (store_uploads parts (disk st)) st)
       = Some (pdfFiles, fs2)
       ∧ response o
         = {| statusCode := 200;
              body := JsonDownload ("/download/" +:+ uuid_str id) filename |}
       ∧ ((∃ pdf, pdfFiles = [pdf] ∧ filename = pdf ∧ is_pdf pdf = true)
          ∨ ((1 < length pdfFiles)%nat ∧ filename = "converted-pdfs.zip"))).
Proof.
  cbv zeta. unfold post_convert.
  destruct (multer 50 parts) as [message|files] eqn:Hm; [left; by eexists|].
  apply multer_accepts in Hm as ->. right.
  unfold convert_handler, produced_pdfs, server_error.
  destruct parts as [|f rest] eqn:Hfiles; [json_error|].
  rewrite <- Hfiles. clear Hfiles.
  destruct (move_uploads _ _ _) as [fs1|]; [|json_error].
  destruct (convert_loop _ _ _ _ _ _) as [[fs2 log] [[nm message]|]];
    [json_error|].
  destruct (readdirSync (workdir_of wid) fs2) as [names|] eqn:Hnames;
    [|json_error].
  destruct (filter (λ fn, is_pdf fn = true) names) as [|pdf [|pdf2 more]] eqn:Hpdfs;
    [json_error| |].
  - destruct (copyFileSync _ _ _) as [fs4|] eqn:Hcopy; [|json_error].
    right. eexists [pdf], fs2, pdf. simpl. rewrite Hpdfs.
    split; [done|]. split; [done|]. left. exists pdf. split; [done|]. split; [done|].
    assert (pdf ∈ filter (λ fn, is_pdf fn = true) names) as Hin
      by (rewrite Hpdfs; apply list_elem_of_here).
    by apply list_elem_of_filter in Hin as [? _].
  - destruct zipError as [message|]; [json_error|].
    right. eexists (pdf :: pdf2 :: more), fs2, "converted-pdfs.zip". simpl.
    rewrite Hpdfs. split; [done|]. split; [done|]. right. split; [lia|done].
Qed.

(** X21.  What the page shows for the server's answer to its upload.  The
    convert button works again and the progress bar is hidden.  For a 200
    there is one link, to [/download/:id] of the registered artifact, saved
    under the announced file name, and labelled [Download ZIP] exactly when
    the conversion made more than one PDF.  For an error of the handler the
    status line is the handler's message; for an upload that multer turned
    away it is [Conversion failed (server error).], not the filter's
    message. *)
Theorem page_shows_the_outcome
  (parts : list UploadedFile) (wid id : Uuid) (tool : nat → ToolRun)
  (zipError : option string) (st : State) (page : Client.State) :
  let o := post_convert parts wid id tool zipError st in
  let '(page', ctl, link) := shown (response o) page in
  Client.convertDisabled ctl = false ∧ Client.progressHidden ctl = true
  ∧ Client.currentFiles page' = Client.currentFiles page
  ∧ ((∃ message, multer 50 parts = inl message
        ∧ link = None
        ∧ Client.status page' = "Conversion failed (server error).")
     ∨ (∃ error detail, body (response o) = JsonError error detail
          ∧ statusCode (response o) ≠ 200
          ∧ link = None
          ∧ Client.status page' = error)
     ∨ (∃ pdfFiles fs2 filename,
          statusCode (response o) = 200
          ∧ produced_pdfs parts wid tool (set_disk (store_uploads parts (disk st)) st)
            = Some (pdfFiles, fs2)
          ∧ link = Some {| Client.href := "/download/" +:+ uuid_str id;
                           Client.linkText :=
                             if decide (1 < length pdfFiles)%nat
                             then "Download ZIP" else "Download PDF";
                           Client.download := Some filename |}
          ∧ Client.status page' = "Conversion ready. Click the download button.")).
Proof.
  cbv zeta. unfold shown, received.
  destruct (post_convert_answer parts wid id tool zipError st)
    as [(message & Hm & ->)|[(code & error & Hcode & Herror & ->)
       |(pdfFiles & fs2 & filename & Hpdfs & -> & Hname)]]; cbn [statusCode body fst snd].
  - unfold Client.onload. simpl. split; [done|]. split; [done|]. split; [done|].
    left. by exists message.
  - unfold Client.onload. apply String.eqb_neq in Herror.
    destruct Hcode as [-> | ->]; cbn [fst snd]; rewrite Herror;
      (split; [done|]); (split; [done|]); (split; [done|]);
      right; left; eexists _, _; (split; [done|]); (split; [lia|]); done.
  - unfold Client.onload. cbn [fst snd].
    assert (String.eqb ("/download/" +:+ uuid_str id) "" = false) as -> by done.
    split; [done|]. split; [done|]. split; [done|].
    right. right. exists pdfFiles, fs2, filename.
    split; [done|]. split; [done|]. split; [|done].
    destruct Hname as [(pdf & -> & -> & Hpdf)|[Hlen ->]].
    + rewrite (is_pdf_not_zip _ Hpdf), andb_false_r.
      pose proof (is_pdf_not_empty _ Hpdf) as Hne. apply String.eqb_neq in Hne.
      rewrite Hne. by rewrite decide_False by (simpl; lia).
    + by rewrite decide_True by done.
Qed.

(** *** The two extension checks *)

Lemma getExt_no_dot (nm : string) :
  includes "." nm = false → Client.getExt nm = toLowerCase nm.
Proof. intros H. unfold Client.getExt. by rewrite (split_no_dot nm H). Qed.

Lemma getExt_last_dot (a b : string) :
  includes "." b = false → Client.getExt (a +:+ String "." b) = toLowerCase b.
Proof. intros H. unfold Client.getExt. by rewrite (pop_split_last_dot a b H). Qed.

Lemma is_ppt_no_dot (e : string) :
  Client.is_ppt (toLowerCase e) = true → includes "." e = false.
Proof.
  intros H. rewrite <- includes_dot_toLowerCase. unfold Client.is_ppt in H.
  apply orb_true_iff in H as [->%String.eqb_eq| ->%String.eqb_eq]; reflexivity.
Qed.

Lemma includes_last_dot (a b : string) : includes "." (a +:+ String "." b) = true.
Proof.
  induction a as [|x a IH]; [done|].
  change (String x a +:+ String "." b) with (String x (a +:+ String "." b)).
  cbn [includes]. rewrite IH. apply orb_true_r.
Qed.

(** A name with a dot is no [ppt] or [pptx], and neither is it after its
    first character unless that is all there is before the last dot. *)
Lemma last_dot_not_ppt (a b e : string) :
  Client.is_ppt (toLowerCase e) = true → a +:+ String "." b ≠ e.
Proof.
  intros He <-. apply is_ppt_no_dot in He. by rewrite includes_last_dot in He.
Qed.

Lemma dot_ppt_last_dot (a b e : string) :
  Client.is_ppt (toLowerCase e) = true → a +:+ String "." b = String "." e →
  a = "" ∧ b = e.
Proof.
  intros He Heq. destruct a as [|x a].
  - injection Heq as ->. done.
  - change (String x a +:+ String "." b) with (String x (a +:+ String "." b)) in Heq.
    injection Heq as _ Heq. by apply last_dot_not_ppt in Heq.
Qed.

(** X22.  The page's extension check and the server's upload filter on the
    same file name, a name without a slash.  Whatever the filter lets
    through, the page lets through.  The page lets through and the filter
    refuses exactly the names that are [ppt] or [pptx], in any case of
    letters, alone or with nothing but a dot before them. *)
Theorem page_check_covers_the_filter
  (f : UploadedFile) (file : Client.File) :
  originalname f = Client.name file →
  includes "/" (Client.name file) = false →
  (allowed_extension f = true → Client.valid file = true)
  ∧ (Client.valid file = true ∧ allowed_extension f = false
     ↔ ∃ e, Client.is_ppt (toLowerCase e) = true
            ∧ (Client.name file = e ∨ Client.name file = String "." e)).
Proof.
  intros Hname. unfold allowed_extension, Client.valid. rewrite Hname. clear Hname.
  generalize (Client.name file) as nm. clear f file. intros nm Hslash.
  assert (∀ b, String.eqb (toLowerCase (String "." b)) ".ppt"
               || String.eqb (toLowerCase (String "." b)) ".pptx"
               = Client.is_ppt (toLowerCase b)) as Hdot by done.
  destruct (extname_file_name nm Hslash)
    as [[Hfree ->]|(a & b & -> & Hfree & [[Hfirst ->]|(Ha & Hdd & ->)])].
  - rewrite (getExt_no_dot nm Hfree). split; [done|]. split.
    + intros [Hvalid _]. exists nm. auto.
    + intros (e & He & [-> | ->]); [done|]. cbn in Hfree. done.
  - rewrite (getExt_last_dot a b Hfree). split; [done|]. split.
    + intros [Hvalid _]. destruct Hfirst as [->|Hdd]; [exists b; auto|].
      exfalso. destruct a as [|x [|y a']].
      * injection Hdd as ->. done.
      * change (String x "" +:+ String "." b) with (String x (String "." b)) in Hdd.
        injection Hdd as -> ->. done.
      * change (String x (String y a') +:+ String "." b)
          with (String x (String y (a' +:+ String "." b))) in Hdd.
        injection Hdd as _ _ Hdd. by destruct a'.
    + intros (e & He & [Heq|Heq]).
      * by apply last_dot_not_ppt in Heq.
      * by destruct (dot_ppt_last_dot a b e He Heq) as [_ ->].
  - rewrite (getExt_last_dot a b Hfree), Hdot. split; [done|]. split.
    + intros [Hvalid Hrefused]. congruence.
    + intros (e & He & [Heq|Heq]).
      * by apply last_dot_not_ppt in Heq.
      * by destruct (dot_ppt_last_dot a b e He Heq) as [? _].
Qed.

Lemma page_check_covers_the_filter_witness :
  Client.valid Client.deck = true.
Proof.
  apply (proj1 (page_check_covers_the_filter
                  {| fieldname := "file"; originalname := "deck.pptx";
                     filename := "3f9a"; data := Blob 1 |}
                  Client.deck eq_refl eq_refl)).
  reflexivity.
Defined.

End SessionFacts.
